(** * now-working: the attendance engine, the command router and the two
    chat adapters, embedded from the TypeScript sources.

    - [WorkingSessionService], [OrganizationService], [UserService]
      (src/services) become functions in a state-and-exception monad over
      the database tables;
    - [ChatworkWebhookHandler.parseCommand] is embedded through a small
      backtracking matcher for the regular expressions it uses;
    - [SlackCommandHandler] and [ChatworkWebhookHandler] become functions
      over the database together with a log of the outbound effects. *)

From Stdlib Require Import List ZArith NArith QArith Bool Lia String Ascii.
From Stdlib Require Import Permutation Sorted DecimalString.
Import ListNotations.

Local Open Scope Z_scope.

(* ===================================================================== *)
(** ** JavaScript strings *)
(* ===================================================================== *)

(** A JavaScript string is a sequence of UTF-16 code units. *)
Definition jsstring := list N.

Definition jsstring_eqb (a b : jsstring) : bool :=
  if list_eq_dec N.eq_dec a b then true else false.

(** Decoding of a source literal (UTF-8 bytes) into code units. *)
Definition cont (b : N) : N := N.land b 63.

Definition utf16_of_codepoint (cp : N) : list N :=
  if (cp <? 65536)%N then [cp]
  else let v := (cp - 65536)%N in
       [(55296 + N.shiftr v 10)%N; (56320 + N.land v 1023)%N].

Fixpoint utf16_of_utf8 (bs : list N) : jsstring :=
  match bs with
  | [] => []
  | b :: t =>
    if (b <? 128)%N then b :: utf16_of_utf8 t
    else if (b <? 224)%N then
      match t with
      | b1 :: t1 =>
        utf16_of_codepoint (N.shiftl (N.land b 31) 6 + cont b1)%N
          ++ utf16_of_utf8 t1
      | _ => [65533%N]
      end
    else if (b <? 240)%N then
      match t with
      | b1 :: b2 :: t2 =>
        utf16_of_codepoint
          (N.shiftl (N.land b 15) 12 + N.shiftl (cont b1) 6 + cont b2)%N
          ++ utf16_of_utf8 t2
      | _ => [65533%N]
      end
    else
      match t with
      | b1 :: b2 :: b3 :: t3 =>
        utf16_of_codepoint
          (N.shiftl (N.land b 7) 18 + N.shiftl (cont b1) 12
           + N.shiftl (cont b2) 6 + cont b3)%N
          ++ utf16_of_utf8 t3
      | _ => [65533%N]
      end
  end.

Definition js (s : string) : jsstring :=
  utf16_of_utf8 (map (fun b => N.of_nat (nat_of_ascii b)) (list_ascii_of_string s)).

(** ECMAScript WhiteSpace and LineTerminator code units: the class [\s]
    of a regular expression and the characters removed by
    [String.prototype.trim]. *)
Definition isLineTerminator (c : N) : bool :=
  ((c =? 10) || (c =? 13) || (c =? 8232) || (c =? 8233))%N.

Definition isWhiteSpace (c : N) : bool :=
  ((c =? 9) || (c =? 11) || (c =? 12) || (c =? 32) || (c =? 160)
   || (c =? 5760) || ((8192 <=? c) && (c <=? 8202)) || (c =? 8239)
   || (c =? 8287) || (c =? 12288) || (c =? 65279))%N.

Definition isSpace (c : N) : bool := isWhiteSpace c || isLineTerminator c.

Fixpoint trimStart (s : jsstring) : jsstring :=
  match s with
  | c :: t => if isSpace c then trimStart t else s
  | [] => []
  end.

Definition trimEnd (s : jsstring) : jsstring := rev (trimStart (rev s)).

(** [String.prototype.trim]. *)
Definition trim (s : jsstring) : jsstring := trimEnd (trimStart s).

(** Truthiness of an optional string: [undefined], [null] and the empty
    string are falsy. *)
Definition truthy (s : option jsstring) : bool :=
  match s with
  | Some (_ :: _) => true
  | _ => false
  end.

(** [a || b] on optional strings. *)
Definition js_or (a b : option jsstring) : option jsstring :=
  if truthy a then a else b.

(* ===================================================================== *)
(** ** Data model (prisma/schema.prisma) *)
(* ===================================================================== *)

(** Primary keys are [cuid()] strings: opaque, compared for equality only.
    They are represented by numbers; the store hands out the next unused
    one at each [create]. *)
Definition Id := N.
Bind Scope N_scope with Id.

(** Timestamps are [Date] values: milliseconds since the epoch. *)
Definition Time := Z.

Inductive Role := OWNER | ADMIN | MEMBER.
Inductive MembershipStatus := ACTIVE | INVITED | SUSPENDED | LEFT.

Record Organization := mkOrganization {
  org_id : Id;
  org_name : jsstring;
  org_slug : jsstring
}.

Record User := mkUser {
  user_id : Id;
  user_name : jsstring;
  user_email : jsstring;
  slackUserId : option jsstring;
  chatworkUserId : option jsstring
}.

Record Membership := mkMembership {
  mem_id : Id;
  mem_userId : Id;
  mem_organizationId : Id;
  mem_role : Role;
  mem_status : MembershipStatus
}.

Record WorkingSession := mkWorkingSession {
  id : Id;
  checkinAt : Time;
  checkoutAt : option Time;
  note : option jsstring;
  userId : Id;
  organizationId : Id
}.

(** The database: one list of rows per table, in table order. *)
Record Db := mkDb {
  users : list User;
  organizations : list Organization;
  memberships : list Membership;
  workingSessions : list WorkingSession;
  nextId : Id
}.

Definition with_sessions (db : Db) (l : list WorkingSession) (n : Id) : Db :=
  mkDb (users db) (organizations db) (memberships db) l n.

(* ===================================================================== *)
(** ** Exceptions and the state-and-exception monad *)
(* ===================================================================== *)

(** The errors of the Prisma client that the services can meet: no row for
    an [update] (P2025), an argument the client refuses, and a row whose
    relation points at no row (P2003, the foreign keys of the schema). *)
Inductive PrismaCode := RecordNotFound | InvalidArgument | ForeignKeyViolation.

(** What a [throw] carries: [new Error(message)], or an error raised by
    the Prisma client. *)
Inductive exn :=
| Error (message : jsstring)
| PrismaError (code : PrismaCode).

Inductive outcome (A : Type) :=
| Ok (a : A)
| Throw (e : exn).
Arguments Ok {A} a.
Arguments Throw {A} e.

(** A computation reads and writes a state [S] and either returns or
    throws; the state reached so far survives a throw. *)
Definition M (S A : Type) := S -> outcome A * S.

Definition ret {S A} (a : A) : M S A := fun s => (Ok a, s).
Definition throw {S A} (e : exn) : M S A := fun s => (Throw e, s).
Definition bind {S A B} (m : M S A) (f : A -> M S B) : M S B :=
  fun s => match m s with
           | (Ok a, s') => f a s'
           | (Throw e, s') => (Throw e, s')
           end.
Definition try_catch {S A} (m : M S A) (h : exn -> M S A) : M S A :=
  fun s => match m s with
           | (Ok a, s') => (Ok a, s')
           | (Throw e, s') => h e s'
           end.
Definition gets {S A} (f : S -> A) : M S A := fun s => (Ok (f s), s).
Definition modify {S} (f : S -> S) : M S unit := fun s => (Ok tt, f s).

Declare Scope monad_scope.
Delimit Scope monad_scope with monad.
Notation "x <- m ;; k" := (bind m (fun x => k))
  (at level 61, m at next level, right associativity) : monad_scope.
Notation "m ;;; k" := (bind m (fun _ => k))
  (at level 61, right associativity) : monad_scope.
Local Open Scope monad_scope.

(* ===================================================================== *)
(** ** WorkingSessionService *)
(* ===================================================================== *)

Definition isNull {A} (o : option A) : bool :=
  match o with None => true | Some _ => false end.

(** The messages of the two business errors. *)
Definition AlreadyCheckedIn : exn :=
  Error (js "既にチェックインしています。先にチェックアウトしてください。").
Definition NotCheckedIn : exn :=
  Error (js "チェックインしていません。先にチェックインしてください。").

(** [where: { userId, organizationId, checkoutAt: null }]. *)
Definition isOpenFor (u o : Id) (s : WorkingSession) : bool :=
  ((userId s =? u)%N && (organizationId s =? o)%N && isNull (checkoutAt s))%bool.

(** [prisma.workingSession.findFirst]: the first matching row in table
    order. *)
Definition getActiveSession (u o : Id) : M Db (option WorkingSession) :=
  gets (fun db => find (isOpenFor u o) (workingSessions db)).

(** The rows that the relations [user] and [organization] of a session or
    of a membership point at. *)
Definition findUser (db : Db) (u : Id) : option User :=
  find (fun x => (user_id x =? u)%N) (users db).

Definition findOrganization (db : Db) (o : Id) : option Organization :=
  find (fun x => (org_id x =? o)%N) (organizations db).

(** [prisma.workingSession.create]: [userId] and [organizationId] must be
    the keys of a user and of an organization ([@relation] in the schema),
    or the database refuses the row; the row then gets a fresh key and is
    added to the table.  Text columns are taken to hold any string. *)
Definition prisma_create (at_ : Time) (n : option jsstring) (u o : Id)
  : M Db WorkingSession :=
  fun db =>
    if (isNull (findUser db u) || isNull (findOrganization db o))%bool
    then (Throw (PrismaError ForeignKeyViolation), db)
    else
      let row := mkWorkingSession (nextId db) at_ None n u o in
      (Ok row, with_sessions db (workingSessions db ++ [row]) (N.succ (nextId db))).

(** An [update] whose [where] is the unique key [p]: the rows that [p]
    selects (one at most, when the key is unique) are rewritten by [f] and
    the rewritten row is returned; [None] when [p] selects nothing.  The
    database writes the new version of a row after the rows it did not
    touch, so a later [findMany] without [orderBy] meets the rewritten row
    last. *)
Definition update_where {A} (p : A -> bool) (f : A -> A) (l : list A)
  : option (A * list A) :=
  match filter p l with
  | [] => None
  | r :: _ =>
    Some (f r, filter (fun x => negb (p x)) l ++ map f (filter p l))
  end.

(** [prisma.workingSession.update({ where: { id }, data })]: rewrites the
    row with that key and returns it; throws when there is none. *)
Definition update_row (i : Id) (f : WorkingSession -> WorkingSession)
  (l : list WorkingSession) : option (WorkingSession * list WorkingSession) :=
  update_where (fun r => (id r =? i)%N) f l.

Definition prisma_update (i : Id) (f : WorkingSession -> WorkingSession)
  : M Db WorkingSession :=
  fun db =>
    match update_row i f (workingSessions db) with
    | Some (r, l) => (Ok r, with_sessions db l (nextId db))
    | None => (Throw (PrismaError RecordNotFound), db)
    end.

(** [checkin(userId, organizationId, note?)]; [now] is what [new Date()]
    reads. *)
Definition checkin (u o : Id) (n : option jsstring) (now : Time)
  : M Db WorkingSession :=
  activeSession <- getActiveSession u o ;;
  match activeSession with
  | Some _ => throw AlreadyCheckedIn
  | None => prisma_create now n u o
  end.

(** [checkout(userId, organizationId, note?)]. *)
Definition checkout (u o : Id) (n : option jsstring) (now : Time)
  : M Db WorkingSession :=
  activeSession <- getActiveSession u o ;;
  match activeSession with
  | None => throw NotCheckedIn
  | Some a =>
    prisma_update (id a)
      (fun r => mkWorkingSession (id r) (checkinAt r) (Some now)
                  (js_or n (note a)) (userId r) (organizationId r))
  end.


(** [getAllActiveSessions(organizationId)], with [include: { user: true }]:
    each open session of the organization together with its user (the
    foreign key [userId] resolved in the user table). *)
Definition getAllActiveSessions (o : Id) : M Db (list (WorkingSession * User)) :=
  gets (fun db =>
    flat_map (fun s => match findUser db (userId s) with
                       | Some x => [(s, x)]
                       | None => []
                       end)
      (filter (fun s => (organizationId s =? o)%N && isNull (checkoutAt s))%bool
              (workingSessions db))).

(** [orderBy: { checkinAt: 'asc' }]: rows sorted by start; rows with equal
    starts stay in table order. *)
Fixpoint insert_by_checkin (x : WorkingSession) (l : list WorkingSession)
  : list WorkingSession :=
  match l with
  | [] => [x]
  | y :: t => if checkinAt x <=? checkinAt y then x :: l
              else y :: insert_by_checkin x t
  end.

Definition orderBy_checkinAt_asc (l : list WorkingSession) : list WorkingSession :=
  fold_right insert_by_checkin [] l.

(** [where: { userId, organizationId, checkinAt: { gte, lte } }]. *)
Definition inRange (u o : Id) (startDate endDate : Time) (s : WorkingSession) : bool :=
  ((userId s =? u)%N && (organizationId s =? o)%N
   && (startDate <=? checkinAt s) && (checkinAt s <=? endDate))%bool.

Definition getSessionsByDateRange (u o : Id) (startDate endDate : Time)
  : M Db (list WorkingSession) :=
  gets (fun db =>
    orderBy_checkinAt_asc (filter (inRange u o startDate endDate) (workingSessions db))).

(* ===================================================================== *)
(** ** The [Date] constructor (ECMAScript, Date objects) *)
(* ===================================================================== *)

Definition msPerDay : Z := 86400000.

Definition DayFromYear (y : Z) : Z :=
  365 * (y - 1970) + (y - 1969) / 4 - (y - 1901) / 100 + (y - 1601) / 400.

Definition InLeapYear (y : Z) : bool :=
  ((y mod 4 =? 0) && (negb (y mod 100 =? 0) || (y mod 400 =? 0)))%bool.

(** Days of the year before month [mn] (0 = January). *)
Definition DaysBeforeMonth (leap : bool) (mn : Z) : Z :=
  let l := if leap then 1 else 0 in
  match mn with
  | 0 => 0
  | 1 => 31
  | 2 => 59 + l
  | 3 => 90 + l
  | 4 => 120 + l
  | 5 => 151 + l
  | 6 => 181 + l
  | 7 => 212 + l
  | 8 => 243 + l
  | 9 => 273 + l
  | 10 => 304 + l
  | _ => 334 + l
  end.

Definition MakeDay (year month date : Z) : Z :=
  let ym := year + month / 12 in
  let mn := month mod 12 in
  DayFromYear ym + DaysBeforeMonth (InLeapYear ym) mn + date - 1.

Definition MakeTime (hour min sec ms : Z) : Z :=
  hour * 3600000 + min * 60000 + sec * 1000 + ms.

Definition MakeDate (day time : Z) : Z := day * msPerDay + time.

(** [TimeClip]: [None] is an Invalid Date. *)
Definition TimeClip (t : Z) : option Time :=
  if Z.abs t <=? 8640000000000000 then Some t else None.

(** [new Date(year, month, date, hours, minutes, seconds, ms)] in a zone
    whose local time is UTC plus [tza] milliseconds. *)
Definition newDate (tza : Z) (year month date hours minutes seconds ms : Z)
  : option Time :=
  let yr := if ((0 <=? year) && (year <=? 99))%bool then 1900 + year else year in
  TimeClip (MakeDate (MakeDay yr month date) (MakeTime hours minutes seconds ms) - tza).

(* ===================================================================== *)
(** ** Monthly report *)
(* ===================================================================== *)

Record MonthlyReport := mkMonthlyReport {
  totalWorkingHours : Q;
  sessions : list WorkingSession
}.

(** The body of the [forEach]: a closed session adds its duration in
    hours, an open one adds nothing.  Hours are exact rationals here; the
    source adds IEEE doubles. *)
Definition addHours (total : Q) (s : WorkingSession) : Q :=
  match checkoutAt s with
  | Some out => Qplus total (Qmake (out - checkinAt s) 3600000)
  | None => total
  end.

(** [getMonthlyReport(userId, organizationId, year, month)].  A query with
    an Invalid Date is taken to be refused by the client; [tza] is the
    offset of the local zone. *)
Definition getMonthlyReport (tza : Z) (u o : Id) (year month : Z)
  : M Db MonthlyReport :=
  match newDate tza year (month - 1) 1 0 0 0 0,
        newDate tza year month 0 23 59 59 0 with
  | Some startDate, Some endDate =>
    sessions <- getSessionsByDateRange u o startDate endDate ;;
    ret (mkMonthlyReport (fold_left addHours sessions (0 # 1)%Q) sessions)
  | _, _ => throw (PrismaError InvalidArgument)
  end.

(* ===================================================================== *)
(** ** UserService and OrganizationService *)
(* ===================================================================== *)

Definition opt_eqb (a : option jsstring) (b : jsstring) : bool :=
  match a with
  | Some x => jsstring_eqb x b
  | None => false
  end.

(** [prisma.user.findUnique({ where: { slackUserId } })]. *)
Definition findBySlackUserId (sid : jsstring) : M Db (option User) :=
  gets (fun db => find (fun x => opt_eqb (slackUserId x) sid) (users db)).

(** [prisma.user.findUnique({ where: { chatworkUserId } })]. *)
Definition findByChatworkUserId (cid : jsstring) : M Db (option User) :=
  gets (fun db => find (fun x => opt_eqb (chatworkUserId x) cid) (users db)).

Definition isActive (st : MembershipStatus) : bool :=
  match st with ACTIVE => true | _ => false end.

(** [getUserOrganizations(userId)]: the ACTIVE memberships of the user in
    table order, each mapped to its organization
    ([include: { organization: true }]). *)
Definition getUserOrganizations (u : Id) : M Db (list Organization) :=
  gets (fun db =>
    flat_map (fun m => match findOrganization db (mem_organizationId m) with
                       | Some org => [org]
                       | None => []
                       end)
      (filter (fun m => (mem_userId m =? u)%N && isActive (mem_status m))%bool
              (memberships db))).

(* ===================================================================== *)
(** ** Regular expressions (the fragment used by [parseCommand]) *)
(* ===================================================================== *)

(** Patterns: a code unit, a class ([\s], [.]), sequence, greedy [*] and
    [?], the capture group, and the assertions [^] and [$] (no [m] flag:
    whole input only). *)
Inductive regex :=
| Empty
| Char (c : N)
| Class (p : N -> bool)
| Seq (a b : regex)
| Star (a : regex)
| Opt (a : regex)
| Group (a : regex)
| Bol
| Eol.

(** A match state: the index reached, the input from there on, and the
    capture of group 1. *)
Record mstate := mkState {
  endIndex : nat;
  rest : jsstring;
  capture1 : option jsstring
}.

Fixpoint has_group (r : regex) : bool :=
  match r with
  | Group _ => true
  | Seq a b => has_group a || has_group b
  | Star a | Opt a => has_group a
  | _ => false
  end.

(** The captures inside a quantified atom are reset at each iteration. *)
Definition reset (r : regex) (x : mstate) : mstate :=
  if has_group r then mkState (endIndex x) (rest x) None else x.

Definition orElse {A} (a b : option A) : option A :=
  match a with Some _ => a | None => b end.

(** The loop of a greedy [*]: run the atom once more and continue, or
    else leave the loop.  An iteration that matches the empty string is
    rejected, so the loop runs at most once per remaining code unit and
    [fuel] beyond that length is never used up. *)
Fixpoint repeat_loop (atom : mstate -> (mstate -> option mstate) -> option mstate)
  (k : mstate -> option mstate) (fuel : nat) (x : mstate) {struct fuel}
  : option mstate :=
  match fuel with
  | O => k x
  | S fuel' =>
    orElse (atom x (fun y => if (endIndex y =? endIndex x)%nat then None
                             else repeat_loop atom k fuel' y))
           (k x)
  end.

(** The backtracking matcher, in continuation-passing style as in the
    ECMAScript specification. *)
Fixpoint m (r : regex) (x : mstate) (k : mstate -> option mstate) {struct r}
  : option mstate :=
  match r with
  | Empty => k x
  | Char c =>
    match rest x with
    | c' :: t => if (c =? c')%N then k (mkState (S (endIndex x)) t (capture1 x)) else None
    | [] => None
    end
  | Class p =>
    match rest x with
    | c' :: t => if p c' then k (mkState (S (endIndex x)) t (capture1 x)) else None
    | [] => None
    end
  | Seq a b => m a x (fun y => m b y k)
  | Star a =>
    repeat_loop (fun x' k' => m a (reset a x') k') k (S (List.length (rest x))) x
  | Opt a =>
    orElse (m a (reset a x)
              (fun y => if (endIndex y =? endIndex x)%nat then None else k y))
           (k x)
  | Group a =>
    m a x (fun y =>
      k (mkState (endIndex y) (rest y)
           (Some (firstn (endIndex y - endIndex x) (rest x)))))
  | Bol => if (endIndex x =? 0)%nat then k x else None
  | Eol => match rest x with [] => k x | _ :: _ => None end
  end.

(** [RegExp.prototype.exec] without the [g] flag: the first start index
    at which the pattern matches. *)
Fixpoint exec_from (r : regex) (i : nat) (s : jsstring) : option mstate :=
  match m r (mkState i s None) (fun y => Some y) with
  | Some y => Some y
  | None => match s with
            | [] => None
            | _ :: t => exec_from r (S i) t
            end
  end.

(** [body.match(regex)], reduced to what the caller reads: [None] when
    there is no match, otherwise [match[1]]. *)
Definition regex_match (s : jsstring) (r : regex) : option (option jsstring) :=
  option_map capture1 (exec_from r 0 s).

Definition lit (s : jsstring) : regex :=
  fold_right (fun c r => Seq (Char c) r) Empty s.

Definition dot (c : N) : bool := negb (isLineTerminator c).

(** The pattern [^ /NAME \s* ( .* )? $] of checkin, checkout and vacation. *)
Definition re_with_param (nm : string) : regex :=
  Seq Bol (Seq (lit (js nm))
    (Seq (Star (Class isSpace)) (Seq (Opt (Group (Star (Class dot)))) Eol))).

(** The pattern [^ /NAME $] of status. *)
Definition re_bare (nm : string) : regex :=
  Seq Bol (Seq (lit (js nm)) Eol).

(* ===================================================================== *)
(** ** ChatworkWebhookHandler.parseCommand *)
(* ===================================================================== *)

Record Command := mkCommand {
  name : jsstring;
  param : option jsstring
}.

Definition commands : list (jsstring * regex) :=
  [ (js "checkin", re_with_param "/checkin");
    (js "checkout", re_with_param "/checkout");
    (js "status", re_bare "/status");
    (js "vacation", re_with_param "/vacation") ].

Fixpoint first_match (cmds : list (jsstring * regex)) (body : jsstring)
  : option Command :=
  match cmds with
  | [] => None
  | (nm, re) :: t =>
    match regex_match body re with
    | Some cap => Some (mkCommand nm (option_map trim cap))
    | None => first_match t body
    end
  end.

Definition parseCommand (body : jsstring) : option Command :=
  first_match commands body.

(* ===================================================================== *)
(** ** The adapters: effects *)
(* ===================================================================== *)

Inductive JsonBody :=
| JsonError (text : jsstring)
| JsonStatus (text : jsstring).

(** What a handler does to the outside world, in order. *)
Inductive Event :=
| Ack
| Respond (text : jsstring)
| AxiosPost (url body token : jsstring)
| ConsoleError
| HttpResponse (status : Z) (json : JsonBody).

Record World := mkWorld {
  db : Db;
  log : list Event
}.

Definition liftDb {A} (c : M Db A) : M World A :=
  fun w => let (r, d) := c (db w) in (r, mkWorld d (log w)).

Definition emit (e : Event) : M World unit :=
  modify (fun w => mkWorld (db w) (log w ++ [e])).

Definition respond (text : jsstring) : M World unit := emit (Respond text).

Definition newline : jsstring := [10%N].

Definition msgRegistrationRequired : jsstring :=
  js "ユーザー登録が必要です。管理者に連絡してください。".
Definition msgNoOrganization : jsstring :=
  js "所属組織が見つかりません。管理者に連絡してください。".
Definition msgNobodyWorking : jsstring :=
  js "現在稼働中のメンバーはいません。".
Definition msgVacation : jsstring :=
  js "休暇申請機能は近日公開予定です。".
Definition msgCalcError : jsstring := js "計算エラー".
Definition errorPrefix : jsstring := js "エラーが発生しました: ".

(** The suffix that echoes a note: empty for a falsy one. *)
Definition noteSuffix (n : option jsstring) : jsstring :=
  match n with
  | Some (c :: t) => newline ++ js "> " ++ (c :: t)
  | _ => []
  end.

Definition showNat (n : nat) : jsstring :=
  js (NilEmpty.string_of_uint (Nat.to_uint n)).

Section Adapters.

(** Library behaviour the sources rely on and do not define:
    [Number.prototype.toFixed(2)] of a duration in hours (given here by
    its milliseconds), [Date.prototype.toLocaleString] with the
    hour-and-minute options, the message of a Prisma client error, and
    whether an HTTP post returns or throws. *)
Variable hoursToFixed2 : Z -> jsstring.
Variable toLocaleTime : Time -> jsstring.
Variable prismaMessage : PrismaCode -> jsstring.
Variable axiosPost : jsstring -> jsstring -> jsstring -> outcome unit.

(** [error instanceof Error ? error.message : ...]: every exception of
    the model is an [Error]. *)
Definition errorMessage (e : exn) : jsstring :=
  match e with
  | Error msg => msg
  | PrismaError c => prismaMessage c
  end.

Definition errorText (e : exn) : jsstring := errorPrefix ++ errorMessage e.

(** [hours ? hours.toFixed(2) : '計算エラー'], where [hours] is
    [session.checkoutAt && (checkoutAt - checkinAt) / 3600000]. *)
Definition hoursText (s : WorkingSession) : jsstring :=
  match checkoutAt s with
  | None => msgCalcError
  | Some out =>
    if out - checkinAt s =? 0 then msgCalcError
    else hoursToFixed2 (out - checkinAt s)
  end.

Definition checkoutSuffix (n : option jsstring) (s : WorkingSession) : jsstring :=
  js " さんがチェックアウトしました！" ++ noteSuffix n
    ++ newline ++ js "稼働時間: " ++ hoursText s ++ js " 時間".

(** The roster: a header with the head count, then a line per open
    session. *)
Definition rosterLine (mention : jsstring) (r : WorkingSession * User) : jsstring :=
  js "• " ++ mention ++ user_name (snd r) ++ js " (開始: "
    ++ toLocaleTime (checkinAt (fst r)) ++ js ")"
    ++ match note (fst r) with
       | Some (c :: t) => js " - " ++ (c :: t)
       | _ => []
       end
    ++ newline.

Definition rosterMessage (mention : jsstring) (l : list (WorkingSession * User))
  : jsstring :=
  fold_left (fun message r => message ++ rosterLine mention r) l
    (js "現在稼働中のメンバー (" ++ showNat (List.length l) ++ js "人):" ++ newline).

(* ------------------------------------------------------------------- *)
(** *** SlackCommandHandler *)
(* ------------------------------------------------------------------- *)

Record SlashCommand := mkSlashCommand {
  cmd_user_id : jsstring;
  cmd_user_name : jsstring;
  cmd_text : jsstring
}.

(** [command.text ? command.text.trim() : undefined]. *)
Definition slackNote (command : SlashCommand) : option jsstring :=
  match cmd_text command with
  | [] => None
  | t => Some (trim t)
  end.

Definition slackCheckin (command : SlashCommand) (now : Time) : M World unit :=
  emit Ack ;;;
  try_catch
    (user <- liftDb (findBySlackUserId (cmd_user_id command)) ;;
     match user with
     | None => respond msgRegistrationRequired
     | Some user =>
       organizations <- liftDb (getUserOrganizations (user_id user)) ;;
       match organizations with
       | [] => respond msgNoOrganization
       | organization :: _ =>
         let n := slackNote command in
         liftDb (checkin (user_id user) (org_id organization) n now) ;;;
         respond (js "@" ++ cmd_user_name command
                  ++ js " さんがチェックインしました！" ++ noteSuffix n)
       end
     end)
    (fun error => respond (errorText error)).

Definition slackCheckout (command : SlashCommand) (now : Time) : M World unit :=
  emit Ack ;;;
  try_catch
    (user <- liftDb (findBySlackUserId (cmd_user_id command)) ;;
     match user with
     | None => respond msgRegistrationRequired
     | Some user =>
       organizations <- liftDb (getUserOrganizations (user_id user)) ;;
       match organizations with
       | [] => respond msgNoOrganization
       | organization :: _ =>
         let n := slackNote command in
         session <- liftDb (checkout (user_id user) (org_id organization) n now) ;;
         respond (js "@" ++ cmd_user_name command ++ checkoutSuffix n session)
       end
     end)
    (fun error => respond (errorText error)).

Definition slackStatus (command : SlashCommand) : M World unit :=
  emit Ack ;;;
  try_catch
    (user <- liftDb (findBySlackUserId (cmd_user_id command)) ;;
     match user with
     | None => respond msgRegistrationRequired
     | Some user =>
       organizations <- liftDb (getUserOrganizations (user_id user)) ;;
       match organizations with
       | [] => respond msgNoOrganization
       | organization :: _ =>
         activeSessions <- liftDb (getAllActiveSessions (org_id organization)) ;;
         match activeSessions with
         | [] => respond msgNobodyWorking
         | _ => respond (rosterMessage (js "@") activeSessions)
         end
       end
     end)
    (fun error => respond (errorText error)).

Definition slackVacation (command : SlashCommand) : M World unit :=
  emit Ack ;;;
  respond msgVacation.

(* ------------------------------------------------------------------- *)
(** *** ChatworkWebhookHandler *)
(* ------------------------------------------------------------------- *)

Record ChatworkConfig := mkChatworkConfig {
  apiToken : jsstring;
  webhookToken : jsstring
}.

Record WebhookEvent := mkWebhookEvent {
  room_id : jsstring;
  message_id : jsstring;
  account_id : jsstring;
  body : jsstring
}.

Record Request := mkRequest {
  tokenHeader : option jsstring;
  webhook_event_type : jsstring;
  webhook_event : WebhookEvent
}.

Definition handleCheckinCommand (chatworkUser : jsstring) (n : option jsstring)
  (now : Time) : M World jsstring :=
  try_catch
    (user <- liftDb (findByChatworkUserId chatworkUser) ;;
     match user with
     | None => ret msgRegistrationRequired
     | Some user =>
       organizations <- liftDb (getUserOrganizations (user_id user)) ;;
       match organizations with
       | [] => ret msgNoOrganization
       | organization :: _ =>
         liftDb (checkin (user_id user) (org_id organization) n now) ;;;
         ret (user_name user ++ js " さんがチェックインしました！" ++ noteSuffix n)
       end
     end)
    (fun error => ret (errorText error)).

Definition handleCheckoutCommand (chatworkUser : jsstring) (n : option jsstring)
  (now : Time) : M World jsstring :=
  try_catch
    (user <- liftDb (findByChatworkUserId chatworkUser) ;;
     match user with
     | None => ret msgRegistrationRequired
     | Some user =>
       organizations <- liftDb (getUserOrganizations (user_id user)) ;;
       match organizations with
       | [] => ret msgNoOrganization
       | organization :: _ =>
         session <- liftDb (checkout (user_id user) (org_id organization) n now) ;;
         ret (user_name user ++ checkoutSuffix n session)
       end
     end)
    (fun error => ret (errorText error)).

Definition handleStatusCommand (chatworkUser : jsstring) : M World jsstring :=
  try_catch
    (user <- liftDb (findByChatworkUserId chatworkUser) ;;
     match user with
     | None => ret msgRegistrationRequired
     | Some user =>
       organizations <- liftDb (getUserOrganizations (user_id user)) ;;
       match organizations with
       | [] => ret msgNoOrganization
       | organization :: _ =>
         activeSessions <- liftDb (getAllActiveSessions (org_id organization)) ;;
         match activeSessions with
         | [] => ret msgNobodyWorking
         | _ => ret (rosterMessage [] activeSessions)
         end
       end
     end)
    (fun error => ret (errorText error)).

Definition handleVacationCommand (chatworkUser : jsstring) (p : option jsstring)
  : M World jsstring :=
  ret msgVacation.

(** [sendChatworkMessage]: a failed post is logged and swallowed. *)
Definition sendChatworkMessage (cfg : ChatworkConfig) (roomId message : jsstring)
  : M World unit :=
  let url := js "https://api.chatwork.com/v2/rooms/" ++ roomId ++ js "/messages" in
  try_catch
    (emit (AxiosPost url message (apiToken cfg)) ;;;
     (fun w => (axiosPost url message (apiToken cfg), w)))
    (fun error => emit ConsoleError).

(** The [switch (command.name)]. *)
Definition dispatch (c : Command) (account : jsstring) (now : Time)
  : M World jsstring :=
  if jsstring_eqb (name c) (js "checkin") then
    handleCheckinCommand account (param c) now
  else if jsstring_eqb (name c) (js "checkout") then
    handleCheckoutCommand account (param c) now
  else if jsstring_eqb (name c) (js "status") then
    handleStatusCommand account
  else if jsstring_eqb (name c) (js "vacation") then
    handleVacationCommand account (param c)
  else ret [].

Definition handleWebhook (cfg : ChatworkConfig) (req : Request) (now : Time)
  : M World unit :=
  try_catch
    (if negb (opt_eqb (tokenHeader req) (webhookToken cfg)) then
       emit (HttpResponse 401 (JsonError (js "Unauthorized")))
     else if negb (jsstring_eqb (webhook_event_type req) (js "message_created")) then
       emit (HttpResponse 200 (JsonStatus (js "ignored")))
     else
       match parseCommand (body (webhook_event req)) with
       | None => emit (HttpResponse 200 (JsonStatus (js "ignored")))
       | Some command =>
         response <- dispatch command (account_id (webhook_event req)) now ;;
         match response with
         | [] => ret tt
         | _ => sendChatworkMessage cfg (room_id (webhook_event req)) response
         end ;;;
         emit (HttpResponse 200 (JsonStatus (js "success")))
       end)
    (fun error =>
       emit ConsoleError ;;;
       emit (HttpResponse 500 (JsonError (js "Internal server error")))).

End Adapters.


(* ===================================================================== *)
(** ** Writes under the constraints of the schema *)
(* ===================================================================== *)

(** What a write of the Prisma client can fail with: a known request
    error, or one of the two constraint failures of the database
    ([@unique] / [@@unique], and [@relation] foreign keys). *)
Inductive WriteError :=
| Known (c : PrismaCode)
| UniqueConstraintFailed
| ForeignKeyConstraintFailed.

Inductive result (A : Type) :=
| Done (a : A)
| Failed (e : WriteError).
Arguments Done {A} a.
Arguments Failed {A} e.

(** A service call on the database: returns or fails, and leaves a
    database behind. *)
Definition W (A : Type) := Db -> result A * Db.

Definition wret {A} (a : A) : W A := fun d => (Done a, d).
Definition wbind {A B} (c : W A) (f : A -> W B) : W B :=
  fun d => match c d with
           | (Done a, d') => f a d'
           | (Failed e, d') => (Failed e, d')
           end.
Definition wgets {A} (f : Db -> A) : W A := fun d => (Done (f d), d).

(** [prisma.$transaction]: a failure inside rolls the database back. *)
Definition transaction {A} (c : W A) : W A :=
  fun d => match c d with
           | (Done a, d') => (Done a, d')
           | (Failed e, _) => (Failed e, d)
           end.

Notation "x <-- m ;; k" := (wbind m (fun x => k))
  (at level 61, m at next level, right associativity) : monad_scope.

Definition with_users (d : Db) (l : list User) (n : Id) : Db :=
  mkDb l (organizations d) (memberships d) (workingSessions d) n.
Definition with_organizations (d : Db) (l : list Organization) (n : Id) : Db :=
  mkDb (users d) l (memberships d) (workingSessions d) n.
Definition with_memberships (d : Db) (l : list Membership) (n : Id) : Db :=
  mkDb (users d) (organizations d) l (workingSessions d) n.

(** A nullable unique column: [null] never clashes. *)
Definition taken (col : User -> option jsstring) (v : option jsstring) (d : Db)
  : bool :=
  match v with
  | Some x => existsb (fun u => opt_eqb (col u) x) (users d)
  | None => false
  end.

(** [prisma.user.create]: [email], [slackUserId] and [chatworkUserId] are
    unique. *)
Definition prisma_user_create (nm email : jsstring) (slack chatwork : option jsstring)
  : W User :=
  fun d =>
    if (existsb (fun u => jsstring_eqb (user_email u) email) (users d)
        || taken slackUserId slack d || taken chatworkUserId chatwork d)%bool
    then (Failed UniqueConstraintFailed, d)
    else
      let row := mkUser (nextId d) nm email slack chatwork in
      (Done row, with_users d (users d ++ [row]) (N.succ (nextId d))).

(** [prisma.organization.create]: [slug] is unique. *)
Definition prisma_organization_create (nm slug : jsstring) : W Organization :=
  fun d =>
    if existsb (fun o => jsstring_eqb (org_slug o) slug) (organizations d)
    then (Failed UniqueConstraintFailed, d)
    else
      let row := mkOrganization (nextId d) nm slug in
      (Done row, with_organizations d (organizations d ++ [row]) (N.succ (nextId d))).

Definition isPair (u o : Id) (m : Membership) : bool :=
  ((mem_userId m =? u)%N && (mem_organizationId m =? o)%N)%bool.

(** [prisma.membership.create]: the pair (user, organization) is unique,
    and both ends of the relation must exist. *)
Definition prisma_membership_create (u o : Id) (r : Role) (st : MembershipStatus)
  : W Membership :=
  fun d =>
    if existsb (isPair u o) (memberships d)
    then (Failed UniqueConstraintFailed, d)
    else if (isNull (findUser d u) || isNull (findOrganization d o))%bool
    then (Failed ForeignKeyConstraintFailed, d)
    else
      let row := mkMembership (nextId d) u o r st in
      (Done row, with_memberships d (memberships d ++ [row]) (N.succ (nextId d))).

(** [prisma.membership.update]: the row selected by [p] (a unique key)
    rewritten; fails when there is none. *)
Definition prisma_membership_update (p : Membership -> bool)
  (f : Membership -> Membership) : W Membership :=
  fun d =>
    match update_where p f (memberships d) with
    | Some (r, l) => (Done r, with_memberships d l (nextId d))
    | None => (Failed (Known RecordNotFound), d)
    end.

Definition set_status (st : MembershipStatus) (m : Membership) : Membership :=
  mkMembership (mem_id m) (mem_userId m) (mem_organizationId m) (mem_role m) st.

(* ===================================================================== *)
(** ** UserService, the remaining methods *)
(* ===================================================================== *)

(** [createUser(name, email, slackUserId?, chatworkUserId?)]. *)
Definition createUser (nm email : jsstring) (slack chatwork : option jsstring)
  : W User :=
  prisma_user_create nm email slack chatwork.

(** [findByEmail(email)]. *)
Definition findByEmail (email : jsstring) : W (option User) :=
  wgets (fun d => find (fun x => jsstring_eqb (user_email x) email) (users d)).

(** [inviteUserToOrganization(userId, organizationId, role = Role.MEMBER)]. *)
Definition inviteUserToOrganization (u o : Id) (role : option Role) : W Membership :=
  prisma_membership_create u o
    (match role with Some r => r | None => MEMBER end) INVITED.

(** [acceptInvitation(membershipId)]. *)
Definition acceptInvitation (membershipId : Id) : W Membership :=
  prisma_membership_update (fun m => (mem_id m =? membershipId)%N)
    (set_status ACTIVE).

(** [getUserMemberships(userId)], with [include: { organization: true }]. *)
Definition getUserMemberships (u : Id) : W (list (Membership * Organization)) :=
  wgets (fun d =>
    flat_map (fun m => match findOrganization d (mem_organizationId m) with
                       | Some org => [(m, org)]
                       | None => []
                       end)
      (filter (fun m => (mem_userId m =? u)%N && isActive (mem_status m))%bool
              (memberships d))).

(** [isUserMemberOfOrganization(userId, organizationId)]. *)
Definition isUserMemberOfOrganization (u o : Id) : W bool :=
  wgets (fun d =>
    match find (isPair u o) (memberships d) with
    | Some membership => isActive (mem_status membership)
    | None => false
    end).

(* ===================================================================== *)
(** ** OrganizationService, the remaining methods *)
(* ===================================================================== *)

(** [createOrganization(name, slug, creatorUserId)]: the organization and
    the OWNER membership of its creator, in one transaction.  The
    membership gets the default status of the schema, ACTIVE. *)
Definition createOrganization (nm slug : jsstring) (creatorUserId : Id)
  : W Organization :=
  transaction
    (organization <-- prisma_organization_create nm slug ;;
     _ <-- prisma_membership_create creatorUserId (org_id organization)
             OWNER ACTIVE ;;
     wret organization).

(** [findBySlug(slug)] and [findById(id)]. *)
Definition findBySlug (slug : jsstring) : W (option Organization) :=
  wgets (fun d => find (fun x => jsstring_eqb (org_slug x) slug) (organizations d)).

Definition findById (i : Id) : W (option Organization) :=
  wgets (fun d => findOrganization d i).

(** [updateOrganization(id, data)] with [data: { name?, slug? }]: the
    fields given are written; the new slug must not be the slug of
    another organization.  With no field given there is nothing to write
    and the row is only read. *)
Definition patch_organization (nm slug : option jsstring) (o : Organization)
  : Organization :=
  mkOrganization (org_id o)
    (match nm with Some x => x | None => org_name o end)
    (match slug with Some x => x | None => org_slug o end).

Definition updateOrganization (i : Id) (nm slug : option jsstring) : W Organization :=
  fun d =>
    match findOrganization d i with
    | None => (Failed (Known RecordNotFound), d)
    | Some found =>
      match nm, slug with
      | None, None => (Done found, d)
      | _, _ =>
        if match slug with
           | Some s =>
             existsb (fun o => negb (org_id o =? i)%N && jsstring_eqb (org_slug o) s)%bool
               (organizations d)
           | None => false
           end
        then (Failed UniqueConstraintFailed, d)
        else
          match update_where (fun o => (org_id o =? i)%N) (patch_organization nm slug)
                  (organizations d) with
          | Some (r, l) => (Done r, with_organizations d l (nextId d))
          | None => (Failed (Known RecordNotFound), d)
          end
      end
    end.

(** [getOrganizationMembers(organizationId)] and
    [getActiveOrganizationMembers(organizationId)], with
    [include: { user: true }]. *)
Definition withUser (d : Db) (m : Membership) : list (Membership * User) :=
  match findUser d (mem_userId m) with
  | Some x => [(m, x)]
  | None => []
  end.

Definition getOrganizationMembers (o : Id) : W (list (Membership * User)) :=
  wgets (fun d =>
    flat_map (withUser d)
      (filter (fun m => (mem_organizationId m =? o)%N) (memberships d))).

Definition getActiveOrganizationMembers (o : Id) : W (list (Membership * User)) :=
  wgets (fun d =>
    flat_map (withUser d)
      (filter (fun m => (mem_organizationId m =? o)%N && isActive (mem_status m))%bool
              (memberships d))).


(** [removeUserFromOrganization(organizationId, userId)]: the membership
    stays, with status LEFT. *)
Definition removeUserFromOrganization (o u : Id) : W unit :=
  _ <-- prisma_membership_update (isPair u o) (set_status LEFT) ;;
  wret tt.

(* ===================================================================== *)
(** ** Reading a [Date] (ECMAScript, Date objects) *)
(* ===================================================================== *)

Definition Day (t : Z) : Z := t / msPerDay.

(** [YearFromTime]: the largest year that has begun by the day.  The year
    is at most one away from the estimate by the mean length of a
    year. *)
Definition YearFromDay (day : Z) : Z :=
  let e := 1970 + (400 * day) / 146097 in
  if DayFromYear (e + 1) <=? day then e + 1
  else if DayFromYear e <=? day then e
  else e - 1.

Definition YearFromTime (t : Z) : Z := YearFromDay (Day t).

Definition DayWithinYear (t : Z) : Z := Day t - DayFromYear (YearFromTime t).

Definition MonthFromTime (t : Z) : Z :=
  let d := DayWithinYear t in
  let l := if InLeapYear (YearFromTime t) then 1 else 0 in
  if d <? 31 then 0
  else if d <? 59 + l then 1
  else if d <? 90 + l then 2
  else if d <? 120 + l then 3
  else if d <? 151 + l then 4
  else if d <? 181 + l then 5
  else if d <? 212 + l then 6
  else if d <? 243 + l then 7
  else if d <? 273 + l then 8
  else if d <? 304 + l then 9
  else if d <? 334 + l then 10
  else 11.

Definition DateFromTime (t : Z) : Z :=
  DayWithinYear t
  - DaysBeforeMonth (InLeapYear (YearFromTime t)) (MonthFromTime t) + 1.

(** [getFullYear], [getMonth] and [getDate] read the local time. *)
Definition LocalTime (tza t : Z) : Z := t + tza.
Definition getFullYear (tza t : Z) : Z := YearFromTime (LocalTime tza t).
Definition getMonth (tza t : Z) : Z := MonthFromTime (LocalTime tza t).
Definition getDate (tza t : Z) : Z := DateFromTime (LocalTime tza t).

(** [Number.prototype.toString] on an integer, and
    [String.prototype.padStart(2, '0')]. *)
Definition showZ (z : Z) : jsstring := js (NilEmpty.string_of_int (Z.to_int z)).

Definition padStart2 (s : jsstring) : jsstring :=
  repeat 48%N (2 - List.length s) ++ s.

(* ===================================================================== *)
(** ** GoogleCalendarService.formatDate *)
(* ===================================================================== *)

(** [formatDate(date)]; [None] is an Invalid Date, whose parts are all
    [NaN]. *)
Definition formatDate (tza : Z) (date : option Time) : jsstring :=
  match date with
  | None => js "NaN-NaN-NaN"
  | Some t =>
    let year := showZ (getFullYear tza t) in
    let month := padStart2 (showZ (getMonth tza t + 1)) in
    let day := padStart2 (showZ (getDate tza t)) in
    year ++ js "-" ++ month ++ js "-" ++ day
  end.

(* ===================================================================== *)
(** * Definitions used to state the properties *)
(* ===================================================================== *)

(** ** Invariants of the session table *)

Definition openCount (u o : Id) (l : list WorkingSession) : nat :=
  List.length (filter (isOpenFor u o) l).

(** The open-session invariant: at most one open session per pair. *)
Definition open_invariant (d : Db) : Prop :=
  forall u o, (openCount u o (workingSessions d) <= 1)%nat.

(** The primary key of the session table: keys are distinct and below the
    next key to be handed out. *)
Definition keys_ok (d : Db) : Prop :=
  NoDup (map id (workingSessions d))
  /\ Forall (fun r => (id r < nextId d)%N) (workingSessions d).

Definition hasOpen (u o : Id) (d : Db) : Prop :=
  exists s, In s (workingSessions d) /\ isOpenFor u o s = true.

(** The closing rewrite applied by [checkout]. *)
Definition close_with (a : WorkingSession) (n : option jsstring) (now : Time)
  (r : WorkingSession) : WorkingSession :=
  mkWorkingSession (id r) (checkinAt r) (Some now) (js_or n (note a))
    (userId r) (organizationId r).

(** Engine operations, for runs. *)
Inductive EngineOp :=
| OpCheckin (u o : Id) (n : option jsstring) (now : Time)
| OpCheckout (u o : Id) (n : option jsstring) (now : Time).

Definition exec (op : EngineOp) : M Db WorkingSession :=
  match op with
  | OpCheckin u o n now => checkin u o n now
  | OpCheckout u o n now => checkout u o n now
  end.

Definition step (d : Db) (op : EngineOp) : Db := snd (exec op d).

Definition run (ops : list EngineOp) (d : Db) : Db := fold_left step ops d.

Definition emptyDb : Db := mkDb [] [] [] [] 0.


(** The rewrite of the table made by a checkout that closes [a] into [r]:
    [r] takes the place of [a], after the rows that were not touched. *)
Definition replace_row (a r : WorkingSession) (l : list WorkingSession)
  : list WorkingSession :=
  filter (fun x => negb (id x =? id a)%N) l ++ [r].

(** Ascending order of start times. *)
Definition start_le (a b : WorkingSession) : Prop := checkinAt a <= checkinAt b.

(** Sample rows and tables: two users and one organization; in
    [sampleDb] the first user has an open session. *)
Definition mio : User := mkUser 1 (js "Mio") (js "mio@example.com") None None.
Definition kai : User := mkUser 2 (js "Kai") (js "kai@example.com") None None.
Definition studio : Organization := mkOrganization 1 (js "Studio") (js "studio").
Definition officeDb : Db := mkDb [mio; kai] [studio] [] [] 0.
Definition sampleOpen : WorkingSession :=
  mkWorkingSession 0 1000 None (Some (js "office")) 1 1.
Definition sampleDb : Db := mkDb [mio; kai] [studio] [] [sampleOpen] 1.

(** The month window in the words of the specification: from the first
    instant of day 1 to the last instant (the last millisecond) of the
    last day of the month. *)
Definition spec_month_start (tza year month : Z) : option Time :=
  newDate tza year (month - 1) 1 0 0 0 0.
Definition spec_month_end (tza year month : Z) : option Time :=
  newDate tza year month 0 23 59 59 999.

(** Duration of a session in hours; an open session counts for nothing. *)
Definition hoursOf (s : WorkingSession) : Q :=
  match checkoutAt s with
  | Some out => Qmake (out - checkinAt s) 3600000
  | None => 0%Q
  end.

Definition sumHours (l : list WorkingSession) : Q :=
  fold_right (fun s acc => Qplus (hoursOf s) acc) 0%Q l.

Definition isClosed (s : WorkingSession) : bool := negb (isNull (checkoutAt s)).

(** A table with two sessions of user 1 in organization 1 on 31 January
    2024 (UTC): one starting at 23:59:59.000, one at 23:59:59.500, each
    closed an hour later. *)
Definition onTheSecond : WorkingSession :=
  mkWorkingSession 0 1706745599000 (Some 1706749199000) None 1 1.
Definition lateSession : WorkingSession :=
  mkWorkingSession 1 1706745599500 (Some 1706749199500) None 1 1.
Definition lateDb : Db := mkDb [mio; kai] [studio] [] [onTheSecond; lateSession] 2.

(** [strip_prefix p s]: what follows [p] in [s], when [s] begins with [p]. *)
Fixpoint strip_prefix (p s : jsstring) : option jsstring :=
  match p with
  | [] => Some s
  | c :: p' =>
    match s with
    | c' :: s' => if (c =? c')%N then strip_prefix p' s' else None
    | [] => None
    end
  end.

(** A greedy run over a class, longest first, giving way code unit by
    code unit while the continuation fails. *)
Fixpoint greedy (p : N -> bool) (k : mstate -> option mstate) (i : nat)
  (s : jsstring) (c : option jsstring) : option mstate :=
  match s with
  | ch :: t =>
    if p ch then orElse (greedy p k (S i) t c) (k (mkState i s c))
    else k (mkState i s c)
  | [] => k (mkState i [] c)
  end.

(** What follows the command token: leading white space is skipped; the
    remainder must stay on one line and is the capture, unless it is
    empty, in which case there is no capture. *)
Definition param_after (rest : jsstring) : option (option jsstring) :=
  match trimStart rest with
  | [] => Some None
  | s => if forallb dot s then Some (Some s) else None
  end.

Definition match_with_param (nm : string) (body : jsstring)
  : option (option jsstring) :=
  match strip_prefix (js nm) body with
  | Some rest => param_after rest
  | None => None
  end.

Definition match_bare (nm : string) (body : jsstring) : option (option jsstring) :=
  match strip_prefix (js nm) body with
  | Some [] => Some None
  | _ => None
  end.

(** The tail of the patterns with a parameter: the optional group, then
    the end of the input. *)
Definition tail_re : regex := Seq (Opt (Group (Star (Class dot)))) Eol.

(** Replies of the adapters, as functions of what the engine returned. *)
Section Replies.

Variable hoursToFixed2 : Z -> jsstring.
Variable toLocaleTime : Time -> jsstring.
Variable prismaMessage : PrismaCode -> jsstring.

Definition checkinReply (who : jsstring) (n : option jsstring)
  (r : outcome WorkingSession) : jsstring :=
  match r with
  | Ok _ => who ++ js " さんがチェックインしました！" ++ noteSuffix n
  | Throw e => errorText prismaMessage e
  end.

Definition checkoutReply (who : jsstring) (n : option jsstring)
  (r : outcome WorkingSession) : jsstring :=
  match r with
  | Ok s => who ++ checkoutSuffix hoursToFixed2 n s
  | Throw e => errorText prismaMessage e
  end.

Definition statusReply (mention : jsstring)
  (r : outcome (list (WorkingSession * User))) : jsstring :=
  match r with
  | Ok [] => msgNobodyWorking
  | Ok l => rosterMessage toLocaleTime mention l
  | Throw e => errorText prismaMessage e
  end.

End Replies.

(** What a Chatwork webhook leaves in the log when it answers [text] to a
    room: the post, an error line when the post failed, and the HTTP
    answer 200. *)
Definition chatworkAnswer (axiosPost : jsstring -> jsstring -> jsstring -> outcome unit)
  (token roomId text : jsstring) : list Event :=
  let url := js "https://api.chatwork.com/v2/rooms/" ++ roomId ++ js "/messages" in
  [AxiosPost url text token]
  ++ match axiosPost url text token with
     | Ok _ => []
     | Throw _ => [ConsoleError]
     end
  ++ [HttpResponse 200 (JsonStatus (js "success"))].

(** A sample world: Aoi belongs to two organizations and has an open
    session in the first one. *)
Definition aoi : User :=
  mkUser 1 (js "Aoi") (js "aoi@example.com") (Some (js "U01")) (Some (js "4242")).
Definition acme : Organization := mkOrganization 10 (js "Acme") (js "acme").
Definition beta : Organization := mkOrganization 11 (js "Beta") (js "beta").
Definition aoiOpen : WorkingSession :=
  mkWorkingSession 0 1000 None (Some (js "office")) 1 10.
Definition sampleWorld : World :=
  mkWorld
    (mkDb [aoi] [acme; beta]
       [mkMembership 100 1 10 MEMBER ACTIVE; mkMembership 101 1 11 OWNER ACTIVE]
       [aoiOpen] 1)
    [].
Definition sampleCommand : SlashCommand :=
  mkSlashCommand (js "U01") (js "aoi") (js " back again ").
Definition sampleConfig : ChatworkConfig := mkChatworkConfig (js "api") (js "hook").
Definition sampleRequest (text : jsstring) : Request :=
  mkRequest (Some (js "hook")) (js "message_created")
    (mkWebhookEvent (js "77") (js "9") (js "4242") text).

(** The sessions outside organization [o] are the same in [d'] as in [d]. *)
Definition elsewhere (o : Id) (s : WorkingSession) : bool :=
  negb (organizationId s =? o)%N.

Definition others_untouched (o : Id) (d d' : Db) : Prop :=
  filter (elsewhere o) (workingSessions d') = filter (elsewhere o) (workingSessions d).

(** A computation that leaves the log of effects alone. *)
Definition silent {A : Type} (c : M World A) : Prop :=
  forall w, log (snd (c w)) = log w.

(** The sample world with nobody checked in. *)
Definition idleWorld : World :=
  mkWorld
    (mkDb [aoi] [acme; beta]
       [mkMembership 100 1 10 MEMBER ACTIVE; mkMembership 101 1 11 OWNER ACTIVE]
       [] 0)
    [].

(** Stand-ins for the library behaviour, for concrete runs. *)
Definition plainHours (ms : Z) : jsstring := js "h".
Definition plainTime (t : Time) : jsstring := js "hh:mm".
Definition plainPrisma (c : PrismaCode) : jsstring := js "prisma".
Definition postOk (url text token : jsstring) : outcome unit := Ok tt.

(** Time stamps under a clock that does not go back: every session has
    started by [t], and every closed session ends no earlier than it
    starts. *)
Definition started_by (t : Time) (d : Db) : Prop :=
  Forall (fun r => checkinAt r <= t) (workingSessions d).

Definition well_timed (d : Db) : Prop :=
  Forall (fun r => forall e, checkoutAt r = Some e -> checkinAt r <= e)
    (workingSessions d).

Definition op_time (op : EngineOp) : Time :=
  match op with
  | OpCheckin _ _ _ now => now
  | OpCheckout _ _ _ now => now
  end.

Fixpoint times_ascend (t : Time) (ops : list EngineOp) : Prop :=
  match ops with
  | [] => True
  | op :: rest => t <= op_time op /\ times_ascend (op_time op) rest
  end.


(** ** Integrity of the user, organization and membership tables *)

(** Platform identities and e-mail addresses name at most one user. *)
Definition identities_unique (d : Db) : Prop :=
  NoDup (map user_email (users d))
  /\ (forall x y s, In x (users d) -> In y (users d) ->
                    slackUserId x = Some s -> slackUserId y = Some s -> x = y)
  /\ (forall x y s, In x (users d) -> In y (users d) ->
                    chatworkUserId x = Some s -> chatworkUserId y = Some s -> x = y).

Definition pairOf (m : Membership) : Id * Id := (mem_userId m, mem_organizationId m).

(** At most one membership per (user, organization), distinct membership
    keys. *)
Definition memberships_unique (d : Db) : Prop :=
  NoDup (map pairOf (memberships d)) /\ NoDup (map mem_id (memberships d)).

(** Keys come from the counter, and memberships point at rows that
    exist. *)
Definition references_ok (d : Db) : Prop :=
  (forall o, In o (organizations d) -> (org_id o < nextId d)%N)
  /\ (forall m, In m (memberships d) ->
        findUser d (mem_userId m) <> None
        /\ findOrganization d (mem_organizationId m) <> None).

Definition slugFree (slug : jsstring) (d : Db) : Prop :=
  forall o, In o (organizations d) -> org_slug o <> slug.

Definition hasPair (u o : Id) (d : Db) : Prop :=
  exists m, In m (memberships d) /\ mem_userId m = u /\ mem_organizationId m = o.

(** A sample registry: Aoi owns Acme; Ren has been invited to Acme. *)
Definition ren : User :=
  mkUser 2 (js "Ren") (js "ren@example.com") (Some (js "U02")) None.
Definition renInvite : Membership := mkMembership 101 2 10 MEMBER INVITED.
Definition registry : Db :=
  mkDb [aoi; ren] [acme] [mkMembership 100 1 10 OWNER ACTIVE; renInvite] [] 200.

(** ** Months on a line *)

(** Months counted from January of year 0, and the day number on which a
    month begins. *)
Definition monthIndex (year month : Z) : Z := 12 * year + (month - 1).

Definition monthStartDay (k : Z) : Z :=
  DayFromYear (k / 12) + DaysBeforeMonth (InLeapYear (k / 12)) (k mod 12).

(** Years that the [Date] constructor reads as they are. *)
Definition plainYear (year : Z) : Prop := year < 0 \/ 99 < year.

(** A table with one session in January 2024 and one in February 2024
    (UTC), both of user 1 in organization 1. *)
Definition janSession : WorkingSession :=
  mkWorkingSession 0 1704790800000 (Some 1704819600000) None 1 1.
Definition febSession : WorkingSession :=
  mkWorkingSession 1 1707523200000 (Some 1707526800000) None 1 1.
Definition twoMonthDb : Db := mkDb [mio; kai] [studio] [] [janSession; febSession] 2.

(** ** Computations that only read *)

Definition reads_only {A : Type} (c : M World A) : Prop :=
  forall w, snd (c w) = w.

(** Text with something to see on its first line and nothing after it:
    after the leading white space there is at least one code unit and no
    line terminator. *)
Definition visibleLine (t : jsstring) : Prop :=
  trimStart t <> [] /\ forallb dot (trimStart t) = true.

(** ** Calendar dates *)

(** Days of month [mn] (0 = January). *)
Definition DaysInMonth (leap : bool) (mn : Z) : Z :=
  match mn with
  | 1 => if leap then 29 else 28
  | 3 | 5 | 8 | 10 => 30
  | _ => 31
  end.

(** The text [formatDate] is meant to give for a calendar date. *)
Definition dateText (year month date : Z) : jsstring :=
  showZ year ++ js "-" ++ padStart2 (showZ month) ++ js "-" ++ padStart2 (showZ date).
(* ===================================================================== *)
(** * Properties of the attendance engine *)
(* ===================================================================== *)

(** ** Basic facts *)

Lemma find_none_filter (A : Type) (p : A -> bool) (l : list A) :
  find p l = None -> filter p l = [].
Proof.
  induction l as [|x l IH]; simpl; intro H; [reflexivity|].
  destruct (p x); [discriminate | auto].
Qed.

Lemma find_none_iff (A : Type) (p : A -> bool) (l : list A) :
  find p l = None <-> (forall x, In x l -> p x = false).
Proof.
  split.
  - intros H x Hx. apply (find_none _ _ H _ Hx).
  - induction l as [|y l IH]; simpl; intro H; [reflexivity|].
    rewrite (H y (or_introl eq_refl)). apply IH. intros x Hx. apply H. now right.
Qed.

Lemma find_some_iff_ex (A : Type) (p : A -> bool) (l : list A) :
  (exists a, find p l = Some a) <-> (exists x, In x l /\ p x = true).
Proof.
  split.
  - intros [a H]. exists a. apply (find_some _ _ H).
  - intros [x [Hx Hp]]. destruct (find p l) as [a|] eqn:E; [now exists a|].
    rewrite (find_none _ _ E _ Hx) in Hp. discriminate.
Qed.

Lemma find_app_none (A : Type) (p : A -> bool) (l1 l2 : list A) :
  find p l1 = None -> find p (l1 ++ l2) = find p l2.
Proof.
  induction l1 as [|x l1 IH]; simpl; intro H; [reflexivity|].
  destruct (p x); [discriminate | auto].
Qed.

(** ** Updates: the selected rows rewritten *)

Lemma find_filter_head {A : Type} (p : A -> bool) (l : list A) :
  find p l = match filter p l with [] => None | a :: _ => Some a end.
Proof.
  induction l as [|x l IH]; simpl; [reflexivity|]. now destruct (p x).
Qed.

Lemma update_where_found {A : Type} (p : A -> bool) (f : A -> A) (l : list A) a :
  find p l = Some a ->
  update_where p f l
  = Some (f a, filter (fun x => negb (p x)) l ++ map f (filter p l)).
Proof.
  unfold update_where. rewrite find_filter_head.
  destruct (filter p l); [discriminate|]. now intros [= ->].
Qed.

Lemma update_where_none {A : Type} (p : A -> bool) (f : A -> A) (l : list A) :
  find p l = None -> update_where p f l = None.
Proof.
  unfold update_where. rewrite find_filter_head.
  now destruct (filter p l).
Qed.

(** Looking a row up in a rewritten table, by a key that the rewrite
    keeps with the selected rows. *)
Lemma find_rewritten_hit {A : Type} (q p : A -> bool) (f : A -> A) (l : list A) :
  (forall x, In x l -> p x = false -> q x = false) ->
  (forall x, In x l -> p x = true -> q (f x) = true) ->
  find q (filter (fun x => negb (p x)) l ++ map f (filter p l))
  = option_map f (find p l).
Proof.
  intros H0 H1.
  assert (N0 : find q (filter (fun x => negb (p x)) l) = None).
  { apply find_none_iff. intros x Hx. apply filter_In in Hx.
    destruct Hx as [Hx Px]. apply negb_true_iff in Px. now apply H0. }
  rewrite (find_app_none _ _ _ _ N0). rewrite (find_filter_head p l).
  assert (Hf : forall x, In x (filter p l) -> q (f x) = true).
  { intros x Hx. apply filter_In in Hx. destruct Hx. now apply H1. }
  destruct (filter p l) as [|a t]; [reflexivity|]. simpl.
  now rewrite (Hf a (or_introl eq_refl)).
Qed.



(** The rewritten table holds the rows of the table, the selected ones
    rewritten, in another order. *)
Lemma rewritten_perm {A : Type} (p : A -> bool) (f : A -> A) (l : list A) :
  Permutation (filter (fun x => negb (p x)) l ++ map f (filter p l))
              (map (fun x => if p x then f x else x) l).
Proof.
  induction l as [|x l IH]; simpl; [constructor|].
  destruct (p x); simpl.
  - apply Permutation_sym, Permutation_cons_app, Permutation_sym, IH.
  - now constructor.
Qed.

Lemma in_rewritten {A : Type} (p : A -> bool) (f : A -> A) (l : list A) y :
  In y (filter (fun x => negb (p x)) l ++ map f (filter p l)) <->
  (In y l /\ p y = false) \/ (exists x, In x l /\ p x = true /\ y = f x).
Proof.
  rewrite in_app_iff, filter_In, in_map_iff. split.
  - intros [[H1 H2]|(x & <- & Hx)].
    + left. split; [exact H1|]. now apply negb_true_iff.
    + apply filter_In in Hx. right. exists x. tauto.
  - intros [[H1 H2]|(x & Hx & Px & ->)].
    + left. split; [exact H1|]. now apply negb_true_iff.
    + right. exists x. split; [reflexivity|]. apply filter_In. tauto.
Qed.

Lemma NoDup_map_eq {A K : Type} (key : A -> K) (l : list A) (a b : A) :
  NoDup (map key l) -> In a l -> In b l -> key a = key b -> a = b.
Proof.
  induction l as [|x l IH]; simpl; intros ND Ha Hb E; [tauto|].
  inversion ND as [|? ? Hx ND']; subst.
  destruct Ha as [->|Ha], Hb as [->|Hb]; auto.
  - exfalso. apply Hx. rewrite E. now apply in_map.
  - exfalso. apply Hx. rewrite <- E. now apply in_map.
Qed.

Lemma openCount_app u o l1 l2 :
  openCount u o (l1 ++ l2) = (openCount u o l1 + openCount u o l2)%nat.
Proof. unfold openCount. now rewrite filter_app, length_app. Qed.

Lemma isOpenFor_true u o s :
  isOpenFor u o s = true <->
  userId s = u /\ organizationId s = o /\ checkoutAt s = None.
Proof.
  unfold isOpenFor. rewrite !andb_true_iff, !N.eqb_eq.
  destruct (checkoutAt s); simpl; intuition congruence.
Qed.

Lemma isOpenFor_close a n now r u o : isOpenFor u o (close_with a n now r) = false.
Proof. unfold isOpenFor; simpl. now rewrite andb_false_r. Qed.

Lemma update_row_found i f l x :
  find (fun r => (id r =? i)%N) l = Some x ->
  update_row i f l
  = Some (f x, filter (fun r => negb (id r =? i)%N) l
               ++ map f (filter (fun r => (id r =? i)%N) l)).
Proof. apply update_where_found. Qed.

(** [update_row] on a row that is present. *)
Lemma update_row_some i f l :
  In i (map id l) -> exists r l', update_row i f l = Some (r, l').
Proof.
  intro H. apply in_map_iff in H. destruct H as (x & E & Hx).
  destruct (find (fun r => (id r =? i)%N) l) as [y|] eqn:F.
  - rewrite (update_row_found i f l y F). eauto.
  - pose proof (find_none _ _ F x Hx) as N0. simpl in N0.
    rewrite E, N.eqb_refl in N0. discriminate.
Qed.

(** What [update_row] leaves: the rows it did not select, and the
    selected rows rewritten. *)
Lemma update_row_in i f l r l' :
  update_row i f l = Some (r, l') ->
  forall y, In y l' <->
            (In y l /\ id y <> i) \/ (exists x, In x l /\ id x = i /\ y = f x).
Proof.
  destruct (find (fun r0 => (id r0 =? i)%N) l) as [a|] eqn:F.
  2:{ unfold update_row. rewrite (update_where_none _ f _ F). discriminate. }
  rewrite (update_row_found i f l a F).
  intros [= <- <-] y. rewrite in_rewritten. split.
  - intros [[H1 H2]|(x & Hx & Px & ->)].
    + left. split; [exact H1|]. now apply N.eqb_neq.
    + right. exists x. apply N.eqb_eq in Px. auto.
  - intros [[H1 H2]|(x & Hx & Px & ->)].
    + left. split; [exact H1|]. now apply N.eqb_neq.
    + right. exists x. apply N.eqb_eq in Px. auto.
Qed.

Lemma update_row_perm i f l r l' :
  update_row i f l = Some (r, l') ->
  Permutation l' (map (fun x => if (id x =? i)%N then f x else x) l).
Proof.
  destruct (find (fun r0 => (id r0 =? i)%N) l) as [a|] eqn:F.
  2:{ unfold update_row. rewrite (update_where_none _ f _ F). discriminate. }
  rewrite (update_row_found i f l a F).
  intros [= <- <-]. apply rewritten_perm.
Qed.

Lemma update_row_count u o i a n now l r l' :
  update_row i (close_with a n now) l = Some (r, l') ->
  (openCount u o l' <= openCount u o l)%nat.
Proof.
  destruct (find (fun r0 => (id r0 =? i)%N) l) as [a0|] eqn:F.
  2:{ unfold update_row. rewrite (update_where_none _ _ _ F). discriminate. }
  rewrite (update_row_found i _ l a0 F).
  intros [= <- <-]. clear F. rewrite openCount_app.
  assert (Z0 : openCount u o
                 (map (close_with a n now) (filter (fun r0 => (id r0 =? i)%N) l)) = 0%nat).
  { unfold openCount. induction (filter _ l) as [|x t' IH]; simpl; [reflexivity|].
    rewrite isOpenFor_close. exact IH. }
  rewrite Z0, Nat.add_0_r. clear Z0. unfold openCount.
  induction l as [|x l IH]; simpl; [lia|].
  destruct (id x =? i)%N; simpl; destruct (isOpenFor u o x); simpl; lia.
Qed.

(** Under the key constraint, [update_row] rewrites exactly the row it was
    given. *)
Lemma update_row_unique f a l :
  NoDup (map id l) -> In a l ->
  update_row (id a) f l = Some (f a, replace_row a (f a) l).
Proof.
  intros ND Hin. unfold update_row, update_where, replace_row.
  assert (E : filter (fun r => (id r =? id a)%N) l = [a]).
  { induction l as [|x l IH]; simpl in *; [tauto|].
    inversion ND as [|? ? Hnot ND']; subst.
    destruct Hin as [->|Hin].
    - rewrite N.eqb_refl. f_equal.
      destruct (filter (fun r => (id r =? id a)%N) l) as [|y t] eqn:Fy; [reflexivity|].
      exfalso. assert (Hy : In y (filter (fun r => (id r =? id a)%N) l))
        by (rewrite Fy; now left).
      apply filter_In in Hy. destruct Hy as [Hy Ey]. apply N.eqb_eq in Ey.
      apply Hnot. rewrite <- Ey. now apply in_map.
    - destruct (id x =? id a)%N eqn:Ex.
      + apply N.eqb_eq in Ex. exfalso. apply Hnot. rewrite Ex. now apply in_map.
      + now apply IH. }
  now rewrite E.
Qed.

(** ** Equations of the two operations *)

Lemma checkin_open u o n now d a :
  find (isOpenFor u o) (workingSessions d) = Some a ->
  checkin u o n now d = (Throw AlreadyCheckedIn, d).
Proof. intro H. unfold checkin, bind, getActiveSession, gets. now rewrite H. Qed.

Lemma isNull_false (A : Type) (x : option A) : isNull x = false <-> x <> None.
Proof. destruct x; simpl; split; congruence. Qed.

Lemma checkin_closed u o n now d :
  find (isOpenFor u o) (workingSessions d) = None ->
  findUser d u <> None -> findOrganization d o <> None ->
  checkin u o n now d
  = (Ok (mkWorkingSession (nextId d) now None n u o),
     with_sessions d
       (workingSessions d ++ [mkWorkingSession (nextId d) now None n u o])
       (N.succ (nextId d))).
Proof.
  intros H Hu Ho. unfold checkin, bind, getActiveSession, gets, prisma_create.
  rewrite H. apply isNull_false in Hu. apply isNull_false in Ho.
  now rewrite Hu, Ho.
Qed.

(** With no open session, a checkin for a key that names no user or no
    organization is refused by the database. *)
Lemma checkin_refused u o n now d :
  find (isOpenFor u o) (workingSessions d) = None ->
  findUser d u = None \/ findOrganization d o = None ->
  checkin u o n now d = (Throw (PrismaError ForeignKeyViolation), d).
Proof.
  intros H R. unfold checkin, bind, getActiveSession, gets, prisma_create.
  rewrite H. destruct R as [-> | ->]; simpl; [reflexivity|].
  now rewrite orb_true_r.
Qed.

(** A checkin either throws, leaving the database as it was, or adds the
    new open row of an existing user and organization. *)
Lemma checkin_cases u o n now d :
  (exists e, checkin u o n now d = (Throw e, d))
  \/ (find (isOpenFor u o) (workingSessions d) = None
      /\ findUser d u <> None /\ findOrganization d o <> None
      /\ checkin u o n now d
         = (Ok (mkWorkingSession (nextId d) now None n u o),
            with_sessions d
              (workingSessions d ++ [mkWorkingSession (nextId d) now None n u o])
              (N.succ (nextId d)))).
Proof.
  destruct (find (isOpenFor u o) (workingSessions d)) as [a|] eqn:E.
  - left. exists AlreadyCheckedIn. now apply (checkin_open u o n now d a).
  - destruct (findUser d u) as [x|] eqn:Eu.
    + destruct (findOrganization d o) as [org|] eqn:Eo.
      * right. split; [reflexivity|]. split; [discriminate|]. split; [discriminate|].
        apply checkin_closed; [exact E | rewrite Eu | rewrite Eo]; discriminate.
      * left. eexists. apply checkin_refused; [exact E | now right].
    + left. eexists. apply checkin_refused; [exact E | now left].
Qed.

Lemma checkout_closed u o n now d :
  find (isOpenFor u o) (workingSessions d) = None ->
  checkout u o n now d = (Throw NotCheckedIn, d).
Proof. intro H. unfold checkout, bind, getActiveSession, gets. now rewrite H. Qed.

Lemma checkout_open u o n now d a :
  find (isOpenFor u o) (workingSessions d) = Some a ->
  exists r l',
    update_row (id a) (close_with a n now) (workingSessions d) = Some (r, l')
    /\ checkout u o n now d = (Ok r, with_sessions d l' (nextId d)).
Proof.
  intro H. destruct (find_some _ _ H) as [Hin _].
  destruct (update_row_some (id a) (close_with a n now) (workingSessions d))
    as (r & l' & E); [now apply in_map|].
  exists r, l'. split; [exact E|].
  unfold checkout, bind, getActiveSession, gets. rewrite H.
  unfold prisma_update. fold (close_with a n now). now rewrite E.
Qed.

Lemma business_errors_differ : AlreadyCheckedIn <> NotCheckedIn.
Proof. vm_compute. discriminate. Qed.

Lemma not_found_is_no_business_error :
  NotCheckedIn <> PrismaError RecordNotFound
  /\ AlreadyCheckedIn <> PrismaError RecordNotFound.
Proof. split; discriminate. Qed.

(** ** Preservation of the invariants *)

Lemma checkin_open_invariant u o n now d :
  open_invariant d -> open_invariant (snd (checkin u o n now d)).
Proof.
  intro Inv. destruct (checkin_cases u o n now d) as [[e ->]|(E & _ & _ & ->)];
    [exact Inv|].
  - intros u' o'; simpl.
    rewrite openCount_app. unfold openCount at 2; simpl.
    destruct (isOpenFor u' o' _) eqn:O; simpl.
    + apply isOpenFor_true in O; simpl in O. destruct O as (-> & -> & _).
      unfold openCount. rewrite (find_none_filter _ _ _ E). simpl. lia.
    + specialize (Inv u' o'). lia.
Qed.

Lemma checkout_open_invariant u o n now d :
  open_invariant d -> open_invariant (snd (checkout u o n now d)).
Proof.
  intro Inv. destruct (find (isOpenFor u o) (workingSessions d)) as [a|] eqn:E.
  - destruct (checkout_open u o n now d a E) as (r & l' & U & ->). intros u' o'; simpl.
    pose proof (update_row_count u' o' _ _ _ _ _ _ _ U). specialize (Inv u' o'). lia.
  - now rewrite (checkout_closed u o n now d E).
Qed.

Lemma step_open_invariant d op : open_invariant d -> open_invariant (step d op).
Proof.
  destruct op; unfold step, exec; [apply checkin_open_invariant | apply checkout_open_invariant].
Qed.

Lemma update_row_keys i f l r l' :
  (forall x, id (f x) = id x) ->
  update_row i f l = Some (r, l') -> Permutation (map id l') (map id l).
Proof.
  intros Hf U. apply update_row_perm in U.
  eapply Permutation_trans; [apply Permutation_map, U|].
  rewrite map_map.
  assert (E : map (fun x => id (if (id x =? i)%N then f x else x)) l = map id l).
  { apply map_ext. intro x. destruct (id x =? i)%N; [apply Hf | reflexivity]. }
  rewrite E. apply Permutation_refl.
Qed.

Lemma keys_ok_alt d :
  keys_ok d <->
  NoDup (map id (workingSessions d))
  /\ (forall i, In i (map id (workingSessions d)) -> (i < nextId d)%N).
Proof.
  unfold keys_ok. rewrite Forall_forall. split; intros [H1 H2]; split; auto.
  - intros i Hi. apply in_map_iff in Hi. destruct Hi as (x & <- & Hx). auto.
  - intros x Hx. apply H2. now apply in_map.
Qed.

Lemma step_keys_ok d op : keys_ok d -> keys_ok (step d op).
Proof.
  rewrite !keys_ok_alt. intros [ND Lt]. destruct op as [u o n now|u o n now]; unfold step, exec.
  - destruct (checkin_cases u o n now d) as [[e ->]|(E & _ & _ & ->)].
    + now split.
    + simpl. rewrite map_app. simpl. split.
      * apply NoDup_app; [exact ND | repeat constructor; simpl; tauto |].
        intros i Hi [<-|[]]. specialize (Lt _ Hi). lia.
      * intros i Hi. apply in_app_or in Hi. destruct Hi as [Hi|[<-|[]]].
        -- specialize (Lt _ Hi). lia.
        -- lia.
  - destruct (find (isOpenFor u o) (workingSessions d)) as [a|] eqn:E.
    + destruct (checkout_open u o n now d a E) as (r & l' & U & ->). simpl.
      pose proof (update_row_keys _ (close_with a n now) _ _ _ (fun x => eq_refl) U)
        as P.
      split.
      * eapply Permutation_NoDup; [apply Permutation_sym; exact P | exact ND].
      * intros i Hi. apply Lt. eapply Permutation_in; [exact P | exact Hi].
    + rewrite (checkout_closed u o n now d E). now split.
Qed.

Lemma run_keys_ok ops d : keys_ok d -> keys_ok (run ops d).
Proof.
  revert d. induction ops as [|op ops IH]; intro d; simpl; [tauto|].
  intro H. apply IH. now apply step_keys_ok.
Qed.

Lemma emptyDb_invariants : open_invariant emptyDb /\ keys_ok emptyDb.
Proof.
  split; [intros u o; unfold openCount; simpl; lia|]. split; simpl; constructor.
Qed.

(** ** Runs under a clock that does not go back *)

Lemma update_row_Forall (P : WorkingSession -> Prop) i f l r l' :
  update_row i f l = Some (r, l') ->
  (forall x, P x -> P (f x)) ->
  Forall P l -> Forall P l'.
Proof.
  intros U Hf F. rewrite Forall_forall in *. intros y Hy.
  apply (update_row_in _ _ _ _ _ U) in Hy.
  destruct Hy as [[Hy _]|(x & Hx & _ & ->)]; auto.
Qed.

Lemma step_clock d op t :
  started_by t d -> well_timed d -> t <= op_time op ->
  started_by (op_time op) (step d op) /\ well_timed (step d op).
Proof.
  unfold started_by, well_timed, step. intros S W T.
  assert (S' : Forall (fun r => checkinAt r <= op_time op) (workingSessions d)).
  { eapply Forall_impl; [|exact S]. simpl. intros; lia. }
  destruct op as [u o n now|u o n now]; simpl in *.
  { destruct (checkin_cases u o n now d) as [[e ->]|(E & _ & _ & ->)]; [auto|].
    simpl. split.
    + apply Forall_app. split; [exact S'|]. repeat constructor. simpl. lia.
    + apply Forall_app. split; [exact W|]. repeat constructor. simpl. discriminate. }
  destruct (find (isOpenFor u o) (workingSessions d)) as [a|] eqn:E.
  - destruct (checkout_open u o n now d a E) as (r & l' & U & ->). simpl.
    split.
    + eapply update_row_Forall; [exact U| |exact S']. auto.
    + rewrite Forall_forall in S.
      assert (SW : Forall (fun r => checkinAt r <= t
                                    /\ forall e, checkoutAt r = Some e -> checkinAt r <= e)
                     (workingSessions d)).
      { rewrite Forall_forall in *. auto. }
      eapply Forall_impl; [|eapply update_row_Forall; [exact U| |exact SW]].
      * simpl. tauto.
      * simpl. intros x [Hx _]. split; [exact Hx|]. intros e [= <-]. lia.
  - rewrite (checkout_closed u o n now d E). auto.
Qed.

(** Along a run whose clock readings ascend, a session never ends before
    it starts. *)
Lemma run_well_timed ops d t :
  started_by t d -> well_timed d -> times_ascend t ops -> well_timed (run ops d).
Proof.
  revert d t. induction ops as [|op ops IH]; simpl; intros d t S W A; [exact W|].
  destruct A as [T A]. destruct (step_clock d op t S W T) as [S' W'].
  exact (IH _ _ S' W' A).
Qed.


(** ** Checkin and checkout *)

Lemma length_le1_eq (A : Type) (l : list A) (a b : A) :
  (List.length l <= 1)%nat -> In a l -> In b l -> a = b.
Proof.
  destruct l as [|x [|y l]]; simpl; intros H Ha Hb; try tauto; [|lia].
  destruct Ha as [<-|[]], Hb as [<-|[]]. reflexivity.
Qed.

Lemma hasOpen_find u o d :
  hasOpen u o d <-> exists a, find (isOpenFor u o) (workingSessions d) = Some a.
Proof. unfold hasOpen. symmetry. apply find_some_iff_ex. Qed.

Lemma not_hasOpen_find u o d :
  ~ hasOpen u o d <-> find (isOpenFor u o) (workingSessions d) = None.
Proof.
  rewrite hasOpen_find. destruct (find _ _) as [a|]; split; intro H;
    try congruence; try (intros [b Hb]; congruence).
  exfalso. apply H. now exists a.
Qed.

(** Once the only open session of a pair is closed, the pair has none. *)
Lemma closed_leaves_none u o d a r :
  keys_ok d -> open_invariant d ->
  find (isOpenFor u o) (workingSessions d) = Some a ->
  isOpenFor u o r = false ->
  find (isOpenFor u o) (replace_row a r (workingSessions d)) = None.
Proof.
  intros _ Inv F Hr. apply find_none_iff. intros y Hx.
  unfold replace_row in Hx. apply in_app_or in Hx.
  destruct Hx as [Hx|[<-|[]]]; [|exact Hr].
  apply filter_In in Hx. destruct Hx as [Hy E]. apply negb_true_iff in E.
  destruct (isOpenFor u o y) eqn:O; [|reflexivity].
  destruct (find_some _ _ F) as [Ha Oa].
  assert (a = y).
  { apply (length_le1_eq _ (filter (isOpenFor u o) (workingSessions d))).
    - apply Inv.
    - apply filter_In. now split.
    - apply filter_In. now split. }
  subst y. rewrite N.eqb_refl in E. discriminate.
Qed.

(** C1: open-session invariant: if every (user, organization) pair has at
    most one session with a null end, then after any sequence of checkin
    and checkout operations, run one after the other, every pair still
    has at most one. *)
Theorem open_invariant_run (ops : list EngineOp) (d : Db) :
  open_invariant d -> open_invariant (run ops d).
Proof.
  revert d. induction ops as [|op ops IH]; intros d Inv; simpl.
  - exact Inv.
  - apply IH. destruct op as [u o n now|u o n now]; unfold step, exec.
    + apply checkin_open_invariant. exact Inv.
    + apply checkout_open_invariant. exact Inv.
Qed.

Lemma open_invariant_run_witness :
  open_invariant sampleDb
  /\ open_invariant
       (run [OpCheckin 1 1 None 2000; OpCheckout 1 1 (Some (js "done")) 3000;
             OpCheckin 1 1 None 4000; OpCheckin 2 1 None 4500;
             OpCheckin 1 1 None 5000] sampleDb).
Proof.
  assert (H : open_invariant sampleDb).
  { intros u o. unfold openCount. simpl.
    destruct (isOpenFor u o sampleOpen); simpl; lia. }
  split; [exact H | apply open_invariant_run; exact H].
Defined.

(** C2: checkin fails with AlreadyCheckedIn exactly when the pair has an
    open session.  Without one, for a user and an organization that
    exist, it adds exactly one row to the table, with a null end, start
    = now and the given note (none when none was given), and
    getActiveSession for the pair then returns that open row; for a key
    that names no user or no organization the database refuses the row:
    the call throws the foreign-key error and stores nothing. *)
Theorem checkin_spec (d : Db) (u o : Id) (n : option jsstring) (now : Time) :
  (fst (checkin u o n now d) = Throw AlreadyCheckedIn <-> hasOpen u o d)
  /\ (~ hasOpen u o d -> findUser d u <> None -> findOrganization d o <> None ->
      exists row d',
        checkin u o n now d = (Ok row, d')
        /\ workingSessions d' = workingSessions d ++ [row]
        /\ users d' = users d /\ organizations d' = organizations d
        /\ memberships d' = memberships d
        /\ checkoutAt row = None /\ checkinAt row = now /\ note row = n
        /\ userId row = u /\ organizationId row = o
        /\ getActiveSession u o d' = (Ok (Some row), d'))
  /\ (~ hasOpen u o d ->
      findUser d u = None \/ findOrganization d o = None ->
      checkin u o n now d = (Throw (PrismaError ForeignKeyViolation), d)).
Proof.
  split; [|split].
  - rewrite hasOpen_find. split.
    + intro H. destruct (find (isOpenFor u o) (workingSessions d)) as [a|] eqn:E;
        [now exists a|].
      destruct (checkin_cases u o n now d) as [[e C]|(_ & _ & _ & C)];
        rewrite C in H; [|discriminate].
      destruct (findUser d u) eqn:Eu; [destruct (findOrganization d o) eqn:Eo|].
      * rewrite checkin_closed in C; [discriminate | exact E | rewrite Eu | rewrite Eo];
          discriminate.
      * rewrite (checkin_refused u o n now d E (or_intror Eo)) in C.
        simpl in H. injection C as <-. discriminate.
      * rewrite (checkin_refused u o n now d E (or_introl Eu)) in C.
        simpl in H. injection C as <-. discriminate.
    + intros [a E]. now rewrite (checkin_open u o n now d a E).
  - intros H Hu Ho. apply not_hasOpen_find in H.
    eexists. eexists. split; [apply (checkin_closed u o n now d H Hu Ho)|].
    simpl. repeat (split; [reflexivity|]).
    unfold getActiveSession, gets. simpl. f_equal. f_equal.
    rewrite (find_app_none _ _ _ _ H). simpl.
    unfold isOpenFor; simpl. now rewrite !N.eqb_refl.
  - intros H R. apply not_hasOpen_find in H. now apply checkin_refused.
Qed.

Lemma checkin_spec_witness :
  (~ hasOpen 2 1 sampleDb
   /\ exists row d',
        checkin 2 1 (Some (js "remote")) 2000 sampleDb = (Ok row, d')
        /\ checkoutAt row = None
        /\ getActiveSession 2 1 d' = (Ok (Some row), d'))
  /\ checkin 7 1 (Some (js "remote")) 2000 sampleDb
     = (Throw (PrismaError ForeignKeyViolation), sampleDb).
Proof.
  assert (H : forall u, u <> 1%N -> ~ hasOpen u 1 sampleDb).
  { intros u Hu (s & [<-|[]] & O). apply isOpenFor_true in O. simpl in O.
    destruct O as [O _]. congruence. }
  split.
  - split; [apply H; discriminate|].
    destruct (proj1 (proj2 (checkin_spec sampleDb 2 1 (Some (js "remote")) 2000))
                (H 2%N ltac:(discriminate)) ltac:(discriminate) ltac:(discriminate))
      as (row & d' & E & _ & _ & _ & _ & C & _ & _ & _ & _ & G).
    exists row, d'. repeat split; assumption.
  - apply (proj2 (proj2 (checkin_spec sampleDb 7 1 (Some (js "remote")) 2000))).
    + apply H. discriminate.
    + left. reflexivity.
Defined.

(** C2, as stated, fails: with no open session of the pair, a checkin for a
    key that names no user neither fails with AlreadyCheckedIn nor creates
    a session. *)
Lemma checkin_of_unknown_user_creates_nothing :
  find (isOpenFor 7 1) (workingSessions sampleDb) = None
  /\ fst (checkin 7 1 None 2000 sampleDb) <> Throw AlreadyCheckedIn
  /\ checkin 7 1 None 2000 sampleDb
     = (Throw (PrismaError ForeignKeyViolation), sampleDb).
Proof. split; [reflexivity|]. split; [vm_compute; discriminate | reflexivity]. Qed.

(** C3: checkout fails with NotCheckedIn exactly when the pair has no open
    session.  Otherwise it returns the open session [a] closed: end = now,
    the note replaced by a supplied (non-empty) note and kept otherwise,
    everything else unchanged, and that row takes the place of [a] in the
    table.  The end is not compared with the start: end >= start exactly when
    the clock reading of the checkout is not earlier than the start of
    the session, and along a run whose clock readings never go back no
    session ends before it starts.  When the table satisfies the
    open-session invariant, getActiveSession for the pair returns none
    afterwards and a second checkout fails with NotCheckedIn. *)
Theorem checkout_spec (d : Db) (u o : Id) (n : option jsstring) (now : Time) :
  (fst (checkout u o n now d) = Throw NotCheckedIn <-> ~ hasOpen u o d)
  /\ (forall a,
        keys_ok d ->
        fst (getActiveSession u o d) = Ok (Some a) ->
        exists r d',
          checkout u o n now d = (Ok r, d')
          /\ id r = id a /\ checkinAt r = checkinAt a
          /\ userId r = u /\ organizationId r = o
          /\ checkoutAt r = Some now
          /\ note r = (if truthy n then n else note a)
          /\ (n = None -> note r = note a)
          /\ (note r <> note a -> n = note r)
          /\ workingSessions d' = replace_row a r (workingSessions d)
          /\ (forall e, checkoutAt r = Some e ->
                        (checkinAt r <= e <-> checkinAt a <= now))
          /\ (open_invariant d ->
              getActiveSession u o d' = (Ok None, d')
              /\ forall n2 now2,
                   fst (checkout u o n2 now2 d') = Throw NotCheckedIn))
  /\ (forall ops t,
        started_by t d -> well_timed d -> times_ascend t ops ->
        well_timed (run ops d)).
Proof.
  split; [|split].
  - rewrite not_hasOpen_find. split.
    + intro H. destruct (find (isOpenFor u o) (workingSessions d)) as [a|] eqn:E;
        [|reflexivity].
      destruct (checkout_open u o n now d a E) as (r & l' & _ & C).
      rewrite C in H. discriminate.
    + intro E. now rewrite (checkout_closed u o n now d E).
  - intros a K G. unfold getActiveSession, gets in G. simpl in G.
    injection G as G.
    destruct (find_some _ _ G) as [Hin Oa].
    apply isOpenFor_true in Oa. destruct Oa as (Hu & Ho & Hc).
    destruct (checkout_open u o n now d a G) as (r & l' & U & C).
    rewrite (update_row_unique (close_with a n now) a _ (proj1 K) Hin) in U.
    injection U as <- <-.
    eexists. eexists. split; [exact C|]. simpl.
    repeat (split; [solve [reflexivity | assumption]|]).
    split; [intros ->; reflexivity|].
    split.
    { unfold js_or. destruct (truthy n); [reflexivity | congruence]. }
    split; [reflexivity|].
    split; [intros e [= <-]; reflexivity|].
    intro Inv.
    assert (F : find (isOpenFor u o)
                  (replace_row a (close_with a n now a) (workingSessions d)) = None).
    { apply closed_leaves_none; auto. apply isOpenFor_close. }
    split.
    + unfold getActiveSession, gets. simpl.
      now rewrite F.
    + intros n2 now2. rewrite checkout_closed; [reflexivity|exact F].
  - intros ops t S W A. exact (run_well_timed ops d t S W A).
Qed.

Lemma sampleDb_keys_ok : keys_ok sampleDb.
Proof.
  split; simpl.
  - repeat constructor. simpl. tauto.
  - repeat constructor.
Defined.

Lemma sampleDb_open_invariant : open_invariant sampleDb.
Proof.
  intros u o. unfold openCount. simpl.
  destruct (isOpenFor u o sampleOpen); simpl; lia.
Defined.

Lemma checkout_spec_witness :
  (exists r d',
      checkout 1 1 None 1500 sampleDb = (Ok r, d')
      /\ checkoutAt r = Some 1500
      /\ note r = Some (js "office")
      /\ (forall e, checkoutAt r = Some e -> checkinAt r <= e)
      /\ getActiveSession 1 1 d' = (Ok None, d'))
  /\ well_timed
       (run [OpCheckout 1 1 None 1500; OpCheckin 1 1 None 1600;
             OpCheckout 1 1 (Some (js "done")) 1700] sampleDb).
Proof.
  split.
  - destruct (proj1 (proj2 (checkout_spec sampleDb 1 1 None 1500)) sampleOpen
                sampleDb_keys_ok eq_refl)
      as (r & d' & E & _ & _ & _ & _ & C & _ & N & _ & _ & T & A).
    exists r, d'. split; [exact E|]. split; [exact C|].
    split; [exact (N eq_refl)|].
    split; [intros e He; apply (T e He); simpl; lia|].
    exact (proj1 (A sampleDb_open_invariant)).
  - apply (proj2 (proj2 (checkout_spec sampleDb 1 1 None 1500)) _ 1000).
    + repeat constructor. simpl. lia.
    + repeat constructor. simpl. discriminate.
    + simpl. lia.
Defined.

(** C3, as stated, fails: the end is the clock reading of the checkout,
    whatever the start is.  A checkout whose clock reading is earlier
    than the start of the open session closes it with end < start, from a
    table that satisfies the key constraint and the open-session
    invariant, and also after a checkin made through the engine. *)
Lemma checkout_can_end_before_start :
  keys_ok sampleDb /\ open_invariant sampleDb
  /\ fst (checkout 1 1 None 500 sampleDb)
     = Ok (mkWorkingSession 0 1000 (Some 500) (Some (js "office")) 1 1)
  /\ workingSessions
       (run [OpCheckin 2 1 None 1000; OpCheckout 2 1 None 500] officeDb)
     = [mkWorkingSession 0 1000 (Some 500) None 2 1].
Proof.
  split; [exact sampleDb_keys_ok|]. split; [exact sampleDb_open_invariant|].
  split; reflexivity.
Qed.

(** C9: an empty-string note given to checkout counts as no note: the
    call behaves exactly as the call without a note, and the closed
    session keeps the note it had. *)
Theorem checkout_empty_note (d : Db) (u o : Id) (now : Time) (a : WorkingSession) :
  fst (getActiveSession u o d) = Ok (Some a) ->
  checkout u o (Some []) now d = checkout u o None now d
  /\ exists r d',
       checkout u o (Some []) now d = (Ok r, d')
       /\ In r (workingSessions d')
       /\ checkoutAt r = Some now
       /\ note r = note a.
Proof.
  intro G. split; [reflexivity|].
  unfold getActiveSession, gets in G. simpl in G. injection G as G.
  destruct (checkout_open u o (Some []) now d a G) as (r & l' & U & C).
  exists r, (with_sessions d l' (nextId d)). split; [exact C|].
  destruct (find (fun r0 => (id r0 =? id a)%N) (workingSessions d)) as [x|] eqn:F.
  2:{ unfold update_row in U. rewrite (update_where_none _ _ _ F) in U.
      discriminate. }
  pose proof (update_row_in _ _ _ _ _ U) as I.
  rewrite (update_row_found _ _ _ x F) in U. injection U as <- _.
  destruct (find_some _ _ F) as [Hx Ex]. apply N.eqb_eq in Ex.
  split; [|simpl; auto].
  simpl. apply I. right. exists x. auto.
Qed.

Lemma checkout_empty_note_witness :
  exists r d',
    checkout 1 1 (Some []) 1500 sampleDb = (Ok r, d')
    /\ note r = Some (js "office").
Proof.
  destruct (proj2 (checkout_empty_note sampleDb 1 1 1500 sampleOpen eq_refl))
    as (r & d' & E & _ & _ & N).
  exists r, d'. split; [exact E | exact N].
Defined.

(** C10: a checkin or checkout that fails leaves the database exactly as
    it was: whatever it throws (AlreadyCheckedIn, NotCheckedIn, or an
    error of the database), no session is created or modified. *)
Theorem failed_operation_changes_nothing (op : EngineOp) (d : Db) (e : exn) :
  fst (exec op d) = Throw e ->
  snd (exec op d) = d.
Proof.
  destruct op as [u o n now|u o n now]; simpl.
  - destruct (checkin_cases u o n now d) as [[e' ->]|(_ & _ & _ & ->)];
      [reflexivity | discriminate].
  - destruct (find (isOpenFor u o) (workingSessions d)) as [a|] eqn:E.
    + destruct (checkout_open u o n now d a E) as (r & l' & _ & ->). discriminate.
    + now rewrite (checkout_closed u o n now d E).
Qed.

Lemma failed_operation_changes_nothing_witness :
  snd (exec (OpCheckin 1 1 (Some (js "again")) 2000) sampleDb) = sampleDb
  /\ snd (exec (OpCheckout 2 1 None 2000) sampleDb) = sampleDb.
Proof.
  split.
  - apply (failed_operation_changes_nothing
             (OpCheckin 1 1 (Some (js "again")) 2000) sampleDb AlreadyCheckedIn).
    reflexivity.
  - apply (failed_operation_changes_nothing
             (OpCheckout 2 1 None 2000) sampleDb NotCheckedIn).
    reflexivity.
Defined.
(** The day at the office of the specification: in at 09:00 with the note
    "office", out at 17:30 without a note; the session keeps the note and
    lasts eight hours and a half. *)
Example office_day :
  let t0 := 9 * 3600000 in
  let t1 := 17 * 3600000 + 30 * 60000 in
  workingSessions
    (run [OpCheckin 1 1 (Some (js "office")) t0; OpCheckout 1 1 None t1] officeDb)
  = [mkWorkingSession 0 t0 (Some t1) (Some (js "office")) 1 1]
  /\ Qeq (hoursOf (mkWorkingSession 0 t0 (Some t1) (Some (js "office")) 1 1))
         (17 # 2).
Proof. split; reflexivity. Qed.

(* ===================================================================== *)
(** * Range queries and the monthly report *)
(* ===================================================================== *)

Lemma insert_by_checkin_perm x l : Permutation (insert_by_checkin x l) (x :: l).
Proof.
  induction l as [|y l IH]; simpl; [reflexivity|].
  destruct (checkinAt x <=? checkinAt y); [reflexivity|].
  rewrite IH. apply perm_swap.
Qed.

Lemma orderBy_perm l : Permutation (orderBy_checkinAt_asc l) l.
Proof.
  induction l as [|x l IH]; simpl; [reflexivity|].
  rewrite insert_by_checkin_perm. now constructor.
Qed.

Lemma insert_by_checkin_sorted x l :
  StronglySorted start_le l -> StronglySorted start_le (insert_by_checkin x l).
Proof.
  induction l as [|y l IH]; simpl; intro S.
  - repeat constructor.
  - inversion S as [|? ? S' F]; subst.
    destruct (checkinAt x <=? checkinAt y) eqn:E.
    + apply Z.leb_le in E. constructor; [exact S|].
      constructor; [exact E|].
      eapply Forall_impl; [|exact F]. unfold start_le. intros; lia.
    + apply Z.leb_gt in E. constructor; [now apply IH|].
      eapply Permutation_Forall; [symmetry; apply insert_by_checkin_perm|].
      constructor; [unfold start_le; lia | exact F].
Qed.

Lemma orderBy_sorted l : StronglySorted start_le (orderBy_checkinAt_asc l).
Proof.
  induction l as [|x l IH]; simpl; [constructor|].
  now apply insert_by_checkin_sorted.
Qed.

Lemma inRange_true u o a b s :
  inRange u o a b s = true <->
  userId s = u /\ organizationId s = o /\ a <= checkinAt s <= b.
Proof.
  unfold inRange. rewrite !andb_true_iff, !N.eqb_eq, !Z.leb_le. tauto.
Qed.

(** C8: getSessionsByDateRange returns exactly the sessions of the pair
    whose start lies in [startDate, endDate], both ends included (each
    once: the result is a permutation of the matching rows), in ascending
    order of start; the database is not changed. *)
Theorem sessions_in_range_spec (d : Db) (u o : Id) (startDate endDate : Time) :
  exists l,
    getSessionsByDateRange u o startDate endDate d = (Ok l, d)
    /\ Permutation l (filter (inRange u o startDate endDate) (workingSessions d))
    /\ (forall x, In x l <->
                  In x (workingSessions d) /\ userId x = u /\ organizationId x = o
                  /\ startDate <= checkinAt x <= endDate)
    /\ StronglySorted start_le l.
Proof.
  eexists. split; [reflexivity|]. split; [apply orderBy_perm|].
  split; [|apply orderBy_sorted].
  intro x. rewrite <- inRange_true, <- filter_In.
  split; apply Permutation_in; [|symmetry]; apply orderBy_perm.
Qed.

(** ** The month window *)

(** The window used by the report ends 999 ms before the last instant of
    the month, and 1000 ms before the next month begins. *)
Lemma month_window_end_gap tza year month e :
  newDate tza year month 0 23 59 59 0 = Some e ->
  (forall e', spec_month_end tza year month = Some e' -> e' = e + 999)
  /\ (forall s', newDate tza year month 1 0 0 0 0 = Some s' -> s' = e + 1000).
Proof.
  unfold spec_month_end, newDate, TimeClip, MakeDate, MakeDay, MakeTime, msPerDay.
  set (yr := if ((0 <=? year) && (year <=? 99))%bool then 1900 + year else year).
  set (D := DayFromYear (yr + month / 12)
            + DaysBeforeMonth (InLeapYear (yr + month / 12)) (month mod 12)).
  clearbody D. intro H. split; intros x Hx.
  - destruct (Z.abs _ <=? _) in H; [|discriminate].
    destruct (Z.abs _ <=? _) in Hx; [|discriminate].
    injection H as <-. injection Hx as <-. lia.
  - destruct (Z.abs _ <=? _) in H; [|discriminate].
    destruct (Z.abs _ <=? _) in Hx; [|discriminate].
    injection H as <-. injection Hx as <-. lia.
Qed.

Lemma addHours_hoursOf q s : Qeq (addHours q s) (Qplus q (hoursOf s)).
Proof.
  unfold addHours, hoursOf. destruct (checkoutAt s); [reflexivity|].
  now rewrite Qplus_0_r.
Qed.

Lemma fold_addHours q l :
  Qeq (fold_left addHours l q) (Qplus q (sumHours l)).
Proof.
  revert q. induction l as [|s l IH]; intro q; simpl.
  - now rewrite Qplus_0_r.
  - rewrite IH, addHours_hoursOf. now rewrite Qplus_assoc.
Qed.

Lemma sumHours_closed l : Qeq (sumHours l) (sumHours (filter isClosed l)).
Proof.
  induction l as [|s l IH]; simpl; [reflexivity|].
  unfold isClosed, hoursOf at 1. destruct (checkoutAt s) eqn:E; simpl.
  - unfold hoursOf. rewrite E. now rewrite IH.
  - now rewrite Qplus_0_l.
Qed.

(** What the report computes: the sessions of the pair that start in the
    window [startDate, endDate] of the code, open ones included, and the
    sum of the durations of the closed ones, in hours. *)
Lemma monthly_report_computes tza u o year month d startDate endDate :
  newDate tza year (month - 1) 1 0 0 0 0 = Some startDate ->
  newDate tza year month 0 23 59 59 0 = Some endDate ->
  exists total l,
    getMonthlyReport tza u o year month d = (Ok (mkMonthlyReport total l), d)
    /\ getSessionsByDateRange u o startDate endDate d = (Ok l, d)
    /\ Qeq total (sumHours (filter isClosed l)).
Proof.
  intros Hs He. unfold getMonthlyReport. rewrite Hs, He.
  eexists. eexists. split; [reflexivity|]. split; [reflexivity|].
  rewrite fold_addHours, Qplus_0_l. apply sumHours_closed.
Qed.

(** C4: the window of the monthly report stops at 23:59:59.000 of the last
    day.  In January 2024 (UTC) the month runs to 23:59:59.999 of the
    31st; a closed session that starts at 23:59:59.500 of the 31st lies in
    the month, yet the January report leaves it out of the list and of
    the total (only the session starting at 23:59:59.000 is reported), and
    the February report does not have it either. *)
Theorem monthly_report_misses_last_second :
  spec_month_start 0 2024 1 = Some 1704067200000
  /\ spec_month_end 0 2024 1 = Some 1706745599999
  /\ 1704067200000 <= checkinAt lateSession <= 1706745599999
  /\ isClosed lateSession = true
  /\ fst (getMonthlyReport 0 1 1 2024 1 lateDb)
     = Ok (mkMonthlyReport (0 + 3600000 # 3600000) [onTheSecond])
  /\ fst (getMonthlyReport 0 1 1 2024 2 lateDb)
     = Ok (mkMonthlyReport 0 []).
Proof.
  repeat split; try reflexivity; vm_compute; discriminate.
Qed.

(* ===================================================================== *)
(** * The command router *)
(* ===================================================================== *)

(** ** The matcher on the patterns of [parseCommand] *)

Lemma strip_prefix_app p s : strip_prefix p (p ++ s) = Some s.
Proof. induction p as [|c p IH]; simpl; [reflexivity|]. now rewrite N.eqb_refl. Qed.

Lemma strip_prefix_some p s t : strip_prefix p s = Some t -> s = p ++ t.
Proof.
  revert s. induction p as [|c p IH]; simpl; intros s H; [congruence|].
  destruct s as [|c' s]; [discriminate|].
  destruct (c =? c')%N eqn:E; [|discriminate].
  apply N.eqb_eq in E. subst c'. f_equal. auto.
Qed.

Lemma m_lit p i s c k :
  m (lit p) (mkState i s c) k
  = match strip_prefix p s with
    | Some t => k (mkState (i + List.length p) t c)
    | None => None
    end.
Proof.
  revert i s. induction p as [|ch p IH]; intros i s; simpl.
  - now rewrite Nat.add_0_r.
  - destruct s as [|c' s]; [reflexivity|].
    destruct (ch =? c')%N; [|reflexivity].
    fold (lit p). rewrite IH. now rewrite Nat.add_succ_r.
Qed.

Lemma succ_eqb_false i : (S i =? i)%nat = false.
Proof. apply Nat.eqb_neq. lia. Qed.

Lemma repeat_loop_class
  (atom : mstate -> (mstate -> option mstate) -> option mstate)
  (p : N -> bool) (k : mstate -> option mstate) :
  (forall (x : mstate) (k' : mstate -> option mstate),
     atom x k'
     = match rest x with
       | c' :: t => if p c' then k' (mkState (S (endIndex x)) t (capture1 x)) else None
       | [] => None
       end) ->
  forall fuel i s c,
    (List.length s < fuel)%nat ->
    repeat_loop atom k fuel (mkState i s c) = greedy p k i s c.
Proof.
  intros Ha fuel i s. revert fuel i. induction s as [|ch t IH]; intros fuel i c H;
    (destruct fuel as [|fuel]; [simpl in H; lia|]);
    cbn [repeat_loop greedy]; rewrite Ha; cbn [rest endIndex capture1].
  - reflexivity.
  - destruct (p ch); [|reflexivity].
    rewrite succ_eqb_false. rewrite IH; [reflexivity | simpl in H; lia].
Qed.

Lemma repeat_class p k fuel i s c :
  (List.length s < fuel)%nat ->
  repeat_loop (fun x' k' => m (Class p) (reset (Class p) x') k') k fuel
    (mkState i s c)
  = greedy p k i s c.
Proof. apply repeat_loop_class. reflexivity. Qed.

Lemma m_star_class p i s c k :
  m (Star (Class p)) (mkState i s c) k = greedy p k i s c.
Proof. apply (repeat_class p k (S (List.length s)) i s c). lia. Qed.

(** A continuation that only succeeds at the end of the input makes the
    greedy run all or nothing. *)
Lemma greedy_to_end p k i s c :
  (forall j ch t c', k (mkState j (ch :: t) c') = None) ->
  greedy p k i s c
  = if forallb p s then k (mkState (i + List.length s) [] c) else None.
Proof.
  intro Hk. revert i. induction s as [|ch t IH]; intro i; simpl.
  - now rewrite Nat.add_0_r.
  - destruct (p ch); simpl; [|apply Hk].
    rewrite IH, Hk, Nat.add_succ_r. simpl.
    destruct (forallb p t); [|reflexivity].
    now destruct (k _).
Qed.

Lemma add_eqb_self j n : (j + n =? j)%nat = (n =? 0)%nat.
Proof.
  destruct (Nat.eqb_spec (j + n) j), (Nat.eqb_spec n 0); auto; lia.
Qed.

Lemma tail_re_unfold j s :
  m tail_re (mkState j s None) (fun y => Some y)
  = orElse
      (greedy dot
         (fun y =>
            if (endIndex y =? j)%nat then None
            else match rest y with
                 | [] => Some (mkState (endIndex y) (rest y)
                                 (Some (firstn (endIndex y - j) s)))
                 | _ :: _ => None
                 end) j s None)
      (match s with
       | [] => Some (mkState j s None)
       | _ :: _ => None
       end).
Proof. rewrite <- m_star_class. reflexivity. Qed.

Lemma tail_re_spec j s :
  m tail_re (mkState j s None) (fun y => Some y)
  = match s with
    | [] => Some (mkState j [] None)
    | _ => if forallb dot s
           then Some (mkState (j + List.length s) [] (Some s))
           else None
    end.
Proof.
  rewrite tail_re_unfold, greedy_to_end.
  - cbn [endIndex rest]. rewrite add_eqb_self.
    destruct s as [|ch t]; [reflexivity|].
    destruct (forallb dot (ch :: t)); [|reflexivity].
    cbn [List.length Nat.eqb orElse].
    replace (j + S (List.length t) - j)%nat with (List.length (ch :: t))
      by (simpl; lia).
    now rewrite firstn_all.
  - intros i ch t c'. cbn [endIndex rest]. now destruct (i =? j)%nat.
Qed.

Lemma trimStart_length s : (List.length (trimStart s) <= List.length s)%nat.
Proof.
  induction s as [|ch t IH]; simpl; [lia|]. destruct (isSpace ch); simpl; lia.
Qed.

Lemma trimStart_dot s : forallb dot (trimStart s) = false -> forallb dot s = false.
Proof.
  induction s as [|ch t IH]; simpl; [auto|].
  destruct (isSpace ch); [|auto]. intro H. rewrite (IH H). apply andb_false_r.
Qed.

Lemma trimStart_head s ch t : trimStart s = ch :: t -> isSpace ch = false.
Proof.
  induction s as [|c s IH]; simpl; [discriminate|].
  destruct (isSpace c) eqn:E; [auto|]. intros [= <- <-]. exact E.
Qed.

Lemma trimStart_idem s : trimStart (trimStart s) = trimStart s.
Proof.
  destruct (trimStart s) as [|ch t] eqn:E; [reflexivity|].
  simpl. now rewrite (trimStart_head _ _ _ E).
Qed.

(** White space, then the tail: only the longest run of white space can
    lead to a match. *)
Lemma spaces_then_tail i s :
  greedy isSpace (fun y => m tail_re y (fun z => Some z)) i s None
  = m tail_re
      (mkState (i + (List.length s - List.length (trimStart s))) (trimStart s) None)
      (fun z => Some z).
Proof.
  revert i. induction s as [|ch t IH]; intro i.
  - simpl. now rewrite Nat.add_0_r.
  - cbn [greedy trimStart]. destruct (isSpace ch) eqn:E.
    + rewrite IH. pose proof (trimStart_length t) as L.
      replace (i + (List.length (ch :: t) - List.length (trimStart t)))%nat
        with (S i + (List.length t - List.length (trimStart t)))%nat
        by (cbn [List.length]; lia).
      destruct (m tail_re (mkState (S i + _) (trimStart t) None) _) eqn:T;
        [reflexivity|].
      cbn [orElse]. rewrite tail_re_spec in T |- *.
      destruct (trimStart t) as [|c' t'] eqn:Et; [discriminate|].
      destruct (forallb dot (c' :: t')) eqn:F; [discriminate|].
      rewrite <- Et in F. apply trimStart_dot in F.
      cbn [forallb]. rewrite F. now rewrite andb_false_r.
    + replace (i + (List.length (ch :: t) - List.length (ch :: t)))%nat with i by lia.
      reflexivity.
Qed.

Lemma exec_from_bol r i s : exec_from (Seq Bol r) (S i) s = None.
Proof.
  revert i. induction s as [|ch t IH]; intro i; simpl; [reflexivity|apply IH].
Qed.

Lemma regex_match_bol r s :
  regex_match s (Seq Bol r)
  = option_map capture1 (m r (mkState 0 s None) (fun y => Some y)).
Proof.
  unfold regex_match. destruct s as [|ch t]; simpl.
  - now destruct (m r _ _).
  - destruct (m r _ _); [reflexivity|]. now rewrite exec_from_bol.
Qed.

Lemma m_seq a b x k : m (Seq a b) x k = m a x (fun y => m b y k).
Proof. reflexivity. Qed.

Lemma regex_match_with_param nm body :
  regex_match body (re_with_param nm) = match_with_param nm body.
Proof.
  unfold re_with_param, match_with_param. fold tail_re.
  rewrite regex_match_bol, m_seq, m_lit.
  destruct (strip_prefix (js nm) body) as [rest0|]; [|reflexivity].
  rewrite m_seq, m_star_class, spaces_then_tail, tail_re_spec. unfold param_after.
  destruct (trimStart rest0) as [|c t]; [reflexivity|].
  now destruct (forallb dot (c :: t)).
Qed.

Lemma regex_match_bare nm body :
  regex_match body (re_bare nm) = match_bare nm body.
Proof.
  unfold re_bare, match_bare. rewrite regex_match_bol, m_seq, m_lit.
  destruct (strip_prefix (js nm) body) as [[|c t]|]; reflexivity.
Qed.

(** [parseCommand] without the matcher. *)
Lemma parseCommand_unfold body :
  parseCommand body
  = match match_with_param "/checkin" body with
    | Some cap => Some (mkCommand (js "checkin") (option_map trim cap))
    | None =>
    match match_with_param "/checkout" body with
    | Some cap => Some (mkCommand (js "checkout") (option_map trim cap))
    | None =>
    match match_bare "/status" body with
    | Some cap => Some (mkCommand (js "status") (option_map trim cap))
    | None =>
    match match_with_param "/vacation" body with
    | Some cap => Some (mkCommand (js "vacation") (option_map trim cap))
    | None => None
    end end end end.
Proof.
  unfold parseCommand, commands, first_match.
  now rewrite !regex_match_with_param, regex_match_bare.
Qed.

(** ** [parseCommand] without the matcher *)

Lemma clash_checkin_checkout rest :
  strip_prefix (js "/checkin") (js "/checkout" ++ rest) = None.
Proof. vm_compute. reflexivity. Qed.

Lemma clash_vacation rest :
  strip_prefix (js "/checkin") (js "/vacation" ++ rest) = None
  /\ strip_prefix (js "/checkout") (js "/vacation" ++ rest) = None
  /\ strip_prefix (js "/status") (js "/vacation" ++ rest) = None.
Proof. repeat split; vm_compute; reflexivity. Qed.

Lemma clash_status rest :
  strip_prefix (js "/checkin") (js "/status" ++ rest) = None
  /\ strip_prefix (js "/checkout") (js "/status" ++ rest) = None.
Proof. repeat split; vm_compute; reflexivity. Qed.

Lemma param_after_some rest cap :
  param_after rest = Some cap <->
  forallb dot (trimStart rest) = true
  /\ cap = match trimStart rest with [] => None | s => Some s end.
Proof.
  unfold param_after. destruct (trimStart rest) as [|c t] eqn:E.
  - simpl. intuition congruence.
  - destruct (forallb dot (c :: t)); split.
    + intros [= <-]. split; reflexivity.
    + intros [_ ->]. reflexivity.
    + discriminate.
    + intros [H _]. discriminate.
Qed.

Lemma trimmed_param rest :
  option_map trim (match trimStart rest with [] => None | s => Some s end)
  = match trimStart rest with [] => None | _ => Some (trim rest) end.
Proof.
  destruct (trimStart rest) as [|c t] eqn:E; [reflexivity|].
  simpl. unfold trim. rewrite <- E. now rewrite trimStart_idem.
Qed.

Lemma match_with_param_some nm body cap :
  match_with_param nm body = Some cap <->
  exists rest, body = js nm ++ rest /\ param_after rest = Some cap.
Proof.
  unfold match_with_param. split.
  - destruct (strip_prefix (js nm) body) as [rest0|] eqn:E; [|discriminate].
    intro H. exists rest0. split; [now apply strip_prefix_some | exact H].
  - intros (rest0 & -> & H). now rewrite strip_prefix_app.
Qed.

Lemma match_bare_some nm body cap :
  match_bare nm body = Some cap <-> body = js nm /\ cap = None.
Proof.
  unfold match_bare. split.
  - destruct (strip_prefix (js nm) body) as [[|c t]|] eqn:E; try discriminate.
    intros [= <-]. apply strip_prefix_some in E. rewrite app_nil_r in E. auto.
  - intros [-> ->]. rewrite <- (app_nil_r (js nm)) at 2. now rewrite strip_prefix_app.
Qed.

(** A body that carries text after the status token is not a command. *)
Lemma status_takes_no_parameter rest :
  rest <> [] -> parseCommand (js "/status" ++ rest) = None.
Proof.
  intro H. rewrite parseCommand_unfold. unfold match_with_param, match_bare.
  destruct (clash_status rest) as [-> ->]. rewrite strip_prefix_app.
  destruct rest as [|c t]; [contradiction|].
  vm_compute. reflexivity.
Qed.


(* ===================================================================== *)
(** * The adapters *)
(* ===================================================================== *)

Lemma jsstring_eqb_refl s : jsstring_eqb s s = true.
Proof. unfold jsstring_eqb. now destruct (list_eq_dec N.eq_dec s s). Qed.

Lemma jsstring_eqb_eq a b : jsstring_eqb a b = true <-> a = b.
Proof.
  unfold jsstring_eqb. destruct (list_eq_dec N.eq_dec a b); split; congruence.
Qed.

Lemma gets_fst {A : Type} (f : Db -> A) d a : fst (gets f d) = Ok a -> f d = a.
Proof. unfold gets. simpl. congruence. Qed.

Section AdapterProperties.

Variable hoursToFixed2 : Z -> jsstring.
Variable toLocaleTime : Time -> jsstring.
Variable prismaMessage : PrismaCode -> jsstring.
Variable axiosPost : jsstring -> jsstring -> jsstring -> outcome unit.

Lemma errorText_not_empty e : errorText prismaMessage e <> [].
Proof. unfold errorText. vm_compute. discriminate. Qed.

(** ** The handlers once the user and the organizations are resolved *)

Lemma slackCheckin_resolved w command now u o others :
  fst (findBySlackUserId (cmd_user_id command) (db w)) = Ok (Some u) ->
  fst (getUserOrganizations (user_id u) (db w)) = Ok (o :: others) ->
  slackCheckin prismaMessage command now w
  = let r := checkin (user_id u) (org_id o) (slackNote command) now (db w) in
    (Ok tt,
     mkWorld (snd r)
       (log w ++ [Ack; Respond (checkinReply prismaMessage
                                  (js "@" ++ cmd_user_name command)
                                  (slackNote command) (fst r))])).
Proof.
  intros Hu Ho. apply gets_fst in Hu. apply gets_fst in Ho.
  unfold slackCheckin, bind, try_catch, liftDb, respond, emit, modify,
    findBySlackUserId, getUserOrganizations, gets.
  cbn [db log fst snd]. rewrite Hu. cbn [db log fst snd]. rewrite Ho.
  cbn [db log fst snd].
  destruct (checkin _ _ _ _ _) as [[s|e] d']; cbn [db log fst snd checkinReply];
    rewrite <- ?app_assoc; reflexivity.
Qed.

Lemma slackCheckout_resolved w command now u o others :
  fst (findBySlackUserId (cmd_user_id command) (db w)) = Ok (Some u) ->
  fst (getUserOrganizations (user_id u) (db w)) = Ok (o :: others) ->
  slackCheckout hoursToFixed2 prismaMessage command now w
  = let r := checkout (user_id u) (org_id o) (slackNote command) now (db w) in
    (Ok tt,
     mkWorld (snd r)
       (log w ++ [Ack; Respond (checkoutReply hoursToFixed2 prismaMessage
                                  (js "@" ++ cmd_user_name command)
                                  (slackNote command) (fst r))])).
Proof.
  intros Hu Ho. apply gets_fst in Hu. apply gets_fst in Ho.
  unfold slackCheckout, bind, try_catch, liftDb, respond, emit, modify,
    findBySlackUserId, getUserOrganizations, gets.
  cbn [db log fst snd]. rewrite Hu. cbn [db log fst snd]. rewrite Ho.
  cbn [db log fst snd].
  destruct (checkout _ _ _ _ _) as [[s|e] d']; cbn [db log fst snd checkoutReply];
    rewrite <- ?app_assoc; reflexivity.
Qed.

Lemma slackStatus_resolved w command u o others :
  fst (findBySlackUserId (cmd_user_id command) (db w)) = Ok (Some u) ->
  fst (getUserOrganizations (user_id u) (db w)) = Ok (o :: others) ->
  slackStatus toLocaleTime prismaMessage command w
  = (Ok tt,
     mkWorld (db w)
       (log w ++ [Ack; Respond (statusReply toLocaleTime prismaMessage (js "@")
                                  (fst (getAllActiveSessions (org_id o) (db w))))])).
Proof.
  intros Hu Ho. apply gets_fst in Hu. apply gets_fst in Ho.
  unfold slackStatus, bind, try_catch, liftDb, respond, emit, modify,
    findBySlackUserId, getUserOrganizations, getAllActiveSessions, gets.
  cbn [db log fst snd]. rewrite Hu. cbn [db log fst snd]. rewrite Ho.
  cbn [db log fst snd]. cbn [statusReply].
  clear Ho. destruct (flat_map _ _) as [|x l]; cbn [db log fst snd];
    rewrite <- ?app_assoc; reflexivity.
Qed.

Lemma handleCheckin_resolved w account n now u o others :
  fst (findByChatworkUserId account (db w)) = Ok (Some u) ->
  fst (getUserOrganizations (user_id u) (db w)) = Ok (o :: others) ->
  handleCheckinCommand prismaMessage account n now w
  = let r := checkin (user_id u) (org_id o) n now (db w) in
    (Ok (checkinReply prismaMessage (user_name u) n (fst r)),
     mkWorld (snd r) (log w)).
Proof.
  intros Hu Ho. apply gets_fst in Hu. apply gets_fst in Ho.
  unfold handleCheckinCommand, bind, try_catch, liftDb, ret,
    findByChatworkUserId, getUserOrganizations, gets.
  cbn [db log fst snd]. rewrite Hu. cbn [db log fst snd]. rewrite Ho.
  cbn [db log fst snd].
  destruct (checkin _ _ _ _ _) as [[s|e] d']; cbn [fst snd checkinReply];
    reflexivity.
Qed.

Lemma handleCheckout_resolved w account n now u o others :
  fst (findByChatworkUserId account (db w)) = Ok (Some u) ->
  fst (getUserOrganizations (user_id u) (db w)) = Ok (o :: others) ->
  handleCheckoutCommand hoursToFixed2 prismaMessage account n now w
  = let r := checkout (user_id u) (org_id o) n now (db w) in
    (Ok (checkoutReply hoursToFixed2 prismaMessage (user_name u) n (fst r)),
     mkWorld (snd r) (log w)).
Proof.
  intros Hu Ho. apply gets_fst in Hu. apply gets_fst in Ho.
  unfold handleCheckoutCommand, bind, try_catch, liftDb, ret,
    findByChatworkUserId, getUserOrganizations, gets.
  cbn [db log fst snd]. rewrite Hu. cbn [db log fst snd]. rewrite Ho.
  cbn [db log fst snd].
  destruct (checkout _ _ _ _ _) as [[s|e] d']; cbn [fst snd checkoutReply];
    reflexivity.
Qed.

Lemma handleStatus_resolved w account u o others :
  fst (findByChatworkUserId account (db w)) = Ok (Some u) ->
  fst (getUserOrganizations (user_id u) (db w)) = Ok (o :: others) ->
  handleStatusCommand toLocaleTime prismaMessage account w
  = (Ok (statusReply toLocaleTime prismaMessage []
           (fst (getAllActiveSessions (org_id o) (db w)))),
     w).
Proof.
  intros Hu Ho. apply gets_fst in Hu. apply gets_fst in Ho.
  unfold handleStatusCommand, bind, try_catch, liftDb, ret,
    findByChatworkUserId, getUserOrganizations, getAllActiveSessions, gets.
  cbn [db log fst snd]. rewrite Hu. cbn [db log fst snd]. rewrite Ho.
  cbn [db log fst snd]. cbn [statusReply].
  destruct w as [d l]. cbn [db log].
  clear Ho. destruct (flat_map _ _) as [|x l0]; cbn [fst snd statusReply];
    reflexivity.
Qed.


(** ** Sessions of other organizations *)

Lemma checkin_others_untouched u o n now d :
  others_untouched o d (snd (checkin u o n now d)).
Proof.
  unfold others_untouched.
  destruct (checkin_cases u o n now d) as [[e ->]|(E & _ & _ & ->)]; [reflexivity|].
  - simpl.
    rewrite filter_app. simpl. unfold elsewhere at 2. simpl.
    rewrite N.eqb_refl. simpl. apply app_nil_r.
Qed.

Lemma filter_replace_row o a r l :
  (forall x, In x l -> id x = id a -> organizationId x = o) ->
  organizationId r = o ->
  filter (elsewhere o) (replace_row a r l) = filter (elsewhere o) l.
Proof.
  intros H Hr. unfold replace_row. rewrite filter_app. simpl.
  assert (Hr' : elsewhere o r = false)
    by (unfold elsewhere; rewrite Hr, N.eqb_refl; reflexivity).
  rewrite Hr', app_nil_r.
  induction l as [|x l IH]; simpl; [reflexivity|].
  rewrite <- IH by (intros y Hy; apply H; now right).
  destruct (id x =? id a)%N eqn:E; simpl; [|reflexivity].
  apply N.eqb_eq in E.
  assert (Hx : elsewhere o x = false)
    by (unfold elsewhere; rewrite (H x (or_introl eq_refl) E), N.eqb_refl; reflexivity).
  now rewrite Hx.
Qed.

Lemma checkout_others_untouched u o n now d :
  keys_ok d -> others_untouched o d (snd (checkout u o n now d)).
Proof.
  intro K. unfold others_untouched.
  destruct (find (isOpenFor u o) (workingSessions d)) as [a|] eqn:E.
  - destruct (find_some _ _ E) as [Hin Oa].
    apply isOpenFor_true in Oa. destruct Oa as (_ & Ho & _).
    destruct (checkout_open u o n now d a E) as (r & l' & U & ->).
    rewrite (update_row_unique (close_with a n now) a _ (proj1 K) Hin) in U.
    injection U as <- <-. simpl. apply filter_replace_row; [|exact Ho].
    intros x Hx Hid. replace x with a; [exact Ho|].
    destruct K as [ND _]. clear - ND Hin Hx Hid.
    induction (workingSessions d) as [|y l IH]; simpl in *; [tauto|].
    inversion ND as [|? ? Hnot ND']; subst.
    destruct Hin as [->|Hin], Hx as [->|Hx]; auto.
    + exfalso. apply Hnot. rewrite <- Hid. now apply in_map.
    + exfalso. apply Hnot. rewrite Hid. now apply in_map.
  - now rewrite (checkout_closed u o n now d E).
Qed.

Lemma getUserOrganizations_active u d l org :
  fst (getUserOrganizations u d) = Ok l -> In org l ->
  exists m,
    In m (memberships d) /\ mem_userId m = u /\ mem_status m = ACTIVE
    /\ mem_organizationId m = org_id org /\ In org (organizations d).
Proof.
  intros H Hin. apply gets_fst in H. subst l.
  apply in_flat_map in Hin. destruct Hin as (m0 & Hm & Ho).
  apply filter_In in Hm. destruct Hm as [Hm Hc].
  apply andb_true_iff in Hc. destruct Hc as [Hu Ha].
  apply N.eqb_eq in Hu.
  unfold findOrganization in Ho.
  destruct (find _ (organizations d)) as [x|] eqn:F; [|contradiction].
  destruct Ho as [<-|[]]. destruct (find_some _ _ F) as [Hx Hid].
  apply N.eqb_eq in Hid.
  exists m0. repeat split; auto.
  destruct (mem_status m0); simpl in Ha; congruence.
Qed.

(** C6: when the user belongs to several organizations, the checkin,
    checkout and status handlers of both adapters work on the first
    organization returned by getUserOrganizations (the ACTIVE memberships
    in table order): the handler runs the engine operation for (user,
    first organization) and replies with its outcome, the roster is that
    of the first organization, and the sessions of every other
    organization stay as they were. *)
Theorem first_organization_is_target
  (w : World) (u : User) (o : Organization) (others : list Organization)
  (now : Time) :
  fst (getUserOrganizations (user_id u) (db w)) = Ok (o :: others) ->
  (exists m,
      In m (memberships (db w)) /\ mem_userId m = user_id u
      /\ mem_status m = ACTIVE /\ mem_organizationId m = org_id o)
  /\ (forall command,
      fst (findBySlackUserId (cmd_user_id command) (db w)) = Ok (Some u) ->
      let who := js "@" ++ cmd_user_name command in
      let n := slackNote command in
      (let r := checkin (user_id u) (org_id o) n now (db w) in
       slackCheckin prismaMessage command now w
       = (Ok tt, mkWorld (snd r)
                   (log w ++ [Ack; Respond (checkinReply prismaMessage who n (fst r))])))
      /\ (let r := checkout (user_id u) (org_id o) n now (db w) in
          slackCheckout hoursToFixed2 prismaMessage command now w
          = (Ok tt, mkWorld (snd r)
                      (log w ++ [Ack; Respond (checkoutReply hoursToFixed2
                                                 prismaMessage who n (fst r))])))
      /\ slackStatus toLocaleTime prismaMessage command w
         = (Ok tt, mkWorld (db w)
                     (log w ++ [Ack; Respond
                       (statusReply toLocaleTime prismaMessage (js "@")
                          (fst (getAllActiveSessions (org_id o) (db w))))]))
      /\ others_untouched (org_id o) (db w)
           (db (snd (slackCheckin prismaMessage command now w)))
      /\ (keys_ok (db w) ->
          others_untouched (org_id o) (db w)
            (db (snd (slackCheckout hoursToFixed2 prismaMessage command now w)))))
  /\ (forall account n,
      fst (findByChatworkUserId account (db w)) = Ok (Some u) ->
      (let r := checkin (user_id u) (org_id o) n now (db w) in
       handleCheckinCommand prismaMessage account n now w
       = (Ok (checkinReply prismaMessage (user_name u) n (fst r)),
          mkWorld (snd r) (log w)))
      /\ (let r := checkout (user_id u) (org_id o) n now (db w) in
          handleCheckoutCommand hoursToFixed2 prismaMessage account n now w
          = (Ok (checkoutReply hoursToFixed2 prismaMessage (user_name u) n (fst r)),
             mkWorld (snd r) (log w)))
      /\ handleStatusCommand toLocaleTime prismaMessage account w
         = (Ok (statusReply toLocaleTime prismaMessage []
                  (fst (getAllActiveSessions (org_id o) (db w)))), w)
      /\ others_untouched (org_id o) (db w)
           (db (snd (handleCheckinCommand prismaMessage account n now w)))
      /\ (keys_ok (db w) ->
          others_untouched (org_id o) (db w)
            (db (snd (handleCheckoutCommand hoursToFixed2 prismaMessage
                        account n now w))))).
Proof.
  intro Ho. split; [|split].
  - destruct (getUserOrganizations_active _ _ _ o Ho (or_introl eq_refl))
      as (m0 & H1 & H2 & H3 & H4 & _).
    exists m0. auto.
  - intros command Hu who n.
    split; [exact (slackCheckin_resolved w command now u o others Hu Ho)|].
    split; [exact (slackCheckout_resolved w command now u o others Hu Ho)|].
    split; [exact (slackStatus_resolved w command u o others Hu Ho)|].
    split.
    + rewrite (slackCheckin_resolved w command now u o others Hu Ho).
      apply checkin_others_untouched.
    + intro K. rewrite (slackCheckout_resolved w command now u o others Hu Ho).
      now apply checkout_others_untouched.
  - intros account n Hu.
    split; [exact (handleCheckin_resolved w account n now u o others Hu Ho)|].
    split; [exact (handleCheckout_resolved w account n now u o others Hu Ho)|].
    split; [exact (handleStatus_resolved w account u o others Hu Ho)|].
    split.
    + rewrite (handleCheckin_resolved w account n now u o others Hu Ho).
      apply checkin_others_untouched.
    + intro K. rewrite (handleCheckout_resolved w account n now u o others Hu Ho).
      now apply checkout_others_untouched.
Qed.


(** ** Failures stay inside the adapters *)

Lemma throw_keeps_db (op : EngineOp) d e :
  fst (exec op d) = Throw e -> snd (exec op d) = d.
Proof.
  destruct op as [u o n now|u o n now]; simpl.
  { destruct (checkin_cases u o n now d) as [[e' ->]|(_ & _ & _ & ->)];
      [reflexivity | discriminate]. }
  destruct (find (isOpenFor u o) (workingSessions d)) as [a|] eqn:E.
  - destruct (checkout_open u o n now d a E) as (r & l' & _ & ->). discriminate.
  - now rewrite (checkout_closed u o n now d E).
Qed.

Lemma checkin_throw_db u o n now d e :
  fst (checkin u o n now d) = Throw e -> snd (checkin u o n now d) = d.
Proof. exact (throw_keeps_db (OpCheckin u o n now) d e). Qed.

Lemma checkout_throw_db u o n now d e :
  fst (checkout u o n now d) = Throw e -> snd (checkout u o n now d) = d.
Proof. exact (throw_keeps_db (OpCheckout u o n now) d e). Qed.

Lemma world_eta w : mkWorld (db w) (log w) = w.
Proof. now destruct w. Qed.

(** A handler of the form [try ... catch (error) { return text }] returns. *)
Lemma try_catch_ret_ok {A : Type} (c : M World A) (f : exn -> A) w :
  exists a w', try_catch c (fun e => ret (f e)) w = (Ok a, w').
Proof.
  unfold try_catch, ret. destruct (c w) as [[a|e] w']; eauto.
Qed.

Lemma silent_liftDb {A : Type} (c : M Db A) : silent (liftDb c).
Proof. intro w. unfold liftDb. now destruct (c (db w)). Qed.

Lemma silent_ret {A : Type} (a : A) : silent (@ret World A a).
Proof. intro w. reflexivity. Qed.

Lemma silent_bind {A B : Type} (c : M World A) (f : A -> M World B) :
  silent c -> (forall a, silent (f a)) -> silent (bind c f).
Proof.
  intros Hc Hf w. unfold bind. specialize (Hc w).
  destruct (c w) as [[a|e] w']; simpl in *; [|exact Hc].
  now rewrite Hf.
Qed.

Lemma silent_try_catch {A : Type} (c : M World A) (h : exn -> M World A) :
  silent c -> (forall e, silent (h e)) -> silent (try_catch c h).
Proof.
  intros Hc Hh w. unfold try_catch. specialize (Hc w).
  destruct (c w) as [[a|e] w']; simpl in *; [exact Hc|].
  now rewrite Hh.
Qed.

Ltac silence :=
  repeat first
    [ apply silent_try_catch | apply silent_bind | apply silent_liftDb
    | apply silent_ret
    | match goal with
      | |- forall _, silent _ => intro; cbv beta
      | |- silent (match ?x with _ => _ end) => destruct x
      end ].

Lemma dispatch_returns c account now w :
  exists text w',
    dispatch hoursToFixed2 toLocaleTime prismaMessage c account now w = (Ok text, w')
    /\ log w' = log w.
Proof.
  assert (S : silent (dispatch hoursToFixed2 toLocaleTime prismaMessage c account now)).
  { unfold dispatch, handleCheckinCommand, handleCheckoutCommand,
      handleStatusCommand, handleVacationCommand.
    repeat match goal with
           | |- silent (if ?b then _ else _) => destruct b
           end; silence. }
  assert (R : exists text w',
             dispatch hoursToFixed2 toLocaleTime prismaMessage c account now w
             = (Ok text, w')).
  { unfold dispatch.
    repeat match goal with
           | |- context [if ?b then _ else _] => destruct b
           end;
      try apply try_catch_ret_ok; unfold handleVacationCommand, ret; eauto. }
  destruct R as (text & w' & R). exists text, w'. split; [exact R|].
  specialize (S w). now rewrite R in S.
Qed.

Lemma sendChatworkMessage_log cfg roomId message w :
  sendChatworkMessage axiosPost cfg roomId message w
  = (Ok tt,
     mkWorld (db w)
       (log w
        ++ AxiosPost (js "https://api.chatwork.com/v2/rooms/" ++ roomId
                      ++ js "/messages") message (apiToken cfg)
        :: match axiosPost (js "https://api.chatwork.com/v2/rooms/" ++ roomId
                            ++ js "/messages") message (apiToken cfg) with
           | Ok _ => []
           | Throw _ => [ConsoleError]
           end)).
Proof.
  unfold sendChatworkMessage, try_catch, bind, emit, modify. cbn [db log].
  destruct (axiosPost _ _ _) as [[]|e]; cbn [db log].
  - reflexivity.
  - now rewrite <- app_assoc.
Qed.

(** The webhook on a recognized command. *)
Lemma handleWebhook_command cfg req now w c text w' :
  opt_eqb (tokenHeader req) (webhookToken cfg) = true ->
  webhook_event_type req = js "message_created" ->
  parseCommand (body (webhook_event req)) = Some c ->
  dispatch hoursToFixed2 toLocaleTime prismaMessage c
    (account_id (webhook_event req)) now w = (Ok text, w') ->
  text <> [] ->
  handleWebhook hoursToFixed2 toLocaleTime prismaMessage axiosPost cfg req now w
  = (Ok tt,
     mkWorld (db w')
       (log w' ++ chatworkAnswer axiosPost (apiToken cfg)
                    (room_id (webhook_event req)) text)).
Proof.
  intros Ht Hty Hp Hd Hne. unfold handleWebhook, try_catch.
  rewrite Ht, Hty, jsstring_eqb_refl, Hp. cbn [negb].
  unfold bind at 1. rewrite Hd.
  destruct text as [|ch t]; [contradiction|].
  unfold bind. rewrite sendChatworkMessage_log. unfold emit, modify.
  cbn [db log]. unfold chatworkAnswer.
  rewrite <- app_assoc. reflexivity.
Qed.

Lemma handleWebhook_returns cfg req now w :
  exists d' evs,
    handleWebhook hoursToFixed2 toLocaleTime prismaMessage axiosPost cfg req now w
    = (Ok tt, mkWorld d' (log w ++ evs))
    /\ (evs = [HttpResponse 401 (JsonError (js "Unauthorized"))]
        \/ evs = [HttpResponse 200 (JsonStatus (js "ignored"))]
        \/ evs = [HttpResponse 200 (JsonStatus (js "success"))]
        \/ exists text,
             evs = chatworkAnswer axiosPost (apiToken cfg)
                     (room_id (webhook_event req)) text).
Proof.
  destruct (opt_eqb (tokenHeader req) (webhookToken cfg)) eqn:Ht.
  2:{ exists (db w). eexists. split; [|left; reflexivity].
      unfold handleWebhook, try_catch. rewrite Ht. reflexivity. }
  destruct (jsstring_eqb (webhook_event_type req) (js "message_created")) eqn:Hty.
  2:{ exists (db w). eexists. split; [|right; left; reflexivity].
      unfold handleWebhook, try_catch. rewrite Ht, Hty. reflexivity. }
  destruct (parseCommand (body (webhook_event req))) as [c|] eqn:Hp.
  2:{ exists (db w). eexists. split; [|right; left; reflexivity].
      unfold handleWebhook, try_catch. rewrite Ht, Hty, Hp. reflexivity. }
  apply jsstring_eqb_eq in Hty.
  destruct (dispatch_returns c (account_id (webhook_event req)) now w)
    as (text & w' & Hd & Hl).
  destruct text as [|ch t].
  - exists (db w'). eexists. split; [|right; right; left; reflexivity].
    unfold handleWebhook, try_catch. rewrite Ht, Hty, jsstring_eqb_refl, Hp.
    cbn [negb]. unfold bind at 1. rewrite Hd. unfold bind, ret, emit, modify.
    cbn [db log]. now rewrite Hl.
  - exists (db w'). eexists. split; [|right; right; right; eexists; reflexivity].
    rewrite (handleWebhook_command cfg req now w c (ch :: t) w' Ht Hty Hp Hd)
      by discriminate.
    now rewrite Hl.
Qed.

Lemma slack_unit_ok (c : M World unit) (f : exn -> jsstring) w :
  fst ((emit Ack ;;; try_catch c (fun e => respond (f e))) w) = Ok tt.
Proof.
  unfold bind, emit, modify, try_catch, respond.
  destruct (c _) as [[[]|e] w']; reflexivity.
Qed.

(** A body that is no command: nothing is posted. *)
Lemma handleWebhook_no_command cfg req now w :
  parseCommand (body (webhook_event req)) = None ->
  exists code json,
    handleWebhook hoursToFixed2 toLocaleTime prismaMessage axiosPost cfg req now w
    = (Ok tt, mkWorld (db w) (log w ++ [HttpResponse code json])).
Proof.
  intro Hp. unfold handleWebhook, try_catch, emit, modify. rewrite Hp.
  destruct (opt_eqb _ _); cbn [negb]; [|eauto].
  destruct (jsstring_eqb _ _); cbn [negb]; eauto.
Qed.

(** C7: an error raised by the engine inside a checkin or checkout command
    is caught by the adapter and answered as text: the Slack handler has
    acknowledged the command and responds with the error text; the
    Chatwork webhook posts the error text to the room and answers HTTP
    200; the database is unchanged.  No handler ever throws, and the
    webhook never answers with a server error. *)
Theorem engine_errors_are_rendered :
  (forall w command now u o others e,
      fst (findBySlackUserId (cmd_user_id command) (db w)) = Ok (Some u) ->
      fst (getUserOrganizations (user_id u) (db w)) = Ok (o :: others) ->
      (fst (checkin (user_id u) (org_id o) (slackNote command) now (db w)) = Throw e ->
       slackCheckin prismaMessage command now w
       = (Ok tt, mkWorld (db w)
                   (log w ++ [Ack; Respond (errorText prismaMessage e)])))
      /\ (fst (checkout (user_id u) (org_id o) (slackNote command) now (db w)) = Throw e ->
          slackCheckout hoursToFixed2 prismaMessage command now w
          = (Ok tt, mkWorld (db w)
                      (log w ++ [Ack; Respond (errorText prismaMessage e)]))))
  /\ (forall w cfg req now n u o others e,
      opt_eqb (tokenHeader req) (webhookToken cfg) = true ->
      webhook_event_type req = js "message_created" ->
      fst (findByChatworkUserId (account_id (webhook_event req)) (db w)) = Ok (Some u) ->
      fst (getUserOrganizations (user_id u) (db w)) = Ok (o :: others) ->
      (parseCommand (body (webhook_event req)) = Some (mkCommand (js "checkin") n) ->
       fst (checkin (user_id u) (org_id o) n now (db w)) = Throw e ->
       handleWebhook hoursToFixed2 toLocaleTime prismaMessage axiosPost cfg req now w
       = (Ok tt, mkWorld (db w)
                   (log w ++ chatworkAnswer axiosPost (apiToken cfg)
                               (room_id (webhook_event req))
                               (errorText prismaMessage e))))
      /\ (parseCommand (body (webhook_event req)) = Some (mkCommand (js "checkout") n) ->
          fst (checkout (user_id u) (org_id o) n now (db w)) = Throw e ->
          handleWebhook hoursToFixed2 toLocaleTime prismaMessage axiosPost cfg req now w
          = (Ok tt, mkWorld (db w)
                      (log w ++ chatworkAnswer axiosPost (apiToken cfg)
                                  (room_id (webhook_event req))
                                  (errorText prismaMessage e)))))
  /\ (forall w command now,
      fst (slackCheckin prismaMessage command now w) = Ok tt
      /\ fst (slackCheckout hoursToFixed2 prismaMessage command now w) = Ok tt
      /\ fst (slackStatus toLocaleTime prismaMessage command w) = Ok tt)
  /\ (forall w cfg req now,
      exists d' evs,
        handleWebhook hoursToFixed2 toLocaleTime prismaMessage axiosPost cfg req now w
        = (Ok tt, mkWorld d' (log w ++ evs))
        /\ forall code json, In (HttpResponse code json) evs -> code = 200 \/ code = 401).
Proof.
  split; [|split; [|split]].
  - intros w command now u o others e Hu Ho. split; intro T.
    + rewrite (slackCheckin_resolved w command now u o others Hu Ho). cbv zeta.
      rewrite (checkin_throw_db _ _ _ _ _ e T), T. reflexivity.
    + rewrite (slackCheckout_resolved w command now u o others Hu Ho). cbv zeta.
      rewrite (checkout_throw_db _ _ _ _ _ e T), T. reflexivity.
  - intros w cfg req now n u o others e Ht Hty Hu Ho. split; intros Hp T.
    + rewrite (handleWebhook_command cfg req now w _ (errorText prismaMessage e) w
                 Ht Hty Hp); [reflexivity | | apply errorText_not_empty].
      unfold dispatch. cbn [name param]. rewrite jsstring_eqb_refl.
      rewrite (handleCheckin_resolved w _ n now u o others Hu Ho). cbv zeta.
      rewrite (checkin_throw_db _ _ _ _ _ e T), T.
      cbn [checkinReply]. now rewrite world_eta.
    + rewrite (handleWebhook_command cfg req now w _ (errorText prismaMessage e) w
                 Ht Hty Hp); [reflexivity | | apply errorText_not_empty].
      unfold dispatch. cbn [name param].
      replace (jsstring_eqb (js "checkout") (js "checkin")) with false
        by (vm_compute; reflexivity).
      rewrite jsstring_eqb_refl.
      rewrite (handleCheckout_resolved w _ n now u o others Hu Ho). cbv zeta.
      rewrite (checkout_throw_db _ _ _ _ _ e T), T.
      cbn [checkoutReply]. now rewrite world_eta.
  - intros w command now. repeat split; apply slack_unit_ok.
  - intros w cfg req now.
    destruct (handleWebhook_returns cfg req now w) as (d' & evs & E & H).
    exists d', evs. split; [exact E|]. intros code json Hin.
    destruct H as [->|[->|[->|[text ->]]]].
    + destruct Hin as [[= <- _]|[]]. now right.
    + destruct Hin as [[= <- _]|[]]. now left.
    + destruct Hin as [[= <- _]|[]]. now left.
    + unfold chatworkAnswer in Hin. simpl in Hin.
      destruct Hin as [Hin|Hin]; [discriminate|].
      apply in_app_or in Hin. destruct Hin as [Hin|[[= <- _]|[]]]; [|now left].
      destruct (axiosPost _ _ _); simpl in Hin; [tauto|].
      destruct Hin as [Hin|[]]. discriminate.
Qed.

End AdapterProperties.

(** ** Concrete runs of the adapters *)

Lemma sampleWorld_keys_ok : keys_ok (db sampleWorld).
Proof.
  split; simpl.
  - repeat constructor. simpl. tauto.
  - repeat constructor.
Defined.

Lemma first_organization_is_target_witness :
  fst (getUserOrganizations (user_id aoi) (db idleWorld)) = Ok [acme; beta]
  /\ slackCheckin plainPrisma sampleCommand 2000 idleWorld
     = (Ok tt,
        mkWorld (snd (checkin 1 10 (Some (js "back again")) 2000 (db idleWorld)))
          [Ack; Respond (js "@aoi さんがチェックインしました！" ++ newline
                         ++ js "> back again")])
  /\ handleStatusCommand plainTime plainPrisma (js "4242") sampleWorld
     = (Ok (statusReply plainTime plainPrisma []
              (fst (getAllActiveSessions 10 (db sampleWorld)))), sampleWorld)
  /\ others_untouched 10 (db sampleWorld)
       (db (snd (slackCheckout plainHours plainPrisma sampleCommand 2000 sampleWorld)))
  /\ others_untouched 10 (db sampleWorld)
       (db (snd (handleCheckoutCommand plainHours plainPrisma (js "4242") None
                   2000 sampleWorld))).
Proof.
  split; [reflexivity|].
  pose proof (first_organization_is_target plainHours plainTime plainPrisma
                idleWorld aoi acme [beta] 2000 eq_refl) as (_ & S & _).
  pose proof (first_organization_is_target plainHours plainTime plainPrisma
                sampleWorld aoi acme [beta] 2000 eq_refl) as (_ & S' & C).
  split; [|split; [|split]].
  - destruct (S sampleCommand eq_refl) as [E _]. rewrite E. reflexivity.
  - destruct (C (js "4242") None eq_refl) as (_ & _ & E & _). exact E.
  - destruct (S' sampleCommand eq_refl) as (_ & _ & _ & _ & K).
    exact (K sampleWorld_keys_ok).
  - destruct (C (js "4242") None eq_refl) as (_ & _ & _ & _ & K).
    exact (K sampleWorld_keys_ok).
Defined.

Lemma engine_errors_are_rendered_witness :
  slackCheckin plainPrisma sampleCommand 2000 sampleWorld
  = (Ok tt,
     mkWorld (db sampleWorld)
       (log sampleWorld ++ [Ack; Respond (errorText plainPrisma AlreadyCheckedIn)]))
  /\ slackCheckout plainHours plainPrisma sampleCommand 2000 idleWorld
     = (Ok tt,
        mkWorld (db idleWorld)
          (log idleWorld ++ [Ack; Respond (errorText plainPrisma NotCheckedIn)]))
  /\ handleWebhook plainHours plainTime plainPrisma postOk sampleConfig
       (sampleRequest (js "/checkin")) 2000 sampleWorld
     = (Ok tt,
        mkWorld (db sampleWorld)
          (log sampleWorld
           ++ chatworkAnswer postOk (js "api") (js "77")
                (errorText plainPrisma AlreadyCheckedIn)))
  /\ handleWebhook plainHours plainTime plainPrisma postOk sampleConfig
       (sampleRequest (js "/checkout bye")) 2000 idleWorld
     = (Ok tt,
        mkWorld (db idleWorld)
          (log idleWorld
           ++ chatworkAnswer postOk (js "api") (js "77")
                (errorText plainPrisma NotCheckedIn))).
Proof.
  pose proof (engine_errors_are_rendered plainHours plainTime plainPrisma postOk)
    as (S & C & _).
  split; [|split; [|split]].
  - apply (proj1 (S sampleWorld sampleCommand 2000 aoi acme [beta] AlreadyCheckedIn
                    eq_refl eq_refl)).
    reflexivity.
  - apply (proj2 (S idleWorld sampleCommand 2000 aoi acme [beta] NotCheckedIn
                    eq_refl eq_refl)).
    reflexivity.
  - apply (proj1 (C sampleWorld sampleConfig (sampleRequest (js "/checkin")) 2000
                    None aoi acme [beta] AlreadyCheckedIn
                    eq_refl eq_refl eq_refl eq_refl)).
    + vm_compute. reflexivity.
    + reflexivity.
  - apply (proj2 (C idleWorld sampleConfig (sampleRequest (js "/checkout bye")) 2000
                    (Some (js "bye")) aoi acme [beta] NotCheckedIn
                    eq_refl eq_refl eq_refl eq_refl)).
    + vm_compute. reflexivity.
    + reflexivity.
Defined.

(** ** What the command router recognizes *)

(** C5 (amended): parseCommand recognizes exactly the four names checkin,
    checkout, status and vacation, the token at the very start of the
    body.  After the token of checkin, checkout or vacation, white space
    is skipped and the remainder, which must stay on one line, is the
    parameter, trimmed (no parameter when nothing remains); status is
    recognized only when the body is exactly the token and has no
    parameter.  Every other body yields no command, and the webhook then
    posts nothing and leaves the database alone.  The three examples of
    the specification hold. *)
Theorem parseCommand_spec :
  parseCommand (js "/checkin working from home")
  = Some (mkCommand (js "checkin") (Some (js "working from home")))
  /\ parseCommand (js "/status") = Some (mkCommand (js "status") None)
  /\ parseCommand (js "hello") = None
  /\ (forall body c,
        parseCommand body = Some c <->
        (exists nm rest,
            In nm ["checkin"; "checkout"; "vacation"]%string
            /\ body = js "/" ++ js nm ++ rest
            /\ forallb dot (trimStart rest) = true
            /\ c = mkCommand (js nm)
                     (match trimStart rest with
                      | [] => None
                      | _ => Some (trim rest)
                      end))
        \/ (body = js "/status" /\ c = mkCommand (js "status") None))
  /\ (forall hoursToFixed2 toLocaleTime prismaMessage axiosPost cfg req now w,
        parseCommand (body (webhook_event req)) = None ->
        exists code json,
          handleWebhook hoursToFixed2 toLocaleTime prismaMessage axiosPost
            cfg req now w
          = (Ok tt, mkWorld (db w) (log w ++ [HttpResponse code json]))).
Proof.
  split; [vm_compute; reflexivity|].
  split; [vm_compute; reflexivity|].
  split; [vm_compute; reflexivity|].
  split; [|intros h t pm ax cfg req now w Hp;
           exact (handleWebhook_no_command h t pm ax cfg req now w Hp)].
  intros body c. rewrite parseCommand_unfold. split.
  - destruct (match_with_param "/checkin" body) as [cap|] eqn:E1.
    { intros [= <-]. apply match_with_param_some in E1.
      destruct E1 as (rest0 & -> & P). apply param_after_some in P.
      destruct P as [D ->]. left. exists "checkin"%string, rest0.
      rewrite trimmed_param. simpl In. auto. }
    destruct (match_with_param "/checkout" body) as [cap|] eqn:E2.
    { intros [= <-]. apply match_with_param_some in E2.
      destruct E2 as (rest0 & -> & P). apply param_after_some in P.
      destruct P as [D ->]. left. exists "checkout"%string, rest0.
      rewrite trimmed_param. simpl In. auto. }
    destruct (match_bare "/status" body) as [cap|] eqn:E3.
    { intros [= <-]. apply match_bare_some in E3. destruct E3 as [-> ->].
      right. auto. }
    destruct (match_with_param "/vacation" body) as [cap|] eqn:E4; [|discriminate].
    intros [= <-]. apply match_with_param_some in E4.
    destruct E4 as (rest0 & -> & P). apply param_after_some in P.
    destruct P as [D ->]. left. exists "vacation"%string, rest0.
    rewrite trimmed_param. simpl In. auto 6.
  - intros [(nm & rest0 & Hnm & -> & D & ->)|[-> ->]]; [|vm_compute; reflexivity].
    assert (P : param_after rest0
                = Some (match trimStart rest0 with [] => None | s => Some s end))
      by (now apply param_after_some).
    rewrite <- trimmed_param.
    destruct Hnm as [<-|[<-|[<-|[]]]].
    + change (js "/" ++ js "checkin" ++ rest0) with (js "/checkin" ++ rest0).
      unfold match_with_param at 1. now rewrite strip_prefix_app, P.
    + change (js "/" ++ js "checkout" ++ rest0) with (js "/checkout" ++ rest0).
      unfold match_with_param. rewrite clash_checkin_checkout.
      now rewrite strip_prefix_app, P.
    + change (js "/" ++ js "vacation" ++ rest0) with (js "/vacation" ++ rest0).
      unfold match_with_param, match_bare.
      destruct (clash_vacation rest0) as (-> & -> & ->).
      now rewrite strip_prefix_app, P.
Qed.

Lemma parseCommand_spec_witness :
  parseCommand (js "/vacation" ++ [10%N; 32%N] ++ js "tomorrow  ")
  = Some (mkCommand (js "vacation") (Some (js "tomorrow")))
  /\ exists code json,
       handleWebhook plainHours plainTime plainPrisma postOk sampleConfig
         (sampleRequest (js "hello")) 2000 sampleWorld
       = (Ok tt, mkWorld (db sampleWorld)
                   (log sampleWorld ++ [HttpResponse code json])).
Proof.
  destruct parseCommand_spec as (_ & _ & _ & H & I).
  split.
  - apply (proj2 (H (js "/vacation" ++ [10%N; 32%N] ++ js "tomorrow  ")
                    (mkCommand (js "vacation") (Some (js "tomorrow"))))).
    left. exists "vacation"%string, ([10%N; 32%N] ++ js "tomorrow  ").
    split; [simpl; auto|]. split; [reflexivity|]. split; reflexivity.
  - apply I. vm_compute. reflexivity.
Defined.

(** C5, as stated, fails: text after the status token is not taken as a
    parameter, the body is no command at all. *)
Lemma status_with_text_is_no_command :
  parseCommand (js "/status now") = None
  /\ parseCommand (js "/status now")
     <> Some (mkCommand (js "status") (Some (js "now"))).
Proof. split; vm_compute; [reflexivity | discriminate]. Qed.

(* ===================================================================== *)
(** * Users, organizations and memberships *)
(* ===================================================================== *)

Lemma existsb_false_find {A : Type} (p : A -> bool) (l : list A) :
  existsb p l = false -> find p l = None.
Proof.
  induction l as [|x l IH]; simpl; [reflexivity|].
  destruct (p x); simpl; [discriminate | exact IH].
Qed.

Lemma existsb_false_all {A : Type} (p : A -> bool) (l : list A) :
  existsb p l = false <-> (forall x, In x l -> p x = false).
Proof.
  split.
  - intros H x Hx. destruct (p x) eqn:E; [|reflexivity].
    assert (existsb p l = true) by (apply existsb_exists; eauto). congruence.
  - intro H. destruct (existsb p l) eqn:E; [|reflexivity].
    apply existsb_exists in E. destruct E as (x & Hx & Px).
    rewrite (H x Hx) in Px. discriminate.
Qed.

Lemma find_app_last {A : Type} (p : A -> bool) (l : list A) (x : A) :
  find p l = None -> p x = true -> find p (l ++ [x]) = Some x.
Proof.
  intros H Hx. rewrite (find_app_none _ p l [x] H). simpl. now rewrite Hx.
Qed.

Lemma find_app_some {A : Type} (p : A -> bool) (l1 l2 : list A) (x : A) :
  find p l1 = Some x -> find p (l1 ++ l2) = Some x.
Proof.
  induction l1 as [|y l1 IH]; simpl; [discriminate|].
  destruct (p y); [auto | exact IH].
Qed.

Lemma opt_eqb_true a b : opt_eqb a b = true <-> a = Some b.
Proof.
  destruct a as [x|]; simpl; [|split; discriminate].
  rewrite jsstring_eqb_eq. split; congruence.
Qed.

Lemma taken_false col v d :
  taken col v d = false <->
  (forall s, v = Some s -> forall x, In x (users d) -> col x <> Some s).
Proof.
  unfold taken. destruct v as [s|].
  - rewrite existsb_false_all. split.
    + intros H s' [= <-] x Hx E. apply opt_eqb_true in E.
      rewrite (H x Hx) in E. discriminate.
    + intros H x Hx. destruct (opt_eqb (col x) s) eqn:E; [|reflexivity].
      apply opt_eqb_true in E. exfalso. exact (H s eq_refl x Hx E).
  - split; [discriminate | reflexivity].
Qed.

(** ** createUser *)

Lemma createUser_cases nm email slack chatwork d :
  let clash :=
    (existsb (fun u => jsstring_eqb (user_email u) email) (users d)
     || taken slackUserId slack d || taken chatworkUserId chatwork d)%bool in
  createUser nm email slack chatwork d
  = if clash then (Failed UniqueConstraintFailed, d)
    else (Done (mkUser (nextId d) nm email slack chatwork),
          with_users d (users d ++ [mkUser (nextId d) nm email slack chatwork])
            (N.succ (nextId d))).
Proof. reflexivity. Qed.

(** X1: a user that createUser has stored is found again by the e-mail
    address and by each platform identity it was given. *)
Theorem createUser_then_find nm email slack chatwork d x d' :
  createUser nm email slack chatwork d = (Done x, d') ->
  In x (users d')
  /\ user_name x = nm
  /\ fst (findByEmail email d') = Done (Some x)
  /\ (forall s, slack = Some s -> fst (findBySlackUserId s d') = Ok (Some x))
  /\ (forall s, chatwork = Some s -> fst (findByChatworkUserId s d') = Ok (Some x)).
Proof.
  rewrite createUser_cases. cbv zeta.
  destruct (existsb _ (users d)) eqn:E1; [discriminate|].
  destruct (taken slackUserId slack d) eqn:E2; [discriminate|].
  destruct (taken chatworkUserId chatwork d) eqn:E3; [discriminate|].
  simpl orb. cbv iota. intros [= <- <-]. simpl.
  split; [apply in_or_app; right; now left|].
  split; [reflexivity|].
  split.
  - unfold findByEmail, wgets. simpl. f_equal.
    apply find_app_last; [now apply existsb_false_find|].
    simpl. apply jsstring_eqb_refl.
  - split; intros s ->.
    + unfold findBySlackUserId, gets. simpl. f_equal.
      apply find_app_last; [now apply existsb_false_find|].
      simpl. apply jsstring_eqb_refl.
    + unfold findByChatworkUserId, gets. simpl. f_equal.
      apply find_app_last; [now apply existsb_false_find|].
      simpl. apply jsstring_eqb_refl.
Qed.

Lemma createUser_then_find_witness :
  exists x d',
    createUser (js "Mio") (js "mio@example.com") (Some (js "U03")) None registry
    = (Done x, d')
    /\ fst (findBySlackUserId (js "U03") d') = Ok (Some x).
Proof.
  eexists. eexists. split; [reflexivity|].
  refine (proj1 (proj2 (proj2 (proj2 (createUser_then_find
            (js "Mio") (js "mio@example.com") (Some (js "U03")) None registry
            _ _ eq_refl)))) (js "U03") eq_refl).
Defined.

(** X2: an identity that createUser has stored cannot be stored again:
    after a successful createUser, a second createUser with the same
    e-mail address, or with the Slack or the Chatwork identity given to
    the first, fails and leaves the database as the first call left
    it. *)
Theorem createUser_rejects_duplicates nm email slack chatwork d x d' :
  createUser nm email slack chatwork d = (Done x, d') ->
  forall nm2 email2 slack2 chatwork2,
    email2 = email
    \/ (slack2 <> None /\ slack2 = slack)
    \/ (chatwork2 <> None /\ chatwork2 = chatwork) ->
    exists e, createUser nm2 email2 slack2 chatwork2 d' = (Failed e, d').
Proof.
  rewrite createUser_cases. cbv zeta.
  destruct (_ || _ || _)%bool; [discriminate|]. intros [= <- <-].
  intros nm2 email2 slack2 chatwork2 H.
  exists UniqueConstraintFailed. rewrite createUser_cases. cbv zeta.
  assert (C : (existsb (fun u => jsstring_eqb (user_email u) email2)
                 (users (with_users d
                           (users d ++ [mkUser (nextId d) nm email slack chatwork])
                           (N.succ (nextId d))))
               || taken slackUserId slack2
                    (with_users d
                       (users d ++ [mkUser (nextId d) nm email slack chatwork])
                       (N.succ (nextId d)))
               || taken chatworkUserId chatwork2
                    (with_users d
                       (users d ++ [mkUser (nextId d) nm email slack chatwork])
                       (N.succ (nextId d))))%bool = true).
  { assert (L : In (mkUser (nextId d) nm email slack chatwork)
                  (users d ++ [mkUser (nextId d) nm email slack chatwork]))
      by (apply in_or_app; right; now left).
    destruct H as [->|[[Hn ->]|[Hn ->]]].
    - apply orb_true_iff. left. apply orb_true_iff. left.
      apply existsb_exists. eexists. split; [exact L|].
      simpl. apply jsstring_eqb_refl.
    - apply orb_true_iff. left. apply orb_true_iff. right.
      destruct slack as [s|]; [|contradiction]. simpl.
      apply existsb_exists. eexists. split; [exact L|].
      simpl. apply jsstring_eqb_refl.
    - apply orb_true_iff. right.
      destruct chatwork as [s|]; [|contradiction]. simpl.
      apply existsb_exists. eexists. split; [exact L|].
      simpl. apply jsstring_eqb_refl. }
  now rewrite C.
Qed.

Lemma createUser_rejects_duplicates_witness :
  exists x d',
    createUser (js "Mio") (js "mio@example.com") (Some (js "U03")) None registry
    = (Done x, d')
    /\ (exists e, createUser (js "Mio 2") (js "mio@example.com") None None d'
                  = (Failed e, d'))
    /\ (exists e, createUser (js "Mio 3") (js "m3@example.com") (Some (js "U03")) None d'
                  = (Failed e, d')).
Proof.
  eexists. eexists. split; [reflexivity|]. split.
  - apply (createUser_rejects_duplicates
             (js "Mio") (js "mio@example.com") (Some (js "U03")) None registry
             _ _ eq_refl).
    left. reflexivity.
  - apply (createUser_rejects_duplicates
             (js "Mio") (js "mio@example.com") (Some (js "U03")) None registry
             _ _ eq_refl).
    right. left. split; [discriminate | reflexivity].
Defined.

Lemma NoDup_snoc {A : Type} (l : list A) (x : A) :
  NoDup l -> ~ In x l -> NoDup (l ++ [x]).
Proof.
  intros ND Hx. induction l as [|y l IH]; simpl.
  - repeat constructor. simpl. tauto.
  - inversion ND as [|? ? Hy ND']; subst. constructor.
    + intro H. apply in_app_or in H. destruct H as [H|[<-|[]]]; [tauto|].
      apply Hx. now left.
    + apply IH; [exact ND'|]. intro H. apply Hx. now right.
Qed.

Lemma find_unique_iff {A : Type} (p : A -> bool) (l : list A) (x : A) :
  (forall a b, In a l -> In b l -> p a = true -> p b = true -> a = b) ->
  (find p l = Some x <-> In x l /\ p x = true).
Proof.
  intro U. split; [apply find_some|].
  intros [Hx Px]. destruct (find p l) as [y|] eqn:F.
  - destruct (find_some _ _ F) as [Hy Py]. f_equal. now apply U.
  - rewrite (find_none _ _ F _ Hx) in Px. discriminate.
Qed.

(** X3: createUser keeps e-mail addresses and platform identities unique,
    and while they are unique the lookups by Slack and by Chatwork
    identity return a user exactly when that user carries the identity. *)
Theorem identities_stay_unique nm email slack chatwork d :
  identities_unique d ->
  identities_unique (snd (createUser nm email slack chatwork d))
  /\ (forall s x, fst (findBySlackUserId s d) = Ok (Some x)
                  <-> In x (users d) /\ slackUserId x = Some s)
  /\ (forall s x, fst (findByChatworkUserId s d) = Ok (Some x)
                  <-> In x (users d) /\ chatworkUserId x = Some s).
Proof.
  intros (He & Hs & Hc). split; [|split].
  - rewrite createUser_cases. cbv zeta.
    destruct (existsb _ (users d)) eqn:E1; [simpl; repeat split; assumption|].
    destruct (taken slackUserId slack d) eqn:E2; [simpl; repeat split; assumption|].
    destruct (taken chatworkUserId chatwork d) eqn:E3;
      [simpl; repeat split; assumption|].
    simpl. unfold identities_unique. simpl.
    rewrite existsb_false_all in E1.
    pose proof (proj1 (taken_false _ _ _) E2) as T2.
    pose proof (proj1 (taken_false _ _ _) E3) as T3.
    split; [|split].
    + rewrite map_app. simpl. apply NoDup_snoc; [exact He|].
      intro H. apply in_map_iff in H. destruct H as (x & Ex & Hx).
      specialize (E1 x Hx). simpl in E1.
      assert (jsstring_eqb (user_email x) email = true)
        by (now apply jsstring_eqb_eq).
      congruence.
    + intros x y s Hx Hy Sx Sy.
      apply in_app_or in Hx. apply in_app_or in Hy.
      destruct Hx as [Hx|[<-|[]]], Hy as [Hy|[<-|[]]]; simpl in *.
      * eauto.
      * exfalso. exact (T2 s Sy x Hx Sx).
      * exfalso. exact (T2 s Sx y Hy Sy).
      * reflexivity.
    + intros x y s Hx Hy Sx Sy.
      apply in_app_or in Hx. apply in_app_or in Hy.
      destruct Hx as [Hx|[<-|[]]], Hy as [Hy|[<-|[]]]; simpl in *.
      * eauto.
      * exfalso. exact (T3 s Sy x Hx Sx).
      * exfalso. exact (T3 s Sx y Hy Sy).
      * reflexivity.
  - intros s x. unfold findBySlackUserId, gets. simpl.
    split.
    + intros [= F]. destruct (find_some _ _ F) as [Hx Px].
      apply opt_eqb_true in Px. auto.
    + intros [Hx Sx]. f_equal. apply find_unique_iff.
      * intros a b Ha Hb Pa Pb. apply opt_eqb_true in Pa, Pb. eauto.
      * split; [exact Hx | now apply opt_eqb_true].
  - intros s x. unfold findByChatworkUserId, gets. simpl.
    split.
    + intros [= F]. destruct (find_some _ _ F) as [Hx Px].
      apply opt_eqb_true in Px. auto.
    + intros [Hx Sx]. f_equal. apply find_unique_iff.
      * intros a b Ha Hb Pa Pb. apply opt_eqb_true in Pa, Pb. eauto.
      * split; [exact Hx | now apply opt_eqb_true].
Qed.

Lemma registry_identities_unique : identities_unique registry.
Proof.
  split; [|split].
  - simpl. repeat constructor; simpl; intuition discriminate.
  - intros x y s [<-|[<-|[]]] [<-|[<-|[]]] H1 H2; try reflexivity;
      vm_compute in H1, H2; congruence.
  - intros x y s [<-|[<-|[]]] [<-|[<-|[]]] H1 H2; try reflexivity;
      vm_compute in H1, H2; congruence.
Defined.

Lemma identities_stay_unique_witness :
  identities_unique
    (snd (createUser (js "Mio") (js "mio@example.com") (Some (js "U03")) None registry))
  /\ fst (findBySlackUserId (js "U02") registry) = Ok (Some ren).
Proof.
  destruct (identities_stay_unique (js "Mio") (js "mio@example.com")
              (Some (js "U03")) None registry registry_identities_unique)
    as (H1 & H2 & _).
  split; [exact H1|]. apply H2. split; [simpl; auto | reflexivity].
Defined.

Lemma isPair_true u o m :
  isPair u o m = true <-> mem_userId m = u /\ mem_organizationId m = o.
Proof. unfold isPair. now rewrite andb_true_iff, !N.eqb_eq. Qed.

Lemma pairOf_eq m a :
  pairOf m = pairOf a <->
  mem_userId m = mem_userId a /\ mem_organizationId m = mem_organizationId a.
Proof. unfold pairOf. split; [intros [= H1 H2]; auto | intros [-> ->]; reflexivity]. Qed.

Lemma findOrganization_id d i org : findOrganization d i = Some org -> org_id org = i.
Proof.
  unfold findOrganization. intro F. destruct (find_some _ _ F) as [_ E].
  now apply N.eqb_eq in E.
Qed.

Lemma findUser_id d i x : findUser d i = Some x -> user_id x = i.
Proof.
  unfold findUser. intro F. destruct (find_some _ _ F) as [_ E].
  now apply N.eqb_eq in E.
Qed.

(** ** Invitations *)



(** X5: acceptInvitation makes the membership with the given key ACTIVE
    whatever its status was (INVITED, but also SUSPENDED or LEFT); from
    then on isUserMemberOfOrganization answers true for its pair and the
    organization is among the organizations of the user.  With no such
    membership it fails with the record-not-found error and changes
    nothing. *)
Theorem acceptInvitation_activates d m :
  memberships_unique d -> In m (memberships d) ->
  exists d',
    acceptInvitation (mem_id m) d = (Done (set_status ACTIVE m), d')
    /\ fst (isUserMemberOfOrganization (mem_userId m) (mem_organizationId m) d')
       = Done true
    /\ (forall org l,
          findOrganization d (mem_organizationId m) = Some org ->
          fst (getUserOrganizations (mem_userId m) d') = Ok l -> In org l)
    /\ users d' = users d /\ organizations d' = organizations d
    /\ workingSessions d' = workingSessions d
    /\ (forall i, (forall x, In x (memberships d) -> mem_id x <> i) ->
                  acceptInvitation i d = (Failed (Known RecordNotFound), d)).
Proof.
  intros [NDp NDi] Hm. unfold acceptInvitation, prisma_membership_update.
  assert (F : find (fun x => (mem_id x =? mem_id m)%N) (memberships d) = Some m).
  { apply find_unique_iff; [|split; [exact Hm | apply N.eqb_refl]].
    intros a b Ha Hb Pa Pb. apply N.eqb_eq in Pa, Pb.
    apply (NoDup_map_eq mem_id (memberships d)); auto. congruence. }
  rewrite (update_where_found _ (set_status ACTIVE) _ m F).
  eexists. split; [reflexivity|]. simpl.
  split; [|split; [|split; [|split; [|split]]]]; try reflexivity.
  - unfold isUserMemberOfOrganization, wgets. simpl.
    rewrite (find_rewritten_hit (isPair (mem_userId m) (mem_organizationId m))).
    + rewrite F. reflexivity.
    + intros x Hx Px.
      destruct (isPair (mem_userId m) (mem_organizationId m) x) eqn:E; [|reflexivity].
      apply isPair_true in E.
      assert (x = m).
      { apply (NoDup_map_eq pairOf (memberships d)); auto.
        now apply pairOf_eq. }
      subst x. rewrite N.eqb_refl in Px. discriminate.
    + intros x Hx Px. apply N.eqb_eq in Px.
      assert (x = m) by (apply (NoDup_map_eq mem_id (memberships d)); auto).
      subst x. now apply isPair_true.
  - intros org l Forg [= <-]. apply in_flat_map.
    exists (set_status ACTIVE m). split.
    + apply filter_In. split.
      * apply in_rewritten. right. exists m.
        split; [exact Hm|]. split; [apply N.eqb_refl | reflexivity].
      * simpl. now rewrite N.eqb_refl.
    + simpl. change (findOrganization _ (mem_organizationId m))
        with (findOrganization d (mem_organizationId m)).
      rewrite Forg. now left.
  - intros i Hi.
    assert (N0 : find (fun x => (mem_id x =? i)%N) (memberships d) = None).
    { apply find_none_iff. intros x Hx. apply N.eqb_neq. now apply Hi. }
    now rewrite (update_where_none _ (set_status ACTIVE) _ N0).
Qed.

Lemma registry_memberships_unique : memberships_unique registry.
Proof.
  split; simpl; repeat constructor; simpl; intuition discriminate.
Defined.

Lemma acceptInvitation_activates_witness :
  exists d',
    acceptInvitation 101 registry = (Done (set_status ACTIVE renInvite), d')
    /\ fst (isUserMemberOfOrganization 2 10 d') = Done true
    /\ acceptInvitation 7 registry = (Failed (Known RecordNotFound), registry).
Proof.
  destruct (acceptInvitation_activates registry renInvite
              registry_memberships_unique (or_intror (or_introl eq_refl)))
    as (d' & A & M & _ & _ & _ & _ & N).
  exists d'. split; [exact A|]. split; [exact M|].
  apply N. intros x [<-|[<-|[]]]; discriminate.
Defined.

(** ** Leaving, and changing roles *)

Lemma hasPair_update u o f d :
  hasPair u o d ->
  exists a,
    find (isPair u o) (memberships d) = Some a
    /\ In a (memberships d)
    /\ mem_userId a = u /\ mem_organizationId a = o
    /\ prisma_membership_update (isPair u o) f d
       = (Done (f a),
          with_memberships d
            (filter (fun x => negb (isPair u o x)) (memberships d)
             ++ map f (filter (isPair u o) (memberships d)))
            (nextId d)).
Proof.
  intros (m & Hm & Hu & Ho). unfold prisma_membership_update.
  destruct (find (isPair u o) (memberships d)) as [a|] eqn:F.
  - destruct (find_some _ _ F) as [Ha Pa]. apply isPair_true in Pa.
    destruct Pa as [Pu Po]. exists a.
    rewrite (update_where_found _ f _ a F). repeat split; auto.
  - exfalso. pose proof (find_none _ _ F m Hm) as E.
    rewrite (proj2 (isPair_true u o m) (conj Hu Ho)) in E. discriminate.
Qed.

Lemma not_hasPair_update u o f d :
  ~ hasPair u o d ->
  prisma_membership_update (isPair u o) f d = (Failed (Known RecordNotFound), d).
Proof.
  intro H. unfold prisma_membership_update.
  assert (N0 : find (isPair u o) (memberships d) = None).
  { apply find_none_iff. intros x Hx.
    destruct (isPair u o x) eqn:E; [|reflexivity].
    apply isPair_true in E. exfalso. apply H. exists x. tauto. }
  now rewrite (update_where_none _ f _ N0).
Qed.



Lemma classic_hasPair u o d : hasPair u o d \/ ~ hasPair u o d.
Proof.
  destruct (existsb (isPair u o) (memberships d)) eqn:E.
  - left. apply existsb_exists in E. destruct E as (m & Hm & Pm).
    apply isPair_true in Pm. exists m. tauto.
  - right. intros (m & Hm & Hu & Ho).
    rewrite existsb_false_all in E. specialize (E m Hm).
    assert (isPair u o m = true) by (now apply isPair_true). congruence.
Qed.

(** X7: inviteUserToOrganization fails with the unique-constraint error,
    changing nothing, exactly when a membership of the pair exists, in
    whatever status.  Since a removed member keeps a row with status LEFT,
    a removed user cannot be invited again. *)
Theorem removed_member_cannot_be_reinvited u o role d :
  (hasPair u o d
   <-> inviteUserToOrganization u o role d = (Failed UniqueConstraintFailed, d))
  /\ (forall d', removeUserFromOrganization o u d = (Done tt, d') ->
                 inviteUserToOrganization u o role d'
                 = (Failed UniqueConstraintFailed, d')).
Proof.
  assert (I : forall d0, hasPair u o d0 ->
                inviteUserToOrganization u o role d0
                = (Failed UniqueConstraintFailed, d0)).
  { intros d0 (m & Hm & Hu & Ho).
    unfold inviteUserToOrganization, prisma_membership_create.
    assert (E : existsb (isPair u o) (memberships d0) = true).
    { apply existsb_exists. exists m. split; [exact Hm|]. now apply isPair_true. }
    now rewrite E. }
  split; [split; [apply I|]|].
  - unfold inviteUserToOrganization, prisma_membership_create.
    destruct (existsb (isPair u o) (memberships d)) eqn:E.
    + intros _. apply existsb_exists in E. destruct E as (m & Hm & Pm).
      apply isPair_true in Pm. exists m. tauto.
    + destruct (isNull _ || isNull _)%bool; discriminate.
  - intros d' R. apply I.
    destruct (classic_hasPair u o d) as [H|H].
    + destruct (hasPair_update u o (set_status LEFT) d H)
        as (a & F & Ha & Hu & Ho & U).
      unfold removeUserFromOrganization, wbind, wret in R. rewrite U in R.
      injection R as <-. exists (set_status LEFT a). simpl.
      split; [|auto]. apply in_rewritten. right. exists a.
      split; [exact Ha|]. split; [now apply isPair_true | reflexivity].
    + unfold removeUserFromOrganization, wbind in R.
      rewrite (not_hasPair_update u o _ d H) in R. discriminate.
Qed.

Lemma removed_member_cannot_be_reinvited_witness :
  exists d',
    removeUserFromOrganization 10 1 registry = (Done tt, d')
    /\ inviteUserToOrganization 1 10 (Some ADMIN) d'
       = (Failed UniqueConstraintFailed, d').
Proof.
  eexists. split; [reflexivity|].
  apply (proj2 (removed_member_cannot_be_reinvited 1 10 (Some ADMIN) registry)).
  reflexivity.
Defined.

Lemma flat_map_ext_on {A B : Type} (f g : A -> list B) (l : list A) :
  (forall x, In x l -> f x = g x) -> flat_map f l = flat_map g l.
Proof.
  induction l as [|x l IH]; simpl; intro H; [reflexivity|].
  rewrite (H x (or_introl eq_refl)), IH; [reflexivity|].
  intros y Hy. apply H. now right.
Qed.






(** ** createOrganization *)

Lemma slugFree_existsb slug d :
  slugFree slug d
  <-> existsb (fun o => jsstring_eqb (org_slug o) slug) (organizations d) = false.
Proof.
  rewrite existsb_false_all. unfold slugFree. split; intros H o Ho.
  - destruct (jsstring_eqb (org_slug o) slug) eqn:E; [|reflexivity].
    apply jsstring_eqb_eq in E. exfalso. exact (H o Ho E).
  - intro E. apply jsstring_eqb_eq in E. rewrite (H o Ho) in E. discriminate.
Qed.

Lemma references_fresh d m :
  references_ok d -> In m (memberships d) -> mem_organizationId m <> nextId d.
Proof.
  intros [Hid Hm] Hin E. destruct (Hm m Hin) as [_ Ho].
  destruct (findOrganization d (mem_organizationId m)) as [o|] eqn:F;
    [|now apply Ho].
  pose proof (findOrganization_id _ _ _ F) as Ei.
  unfold findOrganization in F. destruct (find_some _ _ F) as [Hin' _].
  specialize (Hid o Hin'). rewrite Ei, E in Hid. lia.
Qed.

Lemma references_no_org d :
  references_ok d -> findOrganization d (nextId d) = None.
Proof.
  intros [Hid _]. unfold findOrganization. apply find_none_iff. intros o Ho.
  apply N.eqb_neq. specialize (Hid o Ho). lia.
Qed.

Lemma createOrganization_cases nm slug creator d :
  let org := mkOrganization (nextId d) nm slug in
  let d1 := with_organizations d (organizations d ++ [org]) (N.succ (nextId d)) in
  createOrganization nm slug creator d
  = if existsb (fun o => jsstring_eqb (org_slug o) slug) (organizations d)
    then (Failed UniqueConstraintFailed, d)
    else if existsb (isPair creator (nextId d)) (memberships d)
    then (Failed UniqueConstraintFailed, d)
    else if (isNull (findUser d creator) || isNull (findOrganization d1 (nextId d)))%bool
    then (Failed ForeignKeyConstraintFailed, d)
    else (Done org,
          with_memberships d1
            (memberships d ++ [mkMembership (N.succ (nextId d)) creator (nextId d)
                                 OWNER ACTIVE])
            (N.succ (N.succ (nextId d)))).
Proof.
  cbv zeta. unfold createOrganization, transaction, wbind, wret,
    prisma_organization_create, prisma_membership_create.
  destruct (existsb _ (organizations d)); [reflexivity|].
  cbn [org_id memberships with_organizations nextId].
  destruct (existsb (isPair creator (nextId d)) (memberships d)); [reflexivity|].
  change (findUser (with_organizations d _ _) creator) with (findUser d creator).
  destruct (isNull (findUser d creator) || _)%bool; reflexivity.
Qed.

(** X8: createOrganization, when the slug is free and the creator is a
    user, stores the organization and makes the creator its only member,
    an ACTIVE OWNER: the organization is found by its slug and by its
    key, isUserMemberOfOrganization answers true for the creator, and the
    organization is added at the end of the creator's organizations. *)
Theorem createOrganization_makes_owner nm slug creator d x :
  references_ok d -> slugFree slug d -> findUser d creator = Some x ->
  exists org d',
    createOrganization nm slug creator d = (Done org, d')
    /\ org_name org = nm /\ org_slug org = slug
    /\ fst (findBySlug slug d') = Done (Some org)
    /\ fst (findById (org_id org) d') = Done (Some org)
    /\ fst (isUserMemberOfOrganization creator (org_id org) d') = Done true
    /\ (exists m, fst (getOrganizationMembers (org_id org) d') = Done [(m, x)]
                  /\ mem_role m = OWNER /\ mem_status m = ACTIVE)
    /\ (forall l, fst (getUserOrganizations creator d) = Ok l ->
                  fst (getUserOrganizations creator d') = Ok (l ++ [org])).
Proof.
  intros R S U. rewrite createOrganization_cases. cbv zeta.
  rewrite (proj1 (slugFree_existsb slug d) S).
  assert (P : forall u, existsb (isPair u (nextId d)) (memberships d) = false).
  { intro u. apply existsb_false_all. intros m Hm.
    destruct (isPair u (nextId d) m) eqn:E; [|reflexivity].
    apply isPair_true in E. exfalso.
    exact (references_fresh d m R Hm (proj2 E)). }
  rewrite P.
  assert (F : findOrganization
                (with_organizations d
                   (organizations d ++ [mkOrganization (nextId d) nm slug])
                   (N.succ (nextId d))) (nextId d)
              = Some (mkOrganization (nextId d) nm slug)).
  { unfold findOrganization. simpl. apply find_app_last.
    - apply (references_no_org d R).
    - simpl. apply N.eqb_refl. }
  rewrite U, F. simpl orb. cbv iota.
  eexists. eexists. split; [reflexivity|]. simpl.
  split; [reflexivity|]. split; [reflexivity|].
  split; [|split; [|split; [|split]]].
  - unfold findBySlug, wgets. simpl. f_equal. apply find_app_last.
    + apply existsb_false_find. now apply slugFree_existsb.
    + simpl. apply jsstring_eqb_refl.
  - unfold findById, wgets. simpl. f_equal. exact F.
  - unfold isUserMemberOfOrganization, wgets. simpl.
    rewrite (find_app_last (isPair creator (nextId d)) (memberships d)
               (mkMembership (N.succ (nextId d)) creator (nextId d) OWNER ACTIVE));
      [reflexivity | apply existsb_false_find, P |].
    unfold isPair. simpl. now rewrite !N.eqb_refl.
  - exists (mkMembership (N.succ (nextId d)) creator (nextId d) OWNER ACTIVE).
    split; [|split; reflexivity].
    unfold getOrganizationMembers, wgets. simpl. rewrite filter_app. simpl.
    rewrite N.eqb_refl.
    assert (E : filter (fun m => (mem_organizationId m =? nextId d)%N) (memberships d)
                = []).
    { apply find_none_filter. apply find_none_iff. intros m Hm.
      apply N.eqb_neq. exact (references_fresh d m R Hm). }
    rewrite E. simpl. unfold withUser. simpl.
    change (findUser _ creator) with (findUser d creator). now rewrite U.
  - intros l [= <-]. unfold getUserOrganizations, gets.
    cbn [fst memberships with_memberships with_organizations].
    rewrite filter_app, flat_map_app. f_equal. f_equal.
    + apply flat_map_ext_on. intros m Hm. apply filter_In in Hm.
      destruct Hm as [Hm _]. destruct R as [_ Rm]. destruct (Rm m Hm) as [_ Ho].
      unfold findOrganization in *. cbn [organizations with_memberships
                                          with_organizations].
      destruct (find _ (organizations d)) as [o|] eqn:Fo; [|contradiction].
      now rewrite (find_app_some _ _ _ o Fo).
    + cbn [filter mem_userId mem_status isActive]. rewrite N.eqb_refl.
      cbn [andb flat_map mem_organizationId].
      change (findOrganization _ (nextId d))
        with (findOrganization
                (with_organizations d
                   (organizations d ++ [mkOrganization (nextId d) nm slug])
                   (N.succ (nextId d))) (nextId d)).
      rewrite F. reflexivity.
Qed.

Lemma registry_references_ok : references_ok registry.
Proof.
  split.
  - intros o [<-|[]]. simpl. lia.
  - intros m [<-|[<-|[]]]; split; vm_compute; discriminate.
Defined.

Lemma createOrganization_makes_owner_witness :
  exists org d',
    createOrganization (js "Gamma") (js "gamma") 2 registry = (Done org, d')
    /\ fst (findBySlug (js "gamma") d') = Done (Some org)
    /\ fst (isUserMemberOfOrganization 2 (org_id org) d') = Done true.
Proof.
  assert (S : slugFree (js "gamma") registry).
  { intros o [<-|[]]. vm_compute. discriminate. }
  destruct (createOrganization_makes_owner (js "Gamma") (js "gamma") 2 registry ren
              registry_references_ok S eq_refl)
    as (org & d' & C & _ & _ & F & _ & M & _).
  exists org, d'. split; [exact C|]. split; [exact F | exact M].
Defined.

(** X10: createOrganization is all or nothing.  Whenever it fails the
    database is exactly as before; in particular, when the slug is free
    but the creator is no user, the call fails with the foreign-key
    error and the organization created in the first step of the
    transaction is not kept.  A slug in use makes it fail with the
    unique-constraint error. *)
Theorem createOrganization_all_or_nothing nm slug creator d :
  (forall e d', createOrganization nm slug creator d = (Failed e, d') -> d' = d)
  /\ (~ slugFree slug d ->
      createOrganization nm slug creator d = (Failed UniqueConstraintFailed, d))
  /\ (references_ok d -> slugFree slug d -> findUser d creator = None ->
      createOrganization nm slug creator d = (Failed ForeignKeyConstraintFailed, d)
      /\ fst (findBySlug slug d) = Done None).
Proof.
  rewrite createOrganization_cases. cbv zeta. split; [|split].
  - intros e d'.
    destruct (existsb _ (organizations d)); [now intros [= _ <-]|].
    destruct (existsb _ (memberships d)); [now intros [= _ <-]|].
    destruct (_ || _)%bool; [now intros [= _ <-] | discriminate].
  - intro S. rewrite slugFree_existsb in S.
    destruct (existsb _ (organizations d)); [reflexivity | congruence].
  - intros R S U. rewrite (proj1 (slugFree_existsb slug d) S).
    assert (P : existsb (isPair creator (nextId d)) (memberships d) = false).
    { apply existsb_false_all. intros m Hm.
      destruct (isPair creator (nextId d) m) eqn:E; [|reflexivity].
      apply isPair_true in E. exfalso.
      exact (references_fresh d m R Hm (proj2 E)). }
    rewrite P, U. simpl. split; [reflexivity|].
    unfold findBySlug, wgets. simpl. f_equal.
    apply existsb_false_find. now apply slugFree_existsb.
Qed.

Lemma createOrganization_all_or_nothing_witness :
  createOrganization (js "Gamma") (js "gamma") 9 registry
  = (Failed ForeignKeyConstraintFailed, registry)
  /\ createOrganization (js "Acme 2") (js "acme") 1 registry
     = (Failed UniqueConstraintFailed, registry).
Proof.
  destruct (createOrganization_all_or_nothing (js "Gamma") (js "gamma") 9 registry)
    as (_ & _ & F).
  destruct (createOrganization_all_or_nothing (js "Acme 2") (js "acme") 1 registry)
    as (_ & U & _).
  split.
  - apply F; [exact registry_references_ok | | reflexivity].
    intros o [<-|[]]. vm_compute. discriminate.
  - apply U. intro S. apply (S acme); [simpl; auto | reflexivity].
Defined.

(** ** The views of membership agree *)

Lemma map_snd_flat_map {A B C : Type} (f : A -> list (B * C)) (l : list A) :
  map snd (flat_map f l) = flat_map (fun a => map snd (f a)) l.
Proof.
  induction l as [|x l IH]; simpl; [reflexivity|]. now rewrite map_app, IH.
Qed.

(** X11: the three ways of asking for membership agree.  With at most one
    membership per pair and memberships that point at existing rows,
    isUserMemberOfOrganization answers true for (user, organization)
    exactly when the organization is among getUserOrganizations of the
    user, and exactly when the user is among
    getActiveOrganizationMembers of the organization; and
    getUserMemberships lists the same organizations, in the same order,
    as getUserOrganizations. *)
Theorem membership_views_agree d u o :
  memberships_unique d -> references_ok d ->
  (fst (isUserMemberOfOrganization u o d) = Done true
   <-> exists l org, fst (getUserOrganizations u d) = Ok l
                     /\ In org l /\ org_id org = o)
  /\ (fst (isUserMemberOfOrganization u o d) = Done true
      <-> exists l m x, fst (getActiveOrganizationMembers o d) = Done l
                        /\ In (m, x) l /\ user_id x = u)
  /\ (exists l, fst (getUserMemberships u d) = Done l
                /\ fst (getUserOrganizations u d) = Ok (map snd l)).
Proof.
  intros [NDp _] [_ Rm].
  assert (A : fst (isUserMemberOfOrganization u o d) = Done true
              <-> exists m, In m (memberships d) /\ mem_userId m = u
                            /\ mem_organizationId m = o /\ mem_status m = ACTIVE).
  { unfold isUserMemberOfOrganization, wgets. simpl. split.
    - destruct (find (isPair u o) (memberships d)) as [m|] eqn:F; [|discriminate].
      intros [= Ha]. destruct (find_some _ _ F) as [Hm Pm].
      apply isPair_true in Pm. exists m. repeat split; try tauto.
      destruct (mem_status m); simpl in Ha; congruence.
    - intros (m & Hm & Hu & Ho & Hs).
      assert (F : find (isPair u o) (memberships d) = Some m).
      { apply find_unique_iff.
        - intros a b Ha Hb Pa Pb. apply isPair_true in Pa, Pb.
          apply (NoDup_map_eq pairOf (memberships d)); auto.
          apply pairOf_eq. split; destruct Pa, Pb; congruence.
        - split; [exact Hm|]. now apply isPair_true. }
      rewrite F, Hs. reflexivity. }
  split; [|split].
  - rewrite A. unfold getUserOrganizations, gets. simpl. split.
    + intros (m & Hm & Hu & Ho & Hs). destruct (Rm m Hm) as [_ Hor].
      destruct (findOrganization d (mem_organizationId m)) as [org|] eqn:F;
        [|contradiction].
      eexists. exists org. split; [reflexivity|]. split.
      * apply in_flat_map. exists m. split.
        -- apply filter_In. split; [exact Hm|].
           rewrite Hu, Hs, N.eqb_refl. reflexivity.
        -- rewrite F. now left.
      * rewrite <- Ho. now apply (findOrganization_id d).
    + intros (l & org & [= <-] & Hin & Eo).
      apply in_flat_map in Hin. destruct Hin as (m & Hm & Hor).
      apply filter_In in Hm. destruct Hm as [Hm Pm].
      apply andb_true_iff in Pm. destruct Pm as [Pu Pa]. apply N.eqb_eq in Pu.
      destruct (findOrganization d (mem_organizationId m)) as [org'|] eqn:F;
        [|contradiction].
      destruct Hor as [<-|[]]. apply findOrganization_id in F.
      exists m. repeat split; try congruence.
      destruct (mem_status m); simpl in Pa; congruence.
  - rewrite A. unfold getActiveOrganizationMembers, wgets. simpl. split.
    + intros (m & Hm & Hu & Ho & Hs). destruct (Rm m Hm) as [Hus _].
      destruct (findUser d (mem_userId m)) as [x|] eqn:F; [|contradiction].
      eexists. exists m, x. split; [reflexivity|]. split.
      * apply in_flat_map. exists m. split.
        -- apply filter_In. split; [exact Hm|].
           rewrite Ho, Hs, N.eqb_refl. reflexivity.
        -- unfold withUser. rewrite F. now left.
      * rewrite <- Hu. now apply (findUser_id d).
    + intros (l & m & x & [= <-] & Hin & Eu).
      apply in_flat_map in Hin. destruct Hin as (m' & Hm & Hx).
      apply filter_In in Hm. destruct Hm as [Hm Pm].
      apply andb_true_iff in Pm. destruct Pm as [Po Pa]. apply N.eqb_eq in Po.
      unfold withUser in Hx.
      destruct (findUser d (mem_userId m')) as [x'|] eqn:F; [|contradiction].
      destruct Hx as [[= <- <-]|[]]. apply findUser_id in F.
      exists m'. repeat split; try congruence.
      destruct (mem_status m'); simpl in Pa; congruence.
  - eexists. split; [reflexivity|].
    unfold getUserOrganizations, gets. simpl. f_equal.
    rewrite map_snd_flat_map. apply flat_map_ext_on. intros m _.
    now destruct (findOrganization d (mem_organizationId m)).
Qed.

Lemma membership_views_agree_witness :
  fst (isUserMemberOfOrganization 1 10 registry) = Done true
  /\ ~ (exists l m x, fst (getActiveOrganizationMembers 10 registry) = Done l
                      /\ In (m, x) l /\ user_id x = 2%N).
Proof.
  destruct (membership_views_agree registry 1 10
              registry_memberships_unique registry_references_ok) as (H & _).
  destruct (membership_views_agree registry 2 10
              registry_memberships_unique registry_references_ok) as (_ & H' & _).
  split.
  - apply H. eexists. exists acme. split; [reflexivity|]. simpl. auto.
  - intro E. apply H' in E. discriminate.
Defined.

(** ** updateOrganization *)

(** X12: updateOrganization on an existing organization: a slug that
    another organization carries makes it fail with the unique-constraint
    error, changing nothing; otherwise only the fields given are written,
    the patched row is what findById returns and what findBySlug returns
    for a new slug, and memberships are not touched; with no field given
    the database is left as it is.  On an unknown key it fails with the
    record-not-found error. *)
Theorem updateOrganization_spec d i nm slug o :
  findOrganization d i = Some o ->
  ((exists o' s, In o' (organizations d) /\ org_id o' <> i
                 /\ slug = Some s /\ org_slug o' = s) ->
   updateOrganization i nm slug d = (Failed UniqueConstraintFailed, d))
  /\ ((forall o' s, In o' (organizations d) -> org_id o' <> i ->
                    slug = Some s -> org_slug o' <> s) ->
      exists d',
        updateOrganization i nm slug d = (Done (patch_organization nm slug o), d')
        /\ fst (findById i d') = Done (Some (patch_organization nm slug o))
        /\ (forall s, slug = Some s ->
                      fst (findBySlug s d') = Done (Some (patch_organization nm slug o)))
        /\ memberships d' = memberships d /\ users d' = users d)
  /\ updateOrganization i None None d = (Done o, d)
  /\ (forall j, findOrganization d j = None ->
                updateOrganization j nm slug d = (Failed (Known RecordNotFound), d)).
Proof.
  intro F. unfold updateOrganization. rewrite F.
  pose proof F as F0. unfold findOrganization in F0.
  destruct (find_some _ _ F0) as [Hin Eo].
  pose proof (update_where_found _ (patch_organization nm slug) _ o F0) as U.
  split; [|split; [|split]].
  - intros (o' & s & Ho' & Hi & -> & Es).
    assert (C : existsb (fun x => negb (org_id x =? i)%N && jsstring_eqb (org_slug x) s)%bool
                  (organizations d) = true).
    { apply existsb_exists. exists o'. split; [exact Ho'|].
      apply andb_true_iff. split.
      - apply negb_true_iff. now apply N.eqb_neq.
      - now apply jsstring_eqb_eq. }
    rewrite C. now destruct nm.
  - intro Hfree.
    assert (C : match slug with
                | Some s =>
                  existsb (fun x => negb (org_id x =? i)%N
                                    && jsstring_eqb (org_slug x) s)%bool
                    (organizations d)
                | None => false
                end = false).
    { destruct slug as [s|]; [|reflexivity]. apply existsb_false_all.
      intros x Hx. destruct (org_id x =? i)%N eqn:E; [reflexivity|]. simpl.
      apply N.eqb_neq in E.
      destruct (jsstring_eqb (org_slug x) s) eqn:E'; [|reflexivity].
      apply jsstring_eqb_eq in E'. exfalso. exact (Hfree x s Hx E eq_refl E'). }
    assert (W : exists d',
               (if match slug with
                   | Some s =>
                     existsb (fun x => negb (org_id x =? i)%N
                                       && jsstring_eqb (org_slug x) s)%bool
                       (organizations d)
                   | None => false
                   end
                then (Failed UniqueConstraintFailed, d)
                else
                  match update_where (fun x => (org_id x =? i)%N)
                          (patch_organization nm slug) (organizations d) with
                  | Some (r, l) => (Done r, with_organizations d l (nextId d))
                  | None => (Failed (Known RecordNotFound), d)
                  end)
               = (Done (patch_organization nm slug o), d')
               /\ fst (findById i d') = Done (Some (patch_organization nm slug o))
               /\ (forall s, slug = Some s ->
                     fst (findBySlug s d')
                     = Done (Some (patch_organization nm slug o)))
               /\ memberships d' = memberships d /\ users d' = users d).
    { rewrite C, U. eexists. split; [reflexivity|]. simpl.
      split; [|split; [|split; reflexivity]].
      - unfold findById, wgets, findOrganization. simpl. f_equal.
        rewrite (find_rewritten_hit (fun x => (org_id x =? i)%N)).
        + now rewrite F0.
        + intros x _ Px. exact Px.
        + intros x _ Px. exact Px.
      - intros s ->. unfold findBySlug, wgets. simpl. f_equal.
        rewrite (find_rewritten_hit (fun x => jsstring_eqb (org_slug x) s)).
        + now rewrite F0.
        + intros x Hx Px.
          destruct (jsstring_eqb (org_slug x) s) eqn:E'; [|reflexivity].
          apply jsstring_eqb_eq in E'. exfalso.
          apply (Hfree x s); auto. now apply N.eqb_neq.
        + intros x _ _. simpl. apply jsstring_eqb_refl. }
    destruct nm as [x|]; [exact W|]. destruct slug as [s|]; [exact W|].
    exists d. unfold findById, wgets. simpl. rewrite F.
    assert (E : patch_organization None None o = o) by (now destruct o).
    rewrite E. repeat split. intros s Hs. discriminate.
  - reflexivity.
  - intros j Fj. now rewrite Fj.
Qed.

Lemma updateOrganization_spec_witness :
  (exists d',
      updateOrganization 10 None (Some (js "acme-inc")) registry
      = (Done (mkOrganization 10 (js "Acme") (js "acme-inc")), d')
      /\ fst (findBySlug (js "acme-inc") d')
         = Done (Some (mkOrganization 10 (js "Acme") (js "acme-inc"))))
  /\ updateOrganization 77 (Some (js "x")) None registry
     = (Failed (Known RecordNotFound), registry).
Proof.
  destruct (updateOrganization_spec registry 10 None (Some (js "acme-inc")) acme
              eq_refl) as (_ & S & _ & _).
  destruct (updateOrganization_spec registry 10 (Some (js "x")) None acme
              eq_refl) as (_ & _ & _ & N).
  split.
  - destruct S as (d' & U & _ & B & _).
    + intros o' s [<-|[]] Hi. exfalso. now apply Hi.
    + exists d'. split; [exact U|]. now apply B.
  - apply N. reflexivity.
Defined.

(* ===================================================================== *)
(** * The roster of open sessions *)
(* ===================================================================== *)

Lemma NoDup_map_filter {A K : Type} (key : A -> K) (g : A -> bool) (l : list A) :
  NoDup (map key l) -> NoDup (map key (filter g l)).
Proof.
  induction l as [|x l IH]; simpl; intro ND; [constructor|].
  inversion ND as [|? ? Hx ND']; subst.
  destruct (g x); simpl; [|auto]. constructor; [|auto].
  intro H. apply Hx. apply in_map_iff in H. destruct H as (y & E & Hy).
  apply filter_In in Hy. rewrite <- E. apply in_map. tauto.
Qed.

Lemma roster_users d (l : list WorkingSession) :
  map (fun r : WorkingSession * User => userId (fst r))
    (flat_map (fun s => match findUser d (userId s) with
                        | Some x => [(s, x)]
                        | None => []
                        end) l)
  = map userId (filter (fun s => negb (isNull (findUser d (userId s)))) l).
Proof.
  induction l as [|s l IH]; simpl; [reflexivity|].
  destruct (findUser d (userId s)); simpl; now rewrite IH.
Qed.

Lemma open_users_distinct o (l : list WorkingSession) :
  (forall u, (openCount u o l <= 1)%nat) ->
  NoDup (map userId
           (filter (fun s => (organizationId s =? o)%N && isNull (checkoutAt s))%bool l)).
Proof.
  induction l as [|x l IH]; simpl; intro H; [constructor|].
  assert (H' : forall u, (openCount u o l <= 1)%nat).
  { intro u. specialize (H u). unfold openCount in *. simpl in H.
    destruct (isOpenFor u o x); simpl in H; lia. }
  destruct ((organizationId x =? o)%N && isNull (checkoutAt x))%bool eqn:E;
    [|auto].
  simpl. constructor; [|auto].
  intro Hin. apply in_map_iff in Hin. destruct Hin as (y & Ey & Hy).
  apply filter_In in Hy. destruct Hy as [Hy Py].
  specialize (H (userId x)). unfold openCount in H. simpl in H.
  assert (Ox : isOpenFor (userId x) o x = true).
  { unfold isOpenFor. rewrite N.eqb_refl. exact E. }
  assert (Oy : isOpenFor (userId x) o y = true).
  { unfold isOpenFor. rewrite Ey, N.eqb_refl. exact Py. }
  rewrite Ox in H. simpl in H.
  assert (In y (filter (isOpenFor (userId x) o) l)) by (apply filter_In; auto).
  destruct (filter (isOpenFor (userId x) o) l); simpl in *; [tauto | lia].
Qed.

(** X13: getAllActiveSessions lists exactly the open sessions of the
    organization whose user exists, each with that user, without touching
    the database; and while every pair has at most one open session no
    user is listed twice. *)
Theorem roster_spec d o :
  exists l,
    getAllActiveSessions o d = (Ok l, d)
    /\ (forall s x, In (s, x) l <->
                    In s (workingSessions d) /\ organizationId s = o
                    /\ checkoutAt s = None /\ findUser d (userId s) = Some x)
    /\ (open_invariant d ->
        NoDup (map (fun r : WorkingSession * User => userId (fst r)) l)).
Proof.
  eexists. split; [reflexivity|]. split.
  - intros s x. rewrite in_flat_map. split.
    + intros (s' & Hs & Hx). apply filter_In in Hs. destruct Hs as [Hs Ps].
      apply andb_true_iff in Ps. destruct Ps as [Po Pc]. apply N.eqb_eq in Po.
      destruct (findUser d (userId s')) as [x'|] eqn:F; [|contradiction].
      destruct Hx as [[= <- <-]|[]]. repeat split; auto.
      now destruct (checkoutAt s').
    + intros (Hs & Ho & Hc & F). exists s. split.
      * apply filter_In. split; [exact Hs|].
        rewrite Ho, Hc, N.eqb_refl. reflexivity.
      * rewrite F. now left.
  - intro Inv. rewrite roster_users. apply NoDup_map_filter.
    apply open_users_distinct. intro u. apply Inv.
Qed.

Lemma roster_spec_witness :
  exists l,
    getAllActiveSessions 10 (db sampleWorld) = (Ok l, db sampleWorld)
    /\ In (aoiOpen, aoi) l
    /\ NoDup (map (fun r : WorkingSession * User => userId (fst r)) l).
Proof.
  destruct (roster_spec (db sampleWorld) 10) as (l & E & H & N).
  exists l. split; [exact E|]. split.
  - apply H. simpl. repeat split; auto.
  - apply N. intros u o. unfold openCount. simpl.
    destruct (isOpenFor u o aoiOpen); simpl; lia.
Defined.

(** ** The roster after a checkin and after a checkout *)

Lemma checkout_success_shape u o n now d r d' :
  keys_ok d -> checkout u o n now d = (Ok r, d') ->
  exists a,
    find (isOpenFor u o) (workingSessions d) = Some a
    /\ r = close_with a n now a
    /\ d' = with_sessions d (replace_row a r (workingSessions d)) (nextId d).
Proof.
  intros K C. destruct (find (isOpenFor u o) (workingSessions d)) as [a|] eqn:F.
  - destruct (find_some _ _ F) as [Hin _].
    destruct (checkout_open u o n now d a F) as (r0 & l' & U & C').
    rewrite (update_row_unique (close_with a n now) a _ (proj1 K) Hin) in U.
    injection U as <- <-. rewrite C' in C. injection C as <- <-.
    exists a. auto.
  - rewrite (checkout_closed u o n now d F) in C. discriminate.
Qed.

(** X14: the roster follows the engine.  A successful checkin of an
    existing user adds the new session, with the user, at the end of the
    roster of the organization and leaves the other rosters alone; after
    a successful checkout (sessions keyed uniquely, at most one open
    session per pair) the roster of the organization is the former roster
    without the entries of that user. *)
Theorem roster_follows_the_engine d u o n now :
  (forall row d' x,
      checkin u o n now d = (Ok row, d') -> findUser d u = Some x ->
      (forall l, fst (getAllActiveSessions o d) = Ok l ->
                 fst (getAllActiveSessions o d') = Ok (l ++ [(row, x)]))
      /\ (forall o', o' <> o ->
                     fst (getAllActiveSessions o' d') = fst (getAllActiveSessions o' d)))
  /\ (forall r d',
        keys_ok d -> open_invariant d ->
        checkout u o n now d = (Ok r, d') ->
        forall l l',
          fst (getAllActiveSessions o d) = Ok l ->
          fst (getAllActiveSessions o d') = Ok l' ->
          forall s x, In (s, x) l' <-> In (s, x) l /\ userId s <> u).
Proof.
  split.
  - intros row d' x C U.
    destruct (checkin_cases u o n now d) as [[e C']|(F & _ & _ & C')];
      rewrite C' in C; [discriminate|]. injection C as <- <-.
    split.
    + intros l [= <-]. unfold getAllActiveSessions, gets. simpl.
      rewrite filter_app, flat_map_app. simpl. rewrite N.eqb_refl. simpl.
      change (findUser _ u) with (findUser d u). rewrite U. reflexivity.
    + intros o' Ho'. unfold getAllActiveSessions, gets. simpl.
      rewrite filter_app, flat_map_app. simpl.
      assert (E : (o =? o')%N = false) by (apply N.eqb_neq; congruence).
      rewrite E. simpl. now rewrite app_nil_r.
  - intros r d' K Inv C l l' El El' s x.
    destruct (checkout_success_shape u o n now d r d' K C) as (a & F & -> & ->).
    destruct (roster_spec d o) as (l0 & E0 & H0 & _).
    rewrite E0 in El. simpl in El. injection El as <-.
    destruct (roster_spec
                (with_sessions d
                   (replace_row a (close_with a n now a) (workingSessions d))
                   (nextId d)) o) as (l1 & E1 & H1 & _).
    rewrite E1 in El'. simpl in El'. injection El' as <-.
    rewrite H0, H1. simpl.
    change (findUser (with_sessions d _ _) (userId s)) with (findUser d (userId s)).
    destruct (find_some _ _ F) as [Ha Oa].
    pose proof (proj1 (isOpenFor_true _ _ _) Oa) as (Au & Ao & Ac).
    split.
    + intros (Hs & Ho & Hc & Fu).
      unfold replace_row in Hs. apply in_app_or in Hs.
      destruct Hs as [Hs|[<-|[]]]; [|simpl in Hc; discriminate].
      apply filter_In in Hs. destruct Hs as [Hy E]. apply negb_true_iff in E.
      split; [tauto|]. intro Eu.
      assert (a = s).
      { apply (length_le1_eq _ (filter (isOpenFor u o) (workingSessions d))).
        - apply Inv.
        - apply filter_In. now split.
        - apply filter_In. split; [exact Hy|]. apply isOpenFor_true. tauto. }
      subst s. rewrite N.eqb_refl in E. discriminate.
    + intros [(Hs & Ho & Hc & Fu) Hne]. repeat split; auto.
      unfold replace_row. apply in_or_app. left. apply filter_In.
      split; [exact Hs|]. apply negb_true_iff.
      destruct (id s =? id a)%N eqn:E; [|reflexivity].
      apply N.eqb_eq in E. exfalso. apply Hne.
      assert (s = a) by (apply (NoDup_map_eq id (workingSessions d)); auto;
                         apply (proj1 K)).
      congruence.
Qed.

Lemma roster_follows_the_engine_witness :
  (exists row d',
      checkin 1 10 None 2000 (db idleWorld) = (Ok row, d')
      /\ fst (getAllActiveSessions 10 d') = Ok [(row, aoi)])
  /\ (exists r d',
        checkout 1 10 None 2000 (db sampleWorld) = (Ok r, d')
        /\ forall l', fst (getAllActiveSessions 10 d') = Ok l' ->
                      ~ In (aoiOpen, aoi) l').
Proof.
  split.
  - eexists. eexists. split; [reflexivity|].
    apply (proj1 (proj1 (roster_follows_the_engine (db idleWorld) 1 10 None 2000)
                    _ _ aoi eq_refl eq_refl) []).
    reflexivity.
  - eexists. eexists. split; [reflexivity|]. intros l' El' Hin.
    assert (I : open_invariant (db sampleWorld)).
    { intros u o. unfold openCount. simpl.
      destruct (isOpenFor u o aoiOpen); simpl; lia. }
    apply (proj2 (roster_follows_the_engine (db sampleWorld) 1 10 None 2000)
             _ _ sampleWorld_keys_ok I eq_refl _ l' eq_refl El') in Hin.
    destruct Hin as [_ Hne]. now apply Hne.
Defined.

(* ===================================================================== *)
(** * Months of the report *)
(* ===================================================================== *)

Lemma MakeDay_monthStartDay year month date :
  MakeDay year month date = monthStartDay (12 * year + month) + date - 1.
Proof.
  unfold MakeDay, monthStartDay.
  replace ((12 * year + month) / 12) with (year + month / 12)
    by (rewrite (Z.mul_comm 12 year), Z.div_add_l; lia).
  replace ((12 * year + month) mod 12) with (month mod 12)
    by (rewrite (Z.add_comm (12 * year)), (Z.mul_comm 12 year), Z.mod_add; lia).
  reflexivity.
Qed.

Lemma newDate_plain tza year month date h mi s ms :
  plainYear year ->
  newDate tza year month date h mi s ms
  = TimeClip (MakeDate (monthStartDay (12 * year + month) + date - 1)
                (MakeTime h mi s ms) - tza).
Proof.
  intro P. unfold newDate.
  assert (E : ((0 <=? year) && (year <=? 99))%bool = false).
  { destruct P; [apply andb_false_iff; left; apply Z.leb_gt; lia
                |apply andb_false_iff; right; apply Z.leb_gt; lia]. }
  rewrite E. now rewrite MakeDay_monthStartDay.
Qed.

(** X15: the month of a report is not checked but carried over: month 13
    is January of the next year, month 0 December of the year before,
    and in general month + 12 k of a year is the month of the year k
    later (for years that the Date constructor reads as they are). *)
Theorem monthly_report_month_carries tza u o year month k d :
  plainYear year -> plainYear (year + k) ->
  getMonthlyReport tza u o year (month + 12 * k) d
  = getMonthlyReport tza u o (year + k) month d.
Proof.
  intros P P'. unfold getMonthlyReport.
  rewrite !newDate_plain by assumption.
  replace (12 * year + (month + 12 * k - 1)) with (12 * (year + k) + (month - 1))
    by lia.
  replace (12 * year + (month + 12 * k)) with (12 * (year + k) + month) by lia.
  reflexivity.
Qed.

Lemma monthly_report_month_carries_witness :
  getMonthlyReport 0 1 1 2023 13 lateDb = getMonthlyReport 0 1 1 2024 1 lateDb
  /\ getMonthlyReport 0 1 1 2024 0 lateDb = getMonthlyReport 0 1 1 2023 12 lateDb.
Proof.
  split.
  - apply (monthly_report_month_carries 0 1 1 2023 1 1 lateDb);
      unfold plainYear; lia.
  - apply (monthly_report_month_carries 0 1 1 2024 12 (-1) lateDb);
      unfold plainYear; lia.
Defined.

(** X16: a year from 0 to 99 is read as a year of the twentieth century:
    the report of year 24 is the report of 1924. *)
Theorem monthly_report_two_digit_year tza u o year month d :
  0 <= year <= 99 ->
  getMonthlyReport tza u o year month d
  = getMonthlyReport tza u o (1900 + year) month d.
Proof.
  intro H. unfold getMonthlyReport, newDate.
  assert (E : ((0 <=? year) && (year <=? 99))%bool = true).
  { apply andb_true_iff. split; apply Z.leb_le; lia. }
  assert (E' : ((0 <=? 1900 + year) && (1900 + year <=? 99))%bool = false).
  { apply andb_false_iff. right. apply Z.leb_gt. lia. }
  now rewrite E, E'.
Qed.

Lemma monthly_report_two_digit_year_witness :
  getMonthlyReport 0 1 1 24 1 lateDb = getMonthlyReport 0 1 1 1924 1 lateDb.
Proof. apply monthly_report_two_digit_year. lia. Defined.

(** ** Months do not overlap *)

Lemma DayFromYear_step y :
  DayFromYear (y + 1) = DayFromYear y + 365 + (if InLeapYear y then 1 else 0).
Proof.
  unfold DayFromYear, InLeapYear.
  destruct (Z.eqb_spec (y mod 4) 0) as [E4|E4];
    destruct (Z.eqb_spec (y mod 100) 0) as [E100|E100];
    destruct (Z.eqb_spec (y mod 400) 0) as [E400|E400]; cbn [andb orb negb];
    Z.to_euclidean_division_equations; lia.
Qed.

Lemma monthStartDay_step k : monthStartDay k + 28 <= monthStartDay (k + 1).
Proof.
  unfold monthStartDay.
  assert (H : 0 <= k mod 12 < 12) by (apply Z.mod_pos_bound; lia).
  destruct (Z.eq_dec (k mod 12) 11) as [E|E].
  - replace ((k + 1) / 12) with (k / 12 + 1)
      by (Z.to_euclidean_division_equations; lia).
    replace ((k + 1) mod 12) with 0 by (Z.to_euclidean_division_equations; lia).
    rewrite E, DayFromYear_step. simpl DaysBeforeMonth.
    destruct (InLeapYear (k / 12)), (InLeapYear (k / 12 + 1)); lia.
  - replace ((k + 1) / 12) with (k / 12)
      by (Z.to_euclidean_division_equations; lia).
    replace ((k + 1) mod 12) with (k mod 12 + 1)
      by (Z.to_euclidean_division_equations; lia).
    generalize (InLeapYear (k / 12)). intro b.
    assert (C : k mod 12 = 0 \/ k mod 12 = 1 \/ k mod 12 = 2 \/ k mod 12 = 3
                \/ k mod 12 = 4 \/ k mod 12 = 5 \/ k mod 12 = 6 \/ k mod 12 = 7
                \/ k mod 12 = 8 \/ k mod 12 = 9 \/ k mod 12 = 10) by lia.
    destruct C as [C|[C|[C|[C|[C|[C|[C|[C|[C|[C|C]]]]]]]]]]; rewrite C;
      destruct b; simpl; lia.
Qed.

Lemma monthStartDay_mono k1 k2 :
  k1 < k2 -> monthStartDay (k1 + 1) <= monthStartDay k2.
Proof.
  intro H. replace k2 with (k1 + 1 + Z.of_nat (Z.to_nat (k2 - k1 - 1))) by lia.
  induction (Z.to_nat (k2 - k1 - 1)) as [|n IH].
  - simpl. rewrite Z.add_0_r. lia.
  - pose proof (monthStartDay_step (k1 + 1 + Z.of_nat n)).
    replace (k1 + 1 + Z.of_nat (S n)) with (k1 + 1 + Z.of_nat n + 1) by lia.
    lia.
Qed.

Lemma report_window tza u o year month d r :
  plainYear year ->
  fst (getMonthlyReport tza u o year month d) = Ok r ->
  forall s, In s (sessions r) ->
    In s (workingSessions d) /\ userId s = u /\ organizationId s = o
    /\ monthStartDay (monthIndex year month) * msPerDay - tza <= checkinAt s
    /\ checkinAt s
       <= monthStartDay (monthIndex year month + 1) * msPerDay - 1000 - tza.
Proof.
  intros P. unfold getMonthlyReport. rewrite !newDate_plain by assumption.
  unfold TimeClip, MakeDate, MakeTime, monthIndex.
  replace (12 * year + (month - 1) + 1) with (12 * year + month) by lia.
  destruct (Z.abs _ <=? _); [|discriminate].
  destruct (Z.abs _ <=? _); [|discriminate].
  unfold bind, ret, getSessionsByDateRange, gets. simpl.
  intros [= <-] s Hs. simpl in Hs.
  apply (Permutation_in _ (orderBy_perm _)) in Hs.
  apply filter_In in Hs. destruct Hs as [Hs Ps].
  apply inRange_true in Ps. unfold msPerDay in *. repeat split; try tauto; lia.
Qed.

(** X17: no session is reported in two different months: the reports of
    two different months (of years that the Date constructor reads as
    they are) have no session in common. *)
Theorem monthly_reports_share_no_session tza u o y1 m1 y2 m2 d r1 r2 :
  plainYear y1 -> plainYear y2 ->
  monthIndex y1 m1 <> monthIndex y2 m2 ->
  fst (getMonthlyReport tza u o y1 m1 d) = Ok r1 ->
  fst (getMonthlyReport tza u o y2 m2 d) = Ok r2 ->
  forall s, In s (sessions r1) -> In s (sessions r2) -> False.
Proof.
  intros P1 P2 Hk R1 R2 s H1 H2.
  destruct (report_window tza u o y1 m1 d r1 P1 R1 s H1) as (_ & _ & _ & L1 & U1).
  destruct (report_window tza u o y2 m2 d r2 P2 R2 s H2) as (_ & _ & _ & L2 & U2).
  unfold msPerDay in *.
  destruct (Z.lt_total (monthIndex y1 m1) (monthIndex y2 m2)) as [H|[H|H]];
    [|contradiction|].
  - pose proof (monthStartDay_mono _ _ H). lia.
  - pose proof (monthStartDay_mono _ _ H). lia.
Qed.

Lemma monthly_reports_share_no_session_witness :
  exists r1 r2,
    fst (getMonthlyReport 0 1 1 2024 1 twoMonthDb) = Ok r1
    /\ fst (getMonthlyReport 0 1 1 2024 2 twoMonthDb) = Ok r2
    /\ sessions r1 = [janSession] /\ sessions r2 = [febSession]
    /\ forall s, In s (sessions r1) -> In s (sessions r2) -> False.
Proof.
  eexists. eexists. split; [reflexivity|]. split; [reflexivity|].
  split; [reflexivity|]. split; [reflexivity|].
  refine (monthly_reports_share_no_session 0 1 1 2024 1 2024 2 twoMonthDb _ _
            _ _ _ eq_refl eq_refl).
  - unfold plainYear. lia.
  - unfold plainYear. lia.
  - unfold monthIndex. lia.
Defined.

Lemma hoursOf_nonneg s :
  (forall e, checkoutAt s = Some e -> checkinAt s <= e) -> Qle 0 (hoursOf s).
Proof.
  unfold hoursOf. destruct (checkoutAt s) as [e|]; intro H.
  - specialize (H e eq_refl). unfold Qle. simpl. lia.
  - apply Qle_refl.
Qed.

Lemma sumHours_nonneg l :
  Forall (fun r => forall e, checkoutAt r = Some e -> checkinAt r <= e) l ->
  Qle 0 (sumHours l).
Proof.
  induction 1 as [|s l Hs _ IH]; simpl; [apply Qle_refl|].
  replace 0%Q with (0 + 0)%Q by reflexivity.
  apply Qplus_le_compat; [now apply hoursOf_nonneg | exact IH].
Qed.

(** X18: in a table where no session ends before it starts, the total of
    a monthly report is never negative, and every session of the report
    is a session of the pair in the table. *)
Theorem monthly_report_total_nonneg tza u o year month d r :
  well_timed d ->
  fst (getMonthlyReport tza u o year month d) = Ok r ->
  Qle 0 (totalWorkingHours r)
  /\ forall s, In s (sessions r) ->
               In s (workingSessions d) /\ userId s = u /\ organizationId s = o.
Proof.
  intros W. unfold getMonthlyReport.
  destruct (newDate tza year (month - 1) 1 0 0 0 0) as [a|]; [|discriminate].
  destruct (newDate tza year month 0 23 59 59 0) as [b|]; [|discriminate].
  unfold bind, ret, getSessionsByDateRange, gets. simpl. intros [= <-]. simpl.
  assert (I : forall s,
             In s (orderBy_checkinAt_asc (filter (inRange u o a b) (workingSessions d))) ->
             In s (workingSessions d) /\ userId s = u /\ organizationId s = o).
  { intros s Hs. apply (Permutation_in _ (orderBy_perm _)) in Hs.
    apply filter_In in Hs. destruct Hs as [Hs Ps].
    apply inRange_true in Ps. tauto. }
  split; [|exact I].
  rewrite fold_addHours, Qplus_0_l. apply sumHours_nonneg.
  apply Forall_forall. intros s Hs. unfold well_timed in W.
  rewrite Forall_forall in W. apply W. now apply I.
Qed.

Lemma monthly_report_total_nonneg_witness :
  exists r,
    fst (getMonthlyReport 0 1 1 2024 1 twoMonthDb) = Ok r
    /\ Qle 0 (totalWorkingHours r).
Proof.
  eexists. split; [reflexivity|].
  refine (proj1 (monthly_report_total_nonneg 0 1 1 2024 1 twoMonthDb _ _ eq_refl)).
  repeat constructor; simpl; intros e [= <-]; lia.
Defined.

(* ===================================================================== *)
(** * More on the router and the adapters *)
(* ===================================================================== *)

(** ** Trimming *)

Lemma trimStart_split s :
  exists ws, s = ws ++ trimStart s /\ forallb isSpace ws = true.
Proof.
  induction s as [|c s (ws & E & H)]; simpl.
  - exists []. auto.
  - destruct (isSpace c) eqn:C.
    + exists (c :: ws). simpl. rewrite C, H. split; [now f_equal | reflexivity].
    + exists []. auto.
Qed.

Lemma trimStart_nil_iff s : trimStart s = [] <-> forallb isSpace s = true.
Proof.
  induction s as [|c s IH]; simpl; [tauto|].
  destruct (isSpace c); simpl; [exact IH | split; discriminate].
Qed.

Lemma trimEnd_split s :
  exists ws, s = trimEnd s ++ ws /\ forallb isSpace ws = true.
Proof.
  unfold trimEnd. destruct (trimStart_split (rev s)) as (ws & E & H).
  exists (rev ws). split.
  - rewrite <- rev_app_distr, <- E. now rewrite rev_involutive.
  - rewrite forallb_forall in *. intros x Hx. apply H. now apply in_rev.
Qed.

Lemma trimEnd_idem s : trimEnd (trimEnd s) = trimEnd s.
Proof. unfold trimEnd. now rewrite rev_involutive, trimStart_idem. Qed.

Lemma trimEnd_keeps_head c t : isSpace c = false -> exists t', trimEnd (c :: t) = c :: t'.
Proof.
  intro C. destruct (trimEnd_split (c :: t)) as (ws & E & H).
  destruct (trimEnd (c :: t)) as [|c' t'] eqn:T.
  - simpl in E. subst ws. simpl in H. rewrite C in H. discriminate.
  - injection E as <- _. eauto.
Qed.

Lemma forallb_prefix {A : Type} (p : A -> bool) (l1 l2 : list A) :
  forallb p (l1 ++ l2) = true -> forallb p l1 = true.
Proof. rewrite forallb_app. intro H. apply andb_true_iff in H. tauto. Qed.

(** X19: a parameter that parseCommand returns is never empty, has no
    white space at its beginning or end (trimming it again changes
    nothing) and contains no line terminator. *)
Theorem parsed_param_is_clean body c p :
  parseCommand body = Some c -> param c = Some p ->
  p <> [] /\ trim p = p /\ trimStart p = p /\ trimEnd p = p
  /\ forallb dot p = true.
Proof.
  rewrite parseCommand_unfold. intros H Hp.
  assert (K : exists rest0 s,
             param_after rest0 = Some (Some s) /\ p = trim s).
  { destruct (match_with_param "/checkin" body) as [cap|] eqn:E1.
    { injection H as <-. simpl in Hp. destruct cap as [s|]; [|discriminate].
      apply match_with_param_some in E1. destruct E1 as (r0 & _ & P).
      exists r0, s. split; [exact P | simpl in Hp; congruence]. }
    destruct (match_with_param "/checkout" body) as [cap|] eqn:E2.
    { injection H as <-. simpl in Hp. destruct cap as [s|]; [|discriminate].
      apply match_with_param_some in E2. destruct E2 as (r0 & _ & P).
      exists r0, s. split; [exact P | simpl in Hp; congruence]. }
    destruct (match_bare "/status" body) as [cap|] eqn:E3.
    { injection H as <-. apply match_bare_some in E3. destruct E3 as [_ ->].
      simpl in Hp. discriminate. }
    destruct (match_with_param "/vacation" body) as [cap|] eqn:E4; [|discriminate].
    injection H as <-. simpl in Hp. destruct cap as [s|]; [|discriminate].
    apply match_with_param_some in E4. destruct E4 as (r0 & _ & P).
    exists r0, s. split; [exact P | simpl in Hp; congruence]. }
  destruct K as (rest0 & s & P & ->).
  apply param_after_some in P. destruct P as [D E].
  destruct (trimStart rest0) as [|ch t] eqn:T; [discriminate|].
  injection E as ->.
  pose proof (trimStart_head _ _ _ T) as C.
  assert (S0 : trimStart (ch :: t) = ch :: t) by (simpl; now rewrite C).
  unfold trim. rewrite S0.
  destruct (trimEnd_keeps_head ch t C) as (t' & Et).
  assert (S1 : trimStart (trimEnd (ch :: t)) = trimEnd (ch :: t))
    by (rewrite Et; simpl; now rewrite C).
  split; [rewrite Et; discriminate|].
  split; [now rewrite S1, trimEnd_idem|].
  split; [exact S1|].
  split; [apply trimEnd_idem|].
  destruct (trimEnd_split (ch :: t)) as (ws & E & _).
  rewrite E in D. now apply forallb_prefix in D.
Qed.

Lemma parsed_param_is_clean_witness :
  js "see you" <> [] /\ trim (js "see you") = js "see you".
Proof.
  destruct (parsed_param_is_clean (js "/checkout  see you  ")
              (mkCommand (js "checkout") (Some (js "see you"))) (js "see you"))
    as (H1 & H2 & _).
  - vm_compute. reflexivity.
  - reflexivity.
  - split; [exact H1 | exact H2].
Defined.

(** ** The same command through Slack and through Chatwork *)

Lemma isSpace_32 : isSpace 32 = true.
Proof. reflexivity. Qed.

Lemma parse_checkin_visible t :
  visibleLine t ->
  parseCommand (js "/checkin " ++ t)
  = Some (mkCommand (js "checkin") (Some (trim t))).
Proof.
  intros [Hn Hd]. rewrite parseCommand_unfold.
  change (js "/checkin " ++ t) with (js "/checkin" ++ 32%N :: t).
  unfold match_with_param at 1. rewrite strip_prefix_app.
  unfold param_after. cbn [trimStart]. rewrite isSpace_32.
  destruct (trimStart t) as [|ch r] eqn:T; [contradiction|].
  rewrite Hd. cbn [option_map]. unfold trim. rewrite <- T.
  now rewrite trimStart_idem.
Qed.

Lemma parse_checkout_visible t :
  visibleLine t ->
  parseCommand (js "/checkout " ++ t)
  = Some (mkCommand (js "checkout") (Some (trim t))).
Proof.
  intros [Hn Hd]. rewrite parseCommand_unfold.
  change (js "/checkout " ++ t) with (js "/checkout" ++ 32%N :: t).
  unfold match_with_param. rewrite clash_checkin_checkout, strip_prefix_app.
  unfold param_after. cbn [trimStart]. rewrite isSpace_32.
  destruct (trimStart t) as [|ch r] eqn:T; [contradiction|].
  rewrite Hd. cbn [option_map]. unfold trim. rewrite <- T.
  now rewrite trimStart_idem.
Qed.

Lemma slackNote_visible sid uname t :
  trimStart t <> [] -> slackNote (mkSlashCommand sid uname t) = Some (trim t).
Proof. unfold slackNote. simpl. destruct t; [contradiction | reflexivity]. Qed.

Lemma app_not_nil {A : Type} (l1 l2 : list A) : l2 <> [] -> l1 ++ l2 <> [].
Proof. destruct l1; simpl; [tauto | discriminate]. Qed.

Lemma app_not_nil_l {A : Type} (l1 l2 : list A) : l1 <> [] -> l1 ++ l2 <> [].
Proof. destruct l1; simpl; [tauto | discriminate]. Qed.

Section SameCommand.

Variable hoursToFixed2 : Z -> jsstring.
Variable toLocaleTime : Time -> jsstring.
Variable prismaMessage : PrismaCode -> jsstring.
Variable axiosPost : jsstring -> jsstring -> jsstring -> outcome unit.

Lemma checkinReply_not_empty who n r :
  checkinReply prismaMessage who n r <> [].
Proof.
  destruct r as [s|e]; simpl.
  - apply app_not_nil. vm_compute. discriminate.
  - apply errorText_not_empty.
Qed.

Lemma checkoutReply_not_empty who n r :
  checkoutReply hoursToFixed2 prismaMessage who n r <> [].
Proof.
  destruct r as [s|e]; simpl.
  - apply app_not_nil. unfold checkoutSuffix. apply app_not_nil_l.
    vm_compute. discriminate.
  - apply errorText_not_empty.
Qed.

(** The webhook on a checkin or checkout command of a resolved user. *)
Lemma webhook_checkin_resolved cfg room mid cid body0 now w n x o others :
  parseCommand body0 = Some (mkCommand (js "checkin") n) ->
  fst (findByChatworkUserId cid (db w)) = Ok (Some x) ->
  fst (getUserOrganizations (user_id x) (db w)) = Ok (o :: others) ->
  let r := checkin (user_id x) (org_id o) n now (db w) in
  handleWebhook hoursToFixed2 toLocaleTime prismaMessage axiosPost cfg
    (mkRequest (Some (webhookToken cfg)) (js "message_created")
       (mkWebhookEvent room mid cid body0)) now w
  = (Ok tt,
     mkWorld (snd r)
       (log w ++ chatworkAnswer axiosPost (apiToken cfg) room
                   (checkinReply prismaMessage (user_name x) n (fst r)))).
Proof.
  intros Hp Hu Ho r.
  rewrite (handleWebhook_command hoursToFixed2 toLocaleTime prismaMessage axiosPost
             cfg
             (mkRequest (Some (webhookToken cfg)) (js "message_created")
                (mkWebhookEvent room mid cid body0))
             now w (mkCommand (js "checkin") n)
             (checkinReply prismaMessage (user_name x) n (fst r))
             (mkWorld (snd r) (log w))).
  - reflexivity.
  - simpl. apply jsstring_eqb_refl.
  - reflexivity.
  - exact Hp.
  - unfold dispatch. cbn [name param webhook_event account_id].
    rewrite jsstring_eqb_refl.
    now rewrite (handleCheckin_resolved prismaMessage w cid n now x o others Hu Ho).
  - apply checkinReply_not_empty.
Qed.

Lemma webhook_checkout_resolved cfg room mid cid body0 now w n x o others :
  parseCommand body0 = Some (mkCommand (js "checkout") n) ->
  fst (findByChatworkUserId cid (db w)) = Ok (Some x) ->
  fst (getUserOrganizations (user_id x) (db w)) = Ok (o :: others) ->
  let r := checkout (user_id x) (org_id o) n now (db w) in
  handleWebhook hoursToFixed2 toLocaleTime prismaMessage axiosPost cfg
    (mkRequest (Some (webhookToken cfg)) (js "message_created")
       (mkWebhookEvent room mid cid body0)) now w
  = (Ok tt,
     mkWorld (snd r)
       (log w ++ chatworkAnswer axiosPost (apiToken cfg) room
                   (checkoutReply hoursToFixed2 prismaMessage (user_name x) n (fst r)))).
Proof.
  intros Hp Hu Ho r.
  rewrite (handleWebhook_command hoursToFixed2 toLocaleTime prismaMessage axiosPost
             cfg
             (mkRequest (Some (webhookToken cfg)) (js "message_created")
                (mkWebhookEvent room mid cid body0))
             now w (mkCommand (js "checkout") n)
             (checkoutReply hoursToFixed2 prismaMessage (user_name x) n (fst r))
             (mkWorld (snd r) (log w))).
  - reflexivity.
  - simpl. apply jsstring_eqb_refl.
  - reflexivity.
  - exact Hp.
  - unfold dispatch. cbn [name param webhook_event account_id].
    replace (jsstring_eqb (js "checkout") (js "checkin")) with false
      by (vm_compute; reflexivity).
    rewrite jsstring_eqb_refl.
    now rewrite (handleCheckout_resolved hoursToFixed2 prismaMessage w cid n now
                   x o others Hu Ho).
  - apply checkoutReply_not_empty.
Qed.

(** X20: the two adapters record the same thing.  For a user known under
    both identities, a Slack command with text t and a Chatwork message
    made of the command token, a space and t leave the same database,
    for checkin and for checkout, whenever t shows something on a single
    line. *)
Theorem adapters_record_the_same cfg room mid sid cid uname t now w x o others :
  fst (findBySlackUserId sid (db w)) = Ok (Some x) ->
  fst (findByChatworkUserId cid (db w)) = Ok (Some x) ->
  fst (getUserOrganizations (user_id x) (db w)) = Ok (o :: others) ->
  visibleLine t ->
  db (snd (handleWebhook hoursToFixed2 toLocaleTime prismaMessage axiosPost cfg
             (mkRequest (Some (webhookToken cfg)) (js "message_created")
                (mkWebhookEvent room mid cid (js "/checkin " ++ t))) now w))
  = db (snd (slackCheckin prismaMessage (mkSlashCommand sid uname t) now w))
  /\ db (snd (handleWebhook hoursToFixed2 toLocaleTime prismaMessage axiosPost cfg
                (mkRequest (Some (webhookToken cfg)) (js "message_created")
                   (mkWebhookEvent room mid cid (js "/checkout " ++ t))) now w))
     = db (snd (slackCheckout hoursToFixed2 prismaMessage
                  (mkSlashCommand sid uname t) now w)).
Proof.
  intros Hs Hc Ho V. split.
  - rewrite (webhook_checkin_resolved cfg room mid cid _ now w _ x o others
               (parse_checkin_visible t V) Hc Ho).
    rewrite (slackCheckin_resolved prismaMessage w (mkSlashCommand sid uname t) now
               x o others Hs Ho).
    cbv zeta. cbn [db snd]. now rewrite (slackNote_visible sid uname t (proj1 V)).
  - rewrite (webhook_checkout_resolved cfg room mid cid _ now w _ x o others
               (parse_checkout_visible t V) Hc Ho).
    rewrite (slackCheckout_resolved hoursToFixed2 prismaMessage w
               (mkSlashCommand sid uname t) now x o others Hs Ho).
    cbv zeta. cbn [db snd]. now rewrite (slackNote_visible sid uname t (proj1 V)).
Qed.

End SameCommand.

Lemma adapters_record_the_same_witness :
  db (snd (handleWebhook plainHours plainTime plainPrisma postOk sampleConfig
             (sampleRequest (js "/checkin " ++ js " at home ")) 2000 idleWorld))
  = db (snd (slackCheckin plainPrisma
               (mkSlashCommand (js "U01") (js "aoi") (js " at home ")) 2000 idleWorld)).
Proof.
  refine (proj1 (adapters_record_the_same plainHours plainTime plainPrisma postOk
                   sampleConfig (js "77") (js "9") (js "U01") (js "4242") (js "aoi")
                   (js " at home ") 2000 idleWorld aoi acme [beta]
                   eq_refl eq_refl eq_refl _)).
  split; [vm_compute; discriminate | vm_compute; reflexivity].
Defined.

(** ** Blank text, and what changes the database *)

Lemma trim_blank t : forallb isSpace t = true -> trim t = [].
Proof.
  intro H. unfold trim. now rewrite (proj2 (trimStart_nil_iff t) H).
Qed.

Lemma parse_checkin_blank t :
  forallb isSpace t = true ->
  parseCommand (js "/checkin" ++ t) = Some (mkCommand (js "checkin") None).
Proof.
  intro H. rewrite parseCommand_unfold. unfold match_with_param at 1.
  rewrite strip_prefix_app. unfold param_after.
  now rewrite (proj2 (trimStart_nil_iff t) H).
Qed.

Lemma update_row_last i f l row :
  (forall y, In y l -> id y <> i) -> id row = i ->
  update_row i f (l ++ [row]) = Some (f row, l ++ [f row]).
Proof.
  intros H Hr.
  assert (N0 : find (fun r => (id r =? i)%N) l = None).
  { apply find_none_iff. intros y Hy. apply N.eqb_neq. now apply H. }
  assert (F : find (fun r => (id r =? i)%N) (l ++ [row]) = Some row).
  { rewrite (find_app_none _ _ _ _ N0). simpl.
    now rewrite (proj2 (N.eqb_eq _ _) Hr). }
  rewrite (update_row_found i f _ row F). f_equal. f_equal.
  rewrite !filter_app, map_app. simpl.
  rewrite (proj2 (N.eqb_eq _ _) Hr). simpl.
  rewrite (find_none_filter _ _ _ N0). simpl. rewrite app_nil_r. f_equal.
  clear N0 F. induction l as [|y l IH]; simpl; [reflexivity|].
  rewrite (proj2 (N.eqb_neq _ _) (H y (or_introl eq_refl))). simpl.
  f_equal. apply IH. intros z Hz. apply H. now right.
Qed.

Lemma reads_liftDb_gets {A : Type} (f : Db -> A) : reads_only (liftDb (gets f)).
Proof. intro w. unfold liftDb, gets. now destruct w. Qed.

Lemma reads_ret {A : Type} (a : A) : reads_only (@ret World A a).
Proof. intro w. reflexivity. Qed.

Lemma reads_bind {A B : Type} (c : M World A) (f : A -> M World B) :
  reads_only c -> (forall a, reads_only (f a)) -> reads_only (bind c f).
Proof.
  intros Hc Hf w. unfold bind. specialize (Hc w).
  destruct (c w) as [[a|e] w']; simpl in *; [|exact Hc].
  subst w'. apply Hf.
Qed.

Lemma reads_try_catch {A : Type} (c : M World A) (h : exn -> M World A) :
  reads_only c -> (forall e, reads_only (h e)) -> reads_only (try_catch c h).
Proof.
  intros Hc Hh w. unfold try_catch. specialize (Hc w).
  destruct (c w) as [[a|e] w']; simpl in *; [exact Hc|].
  subst w'. apply Hh.
Qed.

(** The user that an adapter has resolved and the organizations listed
    for that user are rows of the tables, so the relations of a new
    session point at rows that exist. *)
Lemma found_user_exists (p : User -> bool) d x :
  find p (users d) = Some x -> findUser d (user_id x) <> None.
Proof.
  intros F N0. destruct (find_some _ _ F) as [Hx _].
  pose proof (find_none _ _ N0 x Hx) as E. simpl in E.
  rewrite N.eqb_refl in E. discriminate.
Qed.

Lemma slack_user_exists sid d x :
  fst (findBySlackUserId sid d) = Ok (Some x) -> findUser d (user_id x) <> None.
Proof.
  unfold findBySlackUserId, gets. simpl. intros [= F].
  exact (found_user_exists _ d x F).
Qed.

Lemma chatwork_user_exists cid d x :
  fst (findByChatworkUserId cid d) = Ok (Some x) -> findUser d (user_id x) <> None.
Proof.
  unfold findByChatworkUserId, gets. simpl. intros [= F].
  exact (found_user_exists _ d x F).
Qed.

Lemma listed_organization_exists u d o others :
  fst (getUserOrganizations u d) = Ok (o :: others) ->
  findOrganization d (org_id o) <> None.
Proof.
  unfold getUserOrganizations, gets. simpl. intros [= F].
  assert (Hin : In o (o :: others)) by now left.
  rewrite <- F in Hin. apply in_flat_map in Hin. destruct Hin as (m & _ & Hm).
  destruct (findOrganization d (mem_organizationId m)) as [org|] eqn:E;
    [|contradiction].
  destruct Hm as [->|[]].
  rewrite (findOrganization_id d _ o E). rewrite E. discriminate.
Qed.

Ltac reading :=
  repeat first
    [ apply reads_try_catch | apply reads_bind | apply reads_liftDb_gets
    | apply reads_ret
    | match goal with
      | |- forall _, reads_only _ => intro; cbv beta
      | |- reads_only (match ?x with _ => _ end) => destruct x
      end ].

Section Writes.

Variable hoursToFixed2 : Z -> jsstring.
Variable toLocaleTime : Time -> jsstring.
Variable prismaMessage : PrismaCode -> jsstring.
Variable axiosPost : jsstring -> jsstring -> jsstring -> outcome unit.

(** X21: text that is all white space is stored differently by the two
    adapters: after a Slack checkin the new session carries the empty
    string as its note, after a Chatwork checkin it carries no note. *)
Theorem blank_text_is_stored_differently
  cfg room mid sid cid uname t now w x o others :
  t <> [] -> forallb isSpace t = true ->
  fst (findBySlackUserId sid (db w)) = Ok (Some x) ->
  fst (findByChatworkUserId cid (db w)) = Ok (Some x) ->
  fst (getUserOrganizations (user_id x) (db w)) = Ok (o :: others) ->
  ~ hasOpen (user_id x) (org_id o) (db w) ->
  workingSessions
    (db (snd (slackCheckin prismaMessage (mkSlashCommand sid uname t) now w)))
  = workingSessions (db w)
    ++ [mkWorkingSession (nextId (db w)) now None (Some []) (user_id x) (org_id o)]
  /\ workingSessions
       (db (snd (handleWebhook hoursToFixed2 toLocaleTime prismaMessage axiosPost cfg
                   (mkRequest (Some (webhookToken cfg)) (js "message_created")
                      (mkWebhookEvent room mid cid (js "/checkin" ++ t))) now w)))
     = workingSessions (db w)
       ++ [mkWorkingSession (nextId (db w)) now None None (user_id x) (org_id o)].
Proof.
  intros Hn Hb Hs Hc Ho Hopen. apply not_hasOpen_find in Hopen. split.
  - rewrite (slackCheckin_resolved prismaMessage w (mkSlashCommand sid uname t) now
               x o others Hs Ho).
    cbv zeta. cbn [db snd].
    assert (E : slackNote (mkSlashCommand sid uname t) = Some []).
    { unfold slackNote. simpl. destruct t as [|c t']; [contradiction|].
      now rewrite (trim_blank (c :: t') Hb). }
    rewrite E, (checkin_closed _ _ _ now (db w) Hopen
                  (slack_user_exists sid (db w) x Hs)
                  (listed_organization_exists _ (db w) o others Ho)).
    reflexivity.
  - rewrite (webhook_checkin_resolved hoursToFixed2 toLocaleTime prismaMessage
               axiosPost cfg room mid cid _ now w None x o others
               (parse_checkin_blank t Hb) Hc Ho).
    cbv zeta. cbn [db snd].
    rewrite (checkin_closed _ _ _ now (db w) Hopen
               (chatwork_user_exists cid (db w) x Hc)
               (listed_organization_exists _ (db w) o others Ho)).
    reflexivity.
Qed.

Lemma dispatch_reads c account now :
  name c <> js "checkin" -> name c <> js "checkout" ->
  reads_only (dispatch hoursToFixed2 toLocaleTime prismaMessage c account now).
Proof.
  intros H1 H2. unfold dispatch.
  destruct (jsstring_eqb (name c) (js "checkin")) eqn:E1;
    [apply jsstring_eqb_eq in E1; contradiction|].
  destruct (jsstring_eqb (name c) (js "checkout")) eqn:E2;
    [apply jsstring_eqb_eq in E2; contradiction|].
  destruct (jsstring_eqb (name c) (js "status")).
  - unfold handleStatusCommand, findByChatworkUserId, getUserOrganizations,
      getAllActiveSessions. reading.
  - destruct (jsstring_eqb (name c) (js "vacation"));
      unfold handleVacationCommand; reading.
Qed.

Lemma handleWebhook_db cfg req now w c text w' :
  opt_eqb (tokenHeader req) (webhookToken cfg) = true ->
  webhook_event_type req = js "message_created" ->
  parseCommand (body (webhook_event req)) = Some c ->
  dispatch hoursToFixed2 toLocaleTime prismaMessage c
    (account_id (webhook_event req)) now w = (Ok text, w') ->
  db (snd (handleWebhook hoursToFixed2 toLocaleTime prismaMessage axiosPost
             cfg req now w)) = db w'.
Proof.
  intros Ht Hty Hp Hd. destruct text as [|ch t].
  - unfold handleWebhook, try_catch. rewrite Ht, Hty, jsstring_eqb_refl, Hp.
    cbn [negb]. unfold bind at 1. rewrite Hd. reflexivity.
  - rewrite (handleWebhook_command hoursToFixed2 toLocaleTime prismaMessage axiosPost
               cfg req now w c (ch :: t) w' Ht Hty Hp Hd); [reflexivity|discriminate].
Qed.

(** X22: the webhook writes to the database only for an authorised
    checkin or checkout: if the database after handleWebhook differs from
    the database before, then the token header matched, the event was a
    created message, and its body parsed as a checkin or a checkout
    command. *)
Theorem webhook_writes_only_on_command cfg req now w :
  db (snd (handleWebhook hoursToFixed2 toLocaleTime prismaMessage axiosPost
             cfg req now w)) <> db w ->
  tokenHeader req = Some (webhookToken cfg)
  /\ webhook_event_type req = js "message_created"
  /\ exists c, parseCommand (body (webhook_event req)) = Some c
               /\ (name c = js "checkin" \/ name c = js "checkout").
Proof.
  intro H.
  destruct (opt_eqb (tokenHeader req) (webhookToken cfg)) eqn:Ht.
  2:{ exfalso. apply H. unfold handleWebhook, try_catch. now rewrite Ht. }
  destruct (jsstring_eqb (webhook_event_type req) (js "message_created")) eqn:Hty.
  2:{ exfalso. apply H. unfold handleWebhook, try_catch. now rewrite Ht, Hty. }
  destruct (parseCommand (body (webhook_event req))) as [c|] eqn:Hp.
  2:{ exfalso. apply H. unfold handleWebhook, try_catch. now rewrite Ht, Hty, Hp. }
  apply jsstring_eqb_eq in Hty.
  split; [now apply opt_eqb_true|]. split; [exact Hty|].
  exists c. split; [reflexivity|].
  destruct (jsstring_eqb (name c) (js "checkin")) eqn:E1;
    [left; now apply jsstring_eqb_eq|].
  destruct (jsstring_eqb (name c) (js "checkout")) eqn:E2;
    [right; now apply jsstring_eqb_eq|].
  exfalso. apply H.
  destruct (dispatch_returns hoursToFixed2 toLocaleTime prismaMessage c
              (account_id (webhook_event req)) now w) as (text & w' & Hd & _).
  rewrite (handleWebhook_db cfg req now w c text w' Ht Hty Hp Hd).
  assert (R : reads_only (dispatch hoursToFixed2 toLocaleTime prismaMessage c
                            (account_id (webhook_event req)) now)).
  { apply dispatch_reads; intro E; apply jsstring_eqb_eq in E; congruence. }
  specialize (R w). rewrite Hd in R. simpl in R. now subst w'.
Qed.

End Writes.

Lemma blank_text_is_stored_differently_witness :
  workingSessions
    (db (snd (slackCheckin plainPrisma
                (mkSlashCommand (js "U01") (js "aoi") (js "  ")) 2000 idleWorld)))
  = [mkWorkingSession 0 2000 None (Some []) 1 10]
  /\ workingSessions
       (db (snd (handleWebhook plainHours plainTime plainPrisma postOk sampleConfig
                   (sampleRequest (js "/checkin" ++ js "  ")) 2000 idleWorld)))
     = [mkWorkingSession 0 2000 None None 1 10].
Proof.
  refine (blank_text_is_stored_differently plainHours plainTime plainPrisma postOk
            sampleConfig (js "77") (js "9") (js "U01") (js "4242") (js "aoi")
            (js "  ") 2000 idleWorld aoi acme [beta] _ eq_refl eq_refl eq_refl
            eq_refl _).
  - vm_compute. discriminate.
  - intros (s & [] & _).
Defined.

Lemma webhook_writes_only_on_command_witness :
  exists c, parseCommand (js "/checkin") = Some c
            /\ (name c = js "checkin" \/ name c = js "checkout").
Proof.
  refine (proj2 (proj2 (webhook_writes_only_on_command plainHours plainTime
                          plainPrisma postOk sampleConfig
                          (sampleRequest (js "/checkin")) 2000 idleWorld _))).
  vm_compute. discriminate.
Defined.

(** ** A checkin and a checkout through the webhook *)

Section RoundTrip.

Variable hoursToFixed2 : Z -> jsstring.
Variable toLocaleTime : Time -> jsstring.
Variable prismaMessage : PrismaCode -> jsstring.
Variable axiosPost : jsstring -> jsstring -> jsstring -> outcome unit.

(** X23: a checkin message followed by a checkout message of the same
    user, through the Chatwork webhook, on a database where the user has
    no open session: both are answered with the success texts, the table
    gains exactly one session, closed, from the first clock reading to
    the second, with the note of the checkout if it has one and the note
    of the checkin otherwise, and the user has no open session
    afterwards.  When both clock readings are equal the answer to the
    checkout shows the calculation-error text in place of the hours. *)
Theorem webhook_checkin_then_checkout
  cfg room mid cid b1 b2 n1 n2 now1 now2 w x o others :
  parseCommand b1 = Some (mkCommand (js "checkin") n1) ->
  parseCommand b2 = Some (mkCommand (js "checkout") n2) ->
  fst (findByChatworkUserId cid (db w)) = Ok (Some x) ->
  fst (getUserOrganizations (user_id x) (db w)) = Ok (o :: others) ->
  keys_ok (db w) ->
  ~ hasOpen (user_id x) (org_id o) (db w) ->
  let request b :=
    mkRequest (Some (webhookToken cfg)) (js "message_created")
      (mkWebhookEvent room mid cid b) in
  let w1 := snd (handleWebhook hoursToFixed2 toLocaleTime prismaMessage axiosPost
                   cfg (request b1) now1 w) in
  let w2 := snd (handleWebhook hoursToFixed2 toLocaleTime prismaMessage axiosPost
                   cfg (request b2) now2 w1) in
  let closed :=
    mkWorkingSession (nextId (db w)) now1 (Some now2) (js_or n2 n1)
      (user_id x) (org_id o) in
  workingSessions (db w2) = workingSessions (db w) ++ [closed]
  /\ fst (getActiveSession (user_id x) (org_id o) (db w2)) = Ok None
  /\ log w2
     = (log w
        ++ chatworkAnswer axiosPost (apiToken cfg) room
             (user_name x ++ js " さんがチェックインしました！" ++ noteSuffix n1))
       ++ chatworkAnswer axiosPost (apiToken cfg) room
            (user_name x ++ checkoutSuffix hoursToFixed2 n2 closed)
  /\ hoursText hoursToFixed2 closed
     = (if now2 =? now1 then msgCalcError else hoursToFixed2 (now2 - now1)).
Proof.
  intros P1 P2 Hu Ho K Hopen request w1 w2 closed.
  apply not_hasOpen_find in Hopen.
  set (row := mkWorkingSession (nextId (db w)) now1 None n1 (user_id x) (org_id o)).
  set (d1 := with_sessions (db w) (workingSessions (db w) ++ [row])
               (N.succ (nextId (db w)))).
  assert (E1 : w1 = mkWorld d1
                     (log w ++ chatworkAnswer axiosPost (apiToken cfg) room
                        (user_name x ++ js " さんがチェックインしました！"
                         ++ noteSuffix n1))).
  { unfold w1, request.
    rewrite (webhook_checkin_resolved hoursToFixed2 toLocaleTime prismaMessage
               axiosPost cfg room mid cid b1 now1 w n1 x o others P1 Hu Ho).
    cbv zeta.
    rewrite (checkin_closed _ _ n1 now1 (db w) Hopen
               (chatwork_user_exists cid (db w) x Hu)
               (listed_organization_exists _ (db w) o others Ho)).
    reflexivity. }
  assert (F1 : find (isOpenFor (user_id x) (org_id o)) (workingSessions d1) = Some row).
  { unfold d1. simpl. apply find_app_last; [exact Hopen|].
    unfold isOpenFor, row. simpl. now rewrite !N.eqb_refl. }
  assert (C2 : checkout (user_id x) (org_id o) n2 now2 d1
               = (Ok closed,
                  with_sessions d1 (workingSessions (db w) ++ [closed]) (nextId d1))).
  { unfold checkout, bind, getActiveSession, gets. rewrite F1.
    unfold prisma_update. unfold d1 at 1. cbn [workingSessions with_sessions].
    rewrite update_row_last.
    - reflexivity.
    - intros y Hy. destruct K as [_ Kl]. rewrite Forall_forall in Kl.
      specialize (Kl y Hy). unfold row. simpl. lia.
    - reflexivity. }
  assert (E2 : w2 = mkWorld
                     (with_sessions d1 (workingSessions (db w) ++ [closed]) (nextId d1))
                     (log w1 ++ chatworkAnswer axiosPost (apiToken cfg) room
                        (user_name x ++ checkoutSuffix hoursToFixed2 n2 closed))).
  { unfold w2, request.
    rewrite (webhook_checkout_resolved hoursToFixed2 toLocaleTime prismaMessage
               axiosPost cfg room mid cid b2 now2 w1 n2 x o others P2).
    - cbv zeta. rewrite E1. cbn [db log]. rewrite C2. reflexivity.
    - rewrite E1. exact Hu.
    - rewrite E1. exact Ho. }
  rewrite E2. cbn [db log workingSessions with_sessions].
  split; [reflexivity|]. split; [|split].
  - unfold getActiveSession, gets. cbn [fst workingSessions with_sessions].
    f_equal. apply find_none_iff. intros y Hy. apply in_app_or in Hy.
    destruct Hy as [Hy|[<-|[]]].
    + exact (proj1 (find_none_iff _ _ _) Hopen y Hy).
    + unfold isOpenFor, closed. simpl. apply andb_false_r.
  - rewrite E1. reflexivity.
  - unfold hoursText, closed. cbn [checkoutAt checkinAt].
    destruct (Z.eqb_spec now2 now1) as [->|Hne].
    + now rewrite Z.sub_diag.
    + destruct (Z.eqb_spec (now2 - now1) 0); [lia | reflexivity].
Qed.

End RoundTrip.

Lemma idleWorld_keys_ok : keys_ok (db idleWorld).
Proof. split; simpl; constructor. Defined.

Lemma webhook_checkin_then_checkout_witness :
  workingSessions
    (db (snd (handleWebhook plainHours plainTime plainPrisma postOk sampleConfig
                (sampleRequest (js "/checkout")) 30600000
                (snd (handleWebhook plainHours plainTime plainPrisma postOk
                        sampleConfig (sampleRequest (js "/checkin office"))
                        0 idleWorld)))))
  = [mkWorkingSession 0 0 (Some 30600000) (Some (js "office")) 1 10].
Proof.
  refine (proj1 (webhook_checkin_then_checkout plainHours plainTime plainPrisma
                   postOk sampleConfig (js "77") (js "9") (js "4242")
                   (js "/checkin office") (js "/checkout")
                   (Some (js "office")) None 0 30600000 idleWorld aoi acme [beta]
                   _ _ eq_refl eq_refl idleWorld_keys_ok _)).
  - vm_compute. reflexivity.
  - vm_compute. reflexivity.
  - intros (s & [] & _).
Defined.

(* ===================================================================== *)
(** * Calendar dates *)
(* ===================================================================== *)

Lemma DayFromYear_mono a b : a <= b -> DayFromYear a <= DayFromYear b.
Proof.
  intro H. unfold DayFromYear. Z.to_euclidean_division_equations. lia.
Qed.

(** The year read from a day is the one the day lies in. *)
Lemma YearFromDay_spec day :
  DayFromYear (YearFromDay day) <= day < DayFromYear (YearFromDay day + 1).
Proof.
  unfold YearFromDay. cbv zeta.
  set (e := 1970 + 400 * day / 146097).
  assert (Lo : DayFromYear (e - 1) <= day).
  { unfold e, DayFromYear. Z.to_euclidean_division_equations. lia. }
  assert (Hi : day < DayFromYear (e + 2)).
  { unfold e, DayFromYear. Z.to_euclidean_division_equations. lia. }
  destruct (Z.leb_spec (DayFromYear (e + 1)) day) as [H1|H1].
  - replace (e + 1 + 1) with (e + 2) by lia. lia.
  - destruct (Z.leb_spec (DayFromYear e) day) as [H2|H2].
    + lia.
    + replace (e - 1 + 1) with e by lia. lia.
Qed.

Lemma YearFromDay_unique day y :
  DayFromYear y <= day < DayFromYear (y + 1) -> YearFromDay day = y.
Proof.
  intro H. pose proof (YearFromDay_spec day) as S.
  destruct (Z.lt_total (YearFromDay day) y) as [L|[E|L]]; [|exact E|].
  - pose proof (DayFromYear_mono (YearFromDay day + 1) y). lia.
  - pose proof (DayFromYear_mono (y + 1) (YearFromDay day)). lia.
Qed.

Lemma DaysBeforeMonth_range leap mn date :
  0 <= mn <= 11 -> 1 <= date <= DaysInMonth leap mn ->
  0 <= DaysBeforeMonth leap mn + date - 1 < 365 + (if leap then 1 else 0).
Proof.
  intros Hm Hd.
  assert (C : mn = 0 \/ mn = 1 \/ mn = 2 \/ mn = 3 \/ mn = 4 \/ mn = 5 \/ mn = 6
              \/ mn = 7 \/ mn = 8 \/ mn = 9 \/ mn = 10 \/ mn = 11) by lia.
  destruct C as [C|[C|[C|[C|[C|[C|[C|[C|[C|[C|[C|C]]]]]]]]]]]; subst mn;
    destruct leap; cbv [DaysBeforeMonth DaysInMonth] in *; lia.
Qed.

(** Reading back the parts of a local time built from a calendar date. *)
Lemma read_back year mn date tod :
  0 <= mn <= 11 -> 1 <= date <= DaysInMonth (InLeapYear year) mn ->
  0 <= tod < msPerDay ->
  let t := MakeDate (MakeDay year mn date) tod in
  YearFromTime t = year /\ MonthFromTime t = mn /\ DateFromTime t = date.
Proof.
  intros Hm Hd Ht t.
  assert (D : Day t = DayFromYear year + DaysBeforeMonth (InLeapYear year) mn
                      + date - 1).
  { unfold t, Day, MakeDate, MakeDay.
    replace (mn / 12) with 0 by (Z.to_euclidean_division_equations; lia).
    replace (mn mod 12) with mn by (Z.to_euclidean_division_equations; lia).
    rewrite Z.add_0_r. unfold msPerDay in *.
    Z.to_euclidean_division_equations. lia. }
  pose proof (DaysBeforeMonth_range (InLeapYear year) mn date Hm Hd) as R.
  assert (Y : YearFromTime t = year).
  { unfold YearFromTime. apply YearFromDay_unique. rewrite D, DayFromYear_step. lia. }
  assert (W : DayWithinYear t = DaysBeforeMonth (InLeapYear year) mn + date - 1).
  { unfold DayWithinYear. rewrite Y, D. lia. }
  assert (Mo : MonthFromTime t = mn).
  { unfold MonthFromTime. cbv zeta. rewrite W, Y.
    assert (C : mn = 0 \/ mn = 1 \/ mn = 2 \/ mn = 3 \/ mn = 4 \/ mn = 5 \/ mn = 6
                \/ mn = 7 \/ mn = 8 \/ mn = 9 \/ mn = 10 \/ mn = 11) by lia.
    destruct C as [C|[C|[C|[C|[C|[C|[C|[C|[C|[C|[C|C]]]]]]]]]]]; subst mn;
      destruct (InLeapYear year); cbv [DaysBeforeMonth DaysInMonth] in Hd |- *;
      repeat match goal with
             | |- context [?a <? ?b] => destruct (Z.ltb_spec a b); try lia
             end; reflexivity. }
  split; [exact Y|]. split; [exact Mo|].
  unfold DateFromTime. rewrite W, Y, Mo. lia.
Qed.

(** X24: formatDate gives back the calendar date a Date was built from.
    For a date of the calendar (a month from 1 to 12, a day of that
    month, a time of the day) in a year that the Date constructor reads
    as it is, [new Date(year, month - 1, date, ...)] formats as the
    year, the month and the day, month and day on two digits, whatever
    the offset of the local zone. *)
Theorem formatDate_round_trip tza year month date h mi s ms t :
  plainYear year ->
  1 <= month <= 12 ->
  1 <= date <= DaysInMonth (InLeapYear year) (month - 1) ->
  0 <= h < 24 -> 0 <= mi < 60 -> 0 <= s < 60 -> 0 <= ms < 1000 ->
  newDate tza year (month - 1) date h mi s ms = Some t ->
  getFullYear tza t = year /\ getMonth tza t = month - 1 /\ getDate tza t = date
  /\ formatDate tza (Some t) = dateText year month date.
Proof.
  intros P Hm Hd Hh Hmi Hs Hms N.
  unfold newDate in N.
  assert (E : ((0 <=? year) && (year <=? 99))%bool = false).
  { destruct P; [apply andb_false_iff; left; apply Z.leb_gt; lia
                |apply andb_false_iff; right; apply Z.leb_gt; lia]. }
  rewrite E in N. unfold TimeClip in N.
  destruct (Z.abs _ <=? _) in N; [|discriminate]. injection N as <-.
  assert (T : 0 <= MakeTime h mi s ms < msPerDay)
    by (unfold MakeTime, msPerDay; lia).
  destruct (read_back year (month - 1) date (MakeTime h mi s ms)) as (Y & Mo & Da);
    [lia | exact Hd | exact T |].
  cbv zeta in Y, Mo, Da.
  assert (L : LocalTime tza
                (MakeDate (MakeDay year (month - 1) date) (MakeTime h mi s ms) - tza)
              = MakeDate (MakeDay year (month - 1) date) (MakeTime h mi s ms))
    by (unfold LocalTime; lia).
  unfold formatDate, dateText, getFullYear, getMonth, getDate. rewrite L, Y, Mo, Da.
  repeat split; try reflexivity.
  cbv zeta. now replace (month - 1 + 1) with month by lia.
Qed.

Lemma formatDate_round_trip_witness :
  formatDate 32400000 (newDate 32400000 2024 1 29 23 59 59 999) = js "2024-02-29".
Proof.
  refine (eq_trans
            (proj2 (proj2 (proj2 (formatDate_round_trip 32400000 2024 2 29 23 59 59 999
                                    _ _ _ _ _ _ _ _ eq_refl))))
            _); try lia.
  - unfold plainYear. lia.
  - vm_compute. split; discriminate.
  - vm_compute. reflexivity.
Defined.

Lemma MonthFromTime_range t : 0 <= MonthFromTime t <= 11.
Proof.
  unfold MonthFromTime. cbv zeta.
  repeat match goal with
         | |- context [if ?a <? ?b then _ else _] => destruct (a <? b); try lia
         end.
Qed.

Lemma DayWithinYear_range t :
  0 <= DayWithinYear t < 365 + (if InLeapYear (YearFromTime t) then 1 else 0).
Proof.
  unfold DayWithinYear, YearFromTime.
  pose proof (YearFromDay_spec (Day t)) as S.
  rewrite DayFromYear_step in S. lia.
Qed.

Lemma DateFromTime_range t : 1 <= DateFromTime t <= 31.
Proof.
  pose proof (DayWithinYear_range t) as R.
  unfold DateFromTime, MonthFromTime. cbv zeta.
  destruct (InLeapYear (YearFromTime t));
    repeat match goal with
           | |- context [if ?a <? ?b then _ else _] =>
               destruct (Z.ltb_spec a b)
           end; cbv [DaysBeforeMonth]; lia.
Qed.

Lemma two_digits n : 1 <= n <= 31 -> List.length (padStart2 (showZ n)) = 2%nat.
Proof.
  intro H.
  assert (F : forallb (fun k => Nat.eqb (List.length (padStart2 (showZ (1 + Z.of_nat k)))) 2)
                (seq 0 31) = true) by (vm_compute; reflexivity).
  rewrite forallb_forall in F.
  specialize (F (Z.to_nat (n - 1))).
  replace (1 + Z.of_nat (Z.to_nat (n - 1))) with n in F by lia.
  apply Nat.eqb_eq, F, in_seq. lia.
Qed.

Lemma four_digits y : 1000 <= y <= 9999 -> List.length (showZ y) = 4%nat.
Proof.
  intro H.
  assert (F : forallb (fun k => Nat.eqb (List.length (showZ (1000 + Z.of_nat k))) 4)
                (seq 0 (Z.to_nat 9000)) = true) by (vm_compute; reflexivity).
  rewrite forallb_forall in F.
  specialize (F (Z.to_nat (y - 1000))).
  replace (1000 + Z.of_nat (Z.to_nat (y - 1000))) with y in F by lia.
  apply Nat.eqb_eq, F, in_seq. lia.
Qed.

Lemma short_year y : 0 <= y <= 999 -> (List.length (showZ y) <= 3)%nat.
Proof.
  intro H.
  assert (F : forallb (fun k => Nat.leb (List.length (showZ (Z.of_nat k))) 3)
                (seq 0 (Z.to_nat 1000)) = true) by (vm_compute; reflexivity).
  rewrite forallb_forall in F.
  specialize (F (Z.to_nat y)).
  replace (Z.of_nat (Z.to_nat y)) with y in F by lia.
  apply Nat.leb_le, F, in_seq. lia.
Qed.

(** X25: the shape of what formatDate returns.  For every valid date
    the month and the day take two characters each, so the text is the
    year's digits and six more characters: ten characters for the years
    1000 to 9999, fewer for the years 0 to 999, whose digits are not
    padded. *)
Theorem formatDate_shape tza t :
  let y := getFullYear tza t in
  List.length (formatDate tza (Some t)) = (List.length (showZ y) + 6)%nat
  /\ (1000 <= y <= 9999 -> List.length (formatDate tza (Some t)) = 10%nat)
  /\ (0 <= y <= 999 -> (List.length (formatDate tza (Some t)) < 10)%nat).
Proof.
  intro y.
  assert (L : List.length (formatDate tza (Some t)) = (List.length (showZ y) + 6)%nat).
  { unfold formatDate. cbv zeta. fold y.
    pose proof (MonthFromTime_range (LocalTime tza t)) as Rm.
    pose proof (DateFromTime_range (LocalTime tza t)) as Rd.
    rewrite !length_app.
    rewrite (two_digits (getMonth tza t + 1)) by (unfold getMonth; lia).
    rewrite (two_digits (getDate tza t)) by (unfold getDate; lia).
    change (List.length (js "-")) with 1%nat. lia. }
  split; [exact L|]. split; intro H.
  - rewrite L, (four_digits y H). reflexivity.
  - rewrite L. pose proof (short_year y H). lia.
Qed.

Lemma formatDate_shape_witness :
  List.length (formatDate 0 (Some 0)) = 10%nat.
Proof.
  refine (proj1 (proj2 (formatDate_shape 0 0)) _).
  vm_compute. split; discriminate.
Defined.
